(** * Verification of the documentation maintenance scripts

    [fix_mdx.py] (entity decoding, fenced-code-block repair, JSX escaping)
    and [scripts/fix-doc-links.py] (link rewriting) are embedded below as
    executable Rocq functions and their specified properties are settled
    against that embedding. *)

From Stdlib Require Import String Ascii List NArith ZArith Bool Lia.
Import ListNotations.

(** ** The Python runtime the scripts rely on *)
Module Py.

(** A Python [str] is a sequence of Unicode code points. *)
Definition char := N.
Definition str := list char.

(** ASCII literals of the scripts. *)
Definition lit (s : string) : str := map N_of_ascii (list_ascii_of_string s).

Definition NL : char := 10%N.
Definition DQUOTE : char := 34%N.

Definition str_eqb (a b : str) : bool :=
  if list_eq_dec N.eq_dec a b then true else false.

(** *** Exceptions and outcomes

    A computation returns a value, raises an exception, or (for a [while]
    loop run with too little fuel) has not finished yet. *)
Inductive exn := IndexError | ValueError | OverflowError | OSError.

Inductive outcome (A : Type) : Type :=
| Ret (a : A)
| Raise (e : exn)
| OutOfFuel.
Arguments Ret {A} a.
Arguments Raise {A} e.
Arguments OutOfFuel {A}.

Definition bind {A B} (m : outcome A) (f : A -> outcome B) : outcome B :=
  match m with
  | Ret a => f a
  | Raise e => Raise e
  | OutOfFuel => OutOfFuel
  end.

Declare Scope py_scope.
Delimit Scope py_scope with py.
Notation "x <- m ;; f" := (bind m (fun x => f))
  (at level 61, m at next level, right associativity) : py_scope.
Notation "' p <- m ;; f" := (bind m (fun p => f))
  (at level 61, p pattern, m at next level, right associativity) : py_scope.

(** *** Unicode property tables (Unicode 14.0.0, as shipped with CPython 3.11) *)

Definition in_ranges (tbl : list (N * N)) (c : char) : bool :=
  existsb (fun r => (fst r <=? c)%N && (c <=? snd r)%N) tbl.

(** [str.isspace] and the regex class [\s]. *)
Definition space_ranges : list (N * N) :=
  [ (9, 13); (28, 32); (133, 133); (160, 160); (5760, 5760); (8192, 8202);
    (8232, 8233); (8239, 8239); (8287, 8287); (12288, 12288) ]%N.

Definition isspace (c : char) : bool := in_ranges space_ranges c.

(** [str.isdecimal] and the regex class [\d]: general category Nd.  Every
    range starts at a digit zero, so the value of a digit is its offset in
    the range modulo ten. *)
Definition decimal_ranges : list (N * N) := [
    (48, 57); (1632, 1641); (1776, 1785); (1984, 1993); (2406, 2415); (2534, 2543);
    (2662, 2671); (2790, 2799); (2918, 2927); (3046, 3055); (3174, 3183); (3302, 3311);
    (3430, 3439); (3558, 3567); (3664, 3673); (3792, 3801); (3872, 3881); (4160, 4169);
    (4240, 4249); (6112, 6121); (6160, 6169); (6470, 6479); (6608, 6617); (6784, 6793);
    (6800, 6809); (6992, 7001); (7088, 7097); (7232, 7241); (7248, 7257); (42528, 42537);
    (43216, 43225); (43264, 43273); (43472, 43481); (43504, 43513); (43600, 43609); (44016, 44025);
    (65296, 65305); (66720, 66729); (68912, 68921); (69734, 69743); (69872, 69881); (69942, 69951);
    (70096, 70105); (70384, 70393); (70736, 70745); (70864, 70873); (71248, 71257); (71360, 71369);
    (71472, 71481); (71904, 71913); (72016, 72025); (72784, 72793); (73040, 73049); (73120, 73129);
    (92768, 92777); (92864, 92873); (93008, 93017); (120782, 120831); (123200, 123209); (123632, 123641);
    (125264, 125273); (130032, 130041)  ]%N.

Definition isdecimal (c : char) : bool := in_ranges decimal_ranges c.

Definition digit_value (c : char) : option N :=
  match find (fun r => (fst r <=? c)%N && (c <=? snd r)%N) decimal_ranges with
  | Some r => Some ((c - fst r) mod 10)%N
  | None => None
  end.

(** [str.isalpha]: general categories Lu, Ll, Lt, Lm and Lo. *)
Definition alpha_ranges : list (N * N) := [
    (65, 90); (97, 122); (170, 170); (181, 181); (186, 186); (192, 214);
    (216, 246); (248, 705); (710, 721); (736, 740); (748, 748); (750, 750);
    (880, 884); (886, 887); (890, 893); (895, 895); (902, 902); (904, 906);
    (908, 908); (910, 929); (931, 1013); (1015, 1153); (1162, 1327); (1329, 1366);
    (1369, 1369); (1376, 1416); (1488, 1514); (1519, 1522); (1568, 1610); (1646, 1647);
    (1649, 1747); (1749, 1749); (1765, 1766); (1774, 1775); (1786, 1788); (1791, 1791);
    (1808, 1808); (1810, 1839); (1869, 1957); (1969, 1969); (1994, 2026); (2036, 2037);
    (2042, 2042); (2048, 2069); (2074, 2074); (2084, 2084); (2088, 2088); (2112, 2136);
    (2144, 2154); (2160, 2183); (2185, 2190); (2208, 2249); (2308, 2361); (2365, 2365);
    (2384, 2384); (2392, 2401); (2417, 2432); (2437, 2444); (2447, 2448); (2451, 2472);
    (2474, 2480); (2482, 2482); (2486, 2489); (2493, 2493); (2510, 2510); (2524, 2525);
    (2527, 2529); (2544, 2545); (2556, 2556); (2565, 2570); (2575, 2576); (2579, 2600);
    (2602, 2608); (2610, 2611); (2613, 2614); (2616, 2617); (2649, 2652); (2654, 2654);
    (2674, 2676); (2693, 2701); (2703, 2705); (2707, 2728); (2730, 2736); (2738, 2739);
    (2741, 2745); (2749, 2749); (2768, 2768); (2784, 2785); (2809, 2809); (2821, 2828);
    (2831, 2832); (2835, 2856); (2858, 2864); (2866, 2867); (2869, 2873); (2877, 2877);
    (2908, 2909); (2911, 2913); (2929, 2929); (2947, 2947); (2949, 2954); (2958, 2960);
    (2962, 2965); (2969, 2970); (2972, 2972); (2974, 2975); (2979, 2980); (2984, 2986);
    (2990, 3001); (3024, 3024); (3077, 3084); (3086, 3088); (3090, 3112); (3114, 3129);
    (3133, 3133); (3160, 3162); (3165, 3165); (3168, 3169); (3200, 3200); (3205, 3212);
    (3214, 3216); (3218, 3240); (3242, 3251); (3253, 3257); (3261, 3261); (3293, 3294);
    (3296, 3297); (3313, 3314); (3332, 3340); (3342, 3344); (3346, 3386); (3389, 3389);
    (3406, 3406); (3412, 3414); (3423, 3425); (3450, 3455); (3461, 3478); (3482, 3505);
    (3507, 3515); (3517, 3517); (3520, 3526); (3585, 3632); (3634, 3635); (3648, 3654);
    (3713, 3714); (3716, 3716); (3718, 3722); (3724, 3747); (3749, 3749); (3751, 3760);
    (3762, 3763); (3773, 3773); (3776, 3780); (3782, 3782); (3804, 3807); (3840, 3840);
    (3904, 3911); (3913, 3948); (3976, 3980); (4096, 4138); (4159, 4159); (4176, 4181);
    (4186, 4189); (4193, 4193); (4197, 4198); (4206, 4208); (4213, 4225); (4238, 4238);
    (4256, 4293); (4295, 4295); (4301, 4301); (4304, 4346); (4348, 4680); (4682, 4685);
    (4688, 4694); (4696, 4696); (4698, 4701); (4704, 4744); (4746, 4749); (4752, 4784);
    (4786, 4789); (4792, 4798); (4800, 4800); (4802, 4805); (4808, 4822); (4824, 4880);
    (4882, 4885); (4888, 4954); (4992, 5007); (5024, 5109); (5112, 5117); (5121, 5740);
    (5743, 5759); (5761, 5786); (5792, 5866); (5873, 5880); (5888, 5905); (5919, 5937);
    (5952, 5969); (5984, 5996); (5998, 6000); (6016, 6067); (6103, 6103); (6108, 6108);
    (6176, 6264); (6272, 6276); (6279, 6312); (6314, 6314); (6320, 6389); (6400, 6430);
    (6480, 6509); (6512, 6516); (6528, 6571); (6576, 6601); (6656, 6678); (6688, 6740);
    (6823, 6823); (6917, 6963); (6981, 6988); (7043, 7072); (7086, 7087); (7098, 7141);
    (7168, 7203); (7245, 7247); (7258, 7293); (7296, 7304); (7312, 7354); (7357, 7359);
    (7401, 7404); (7406, 7411); (7413, 7414); (7418, 7418); (7424, 7615); (7680, 7957);
    (7960, 7965); (7968, 8005); (8008, 8013); (8016, 8023); (8025, 8025); (8027, 8027);
    (8029, 8029); (8031, 8061); (8064, 8116); (8118, 8124); (8126, 8126); (8130, 8132);
    (8134, 8140); (8144, 8147); (8150, 8155); (8160, 8172); (8178, 8180); (8182, 8188);
    (8305, 8305); (8319, 8319); (8336, 8348); (8450, 8450); (8455, 8455); (8458, 8467);
    (8469, 8469); (8473, 8477); (8484, 8484); (8486, 8486); (8488, 8488); (8490, 8493);
    (8495, 8505); (8508, 8511); (8517, 8521); (8526, 8526); (8579, 8580); (11264, 11492);
    (11499, 11502); (11506, 11507); (11520, 11557); (11559, 11559); (11565, 11565); (11568, 11623);
    (11631, 11631); (11648, 11670); (11680, 11686); (11688, 11694); (11696, 11702); (11704, 11710);
    (11712, 11718); (11720, 11726); (11728, 11734); (11736, 11742); (11823, 11823); (12293, 12294);
    (12337, 12341); (12347, 12348); (12353, 12438); (12445, 12447); (12449, 12538); (12540, 12543);
    (12549, 12591); (12593, 12686); (12704, 12735); (12784, 12799); (13312, 19903); (19968, 42124);
    (42192, 42237); (42240, 42508); (42512, 42527); (42538, 42539); (42560, 42606); (42623, 42653);
    (42656, 42725); (42775, 42783); (42786, 42888); (42891, 42954); (42960, 42961); (42963, 42963);
    (42965, 42969); (42994, 43009); (43011, 43013); (43015, 43018); (43020, 43042); (43072, 43123);
    (43138, 43187); (43250, 43255); (43259, 43259); (43261, 43262); (43274, 43301); (43312, 43334);
    (43360, 43388); (43396, 43442); (43471, 43471); (43488, 43492); (43494, 43503); (43514, 43518);
    (43520, 43560); (43584, 43586); (43588, 43595); (43616, 43638); (43642, 43642); (43646, 43695);
    (43697, 43697); (43701, 43702); (43705, 43709); (43712, 43712); (43714, 43714); (43739, 43741);
    (43744, 43754); (43762, 43764); (43777, 43782); (43785, 43790); (43793, 43798); (43808, 43814);
    (43816, 43822); (43824, 43866); (43868, 43881); (43888, 44002); (44032, 55203); (55216, 55238);
    (55243, 55291); (63744, 64109); (64112, 64217); (64256, 64262); (64275, 64279); (64285, 64285);
    (64287, 64296); (64298, 64310); (64312, 64316); (64318, 64318); (64320, 64321); (64323, 64324);
    (64326, 64433); (64467, 64829); (64848, 64911); (64914, 64967); (65008, 65019); (65136, 65140);
    (65142, 65276); (65313, 65338); (65345, 65370); (65382, 65470); (65474, 65479); (65482, 65487);
    (65490, 65495); (65498, 65500); (65536, 65547); (65549, 65574); (65576, 65594); (65596, 65597);
    (65599, 65613); (65616, 65629); (65664, 65786); (66176, 66204); (66208, 66256); (66304, 66335);
    (66349, 66368); (66370, 66377); (66384, 66421); (66432, 66461); (66464, 66499); (66504, 66511);
    (66560, 66717); (66736, 66771); (66776, 66811); (66816, 66855); (66864, 66915); (66928, 66938);
    (66940, 66954); (66956, 66962); (66964, 66965); (66967, 66977); (66979, 66993); (66995, 67001);
    (67003, 67004); (67072, 67382); (67392, 67413); (67424, 67431); (67456, 67461); (67463, 67504);
    (67506, 67514); (67584, 67589); (67592, 67592); (67594, 67637); (67639, 67640); (67644, 67644);
    (67647, 67669); (67680, 67702); (67712, 67742); (67808, 67826); (67828, 67829); (67840, 67861);
    (67872, 67897); (67968, 68023); (68030, 68031); (68096, 68096); (68112, 68115); (68117, 68119);
    (68121, 68149); (68192, 68220); (68224, 68252); (68288, 68295); (68297, 68324); (68352, 68405);
    (68416, 68437); (68448, 68466); (68480, 68497); (68608, 68680); (68736, 68786); (68800, 68850);
    (68864, 68899); (69248, 69289); (69296, 69297); (69376, 69404); (69415, 69415); (69424, 69445);
    (69488, 69505); (69552, 69572); (69600, 69622); (69635, 69687); (69745, 69746); (69749, 69749);
    (69763, 69807); (69840, 69864); (69891, 69926); (69956, 69956); (69959, 69959); (69968, 70002);
    (70006, 70006); (70019, 70066); (70081, 70084); (70106, 70106); (70108, 70108); (70144, 70161);
    (70163, 70187); (70272, 70278); (70280, 70280); (70282, 70285); (70287, 70301); (70303, 70312);
    (70320, 70366); (70405, 70412); (70415, 70416); (70419, 70440); (70442, 70448); (70450, 70451);
    (70453, 70457); (70461, 70461); (70480, 70480); (70493, 70497); (70656, 70708); (70727, 70730);
    (70751, 70753); (70784, 70831); (70852, 70853); (70855, 70855); (71040, 71086); (71128, 71131);
    (71168, 71215); (71236, 71236); (71296, 71338); (71352, 71352); (71424, 71450); (71488, 71494);
    (71680, 71723); (71840, 71903); (71935, 71942); (71945, 71945); (71948, 71955); (71957, 71958);
    (71960, 71983); (71999, 71999); (72001, 72001); (72096, 72103); (72106, 72144); (72161, 72161);
    (72163, 72163); (72192, 72192); (72203, 72242); (72250, 72250); (72272, 72272); (72284, 72329);
    (72349, 72349); (72368, 72440); (72704, 72712); (72714, 72750); (72768, 72768); (72818, 72847);
    (72960, 72966); (72968, 72969); (72971, 73008); (73030, 73030); (73056, 73061); (73063, 73064);
    (73066, 73097); (73112, 73112); (73440, 73458); (73648, 73648); (73728, 74649); (74880, 75075);
    (77712, 77808); (77824, 78894); (82944, 83526); (92160, 92728); (92736, 92766); (92784, 92862);
    (92880, 92909); (92928, 92975); (92992, 92995); (93027, 93047); (93053, 93071); (93760, 93823);
    (93952, 94026); (94032, 94032); (94099, 94111); (94176, 94177); (94179, 94179); (94208, 100343);
    (100352, 101589); (101632, 101640); (110576, 110579); (110581, 110587); (110589, 110590); (110592, 110882);
    (110928, 110930); (110948, 110951); (110960, 111355); (113664, 113770); (113776, 113788); (113792, 113800);
    (113808, 113817); (119808, 119892); (119894, 119964); (119966, 119967); (119970, 119970); (119973, 119974);
    (119977, 119980); (119982, 119993); (119995, 119995); (119997, 120003); (120005, 120069); (120071, 120074);
    (120077, 120084); (120086, 120092); (120094, 120121); (120123, 120126); (120128, 120132); (120134, 120134);
    (120138, 120144); (120146, 120485); (120488, 120512); (120514, 120538); (120540, 120570); (120572, 120596);
    (120598, 120628); (120630, 120654); (120656, 120686); (120688, 120712); (120714, 120744); (120746, 120770);
    (120772, 120779); (122624, 122654); (123136, 123180); (123191, 123197); (123214, 123214); (123536, 123565);
    (123584, 123627); (124896, 124902); (124904, 124907); (124909, 124910); (124912, 124926); (124928, 125124);
    (125184, 125251); (125259, 125259); (126464, 126467); (126469, 126495); (126497, 126498); (126500, 126500);
    (126503, 126503); (126505, 126514); (126516, 126519); (126521, 126521); (126523, 126523); (126530, 126530);
    (126535, 126535); (126537, 126537); (126539, 126539); (126541, 126543); (126545, 126546); (126548, 126548);
    (126551, 126551); (126553, 126553); (126555, 126555); (126557, 126557); (126559, 126559); (126561, 126562);
    (126564, 126564); (126567, 126570); (126572, 126578); (126580, 126583); (126585, 126588); (126590, 126590);
    (126592, 126601); (126603, 126619); (126625, 126627); (126629, 126633); (126635, 126651); (131072, 173791);
    (173824, 177976); (177984, 178205); (178208, 183969); (183984, 191456); (194560, 195101); (196608, 201546)  ]%N.

Definition isalpha (c : char) : bool := in_ranges alpha_ranges c.

(** *** Built-in operations on [str] and [list] *)

(** Truthiness of a sequence: [if s:] holds when [s] is not empty. *)
Definition truthy {A} (s : list A) : bool :=
  match s with [] => false | _ :: _ => true end.

(** [l[i]] for a non-negative index. *)
Definition getitem {A} (l : list A) (i : nat) : outcome A :=
  match nth_error l i with
  | Some x => Ret x
  | None => Raise IndexError
  end.

Fixpoint startswith (s prefix : str) : bool :=
  match prefix, s with
  | [], _ => true
  | p :: ps, c :: cs => (c =? p)%N && startswith cs ps
  | _ :: _, [] => false
  end.

(** [s.startswith((p1, ..., pn))]. *)
Definition startswith_any (s : str) (ps : list str) : bool :=
  existsb (startswith s) ps.

(** [s.find(sub)]: index of the first occurrence, or [-1]. *)
Fixpoint find_from (s sub : str) (pos : Z) : Z :=
  if startswith s sub then pos
  else match s with
       | [] => (-1)%Z
       | _ :: t => find_from t sub (pos + 1)%Z
       end.

Definition find (s sub : str) : Z := find_from s sub 0%Z.

(** [sub in s]. *)
Definition contains (s sub : str) : bool := (0 <=? find s sub)%Z.

(** Slices [s[k:]] and [s[:k]], with Python's clamping and negative
    indices. *)
Definition slice_index (s : str) (k : Z) : nat :=
  let n := Z.of_nat (length s) in
  Z.to_nat (if (k <? 0)%Z then Z.max 0 (n + k) else Z.min k n).

Definition slice_from (s : str) (k : Z) : str := skipn (slice_index s k) s.
Definition slice_to (s : str) (k : Z) : str := firstn (slice_index s k) s.

(** [s.replace(old, new)]: every non-overlapping occurrence, left to
    right.  [skip] counts the characters of a replaced occurrence that are
    still to be passed over. *)
Fixpoint replace_go (old new s : str) (skip : nat) : str :=
  match s with
  | [] => []
  | c :: t =>
      match skip with
      | S k => replace_go old new t k
      | O => if startswith s old
             then new ++ replace_go old new t (length old - 1)
             else c :: replace_go old new t 0
      end
  end.

Definition replace (s old new : str) : str :=
  match old with
  | [] => new ++ flat_map (fun c => c :: new) s
  | _ :: _ => replace_go old new s 0
  end.

Fixpoint lstrip (s : str) : str :=
  match s with
  | c :: t => if isspace c then lstrip t else s
  | [] => []
  end.

Definition rstrip (s : str) : str := rev (lstrip (rev s)).

(** [s.strip()]. *)
Definition strip (s : str) : str := rstrip (lstrip s).

(** [s.split(sep)] for a one-character separator. *)
Fixpoint split (sep : char) (s : str) : list str :=
  match s with
  | [] => [[]]
  | c :: t =>
      if (c =? sep)%N then [] :: split sep t
      else match split sep t with
           | l :: ls => (c :: l) :: ls
           | [] => [[c]]
           end
  end.

(** [s.split()]: split on runs of whitespace, no empty fields. *)
Fixpoint split_ws_go (s : str) (cur : list char) : list str :=
  match s with
  | [] => match cur with [] => [] | _ :: _ => [rev cur] end
  | c :: t =>
      if isspace c
      then match cur with
           | [] => split_ws_go t []
           | _ :: _ => rev cur :: split_ws_go t []
           end
      else split_ws_go t (c :: cur)
  end.

Definition split_ws (s : str) : list str := split_ws_go s [].

(** [sep.join(l)]. *)
Fixpoint join (sep : str) (l : list str) : str :=
  match l with
  | [] => []
  | [x] => x
  | x :: rest => x ++ sep ++ join sep rest
  end.

(** [l[a:b]] for non-negative indices. *)
Definition slice {A} (l : list A) (a b : nat) : list A :=
  firstn (b - a) (skipn a l).

(** [int(s)] on a string of decimal digits.  CPython refuses strings of
    more than 4300 digits. *)
Definition int_max_str_digits : nat := 4300.

Fixpoint int_digits (s : str) (acc : N) : outcome N :=
  match s with
  | [] => Ret acc
  | c :: t =>
      match digit_value c with
      | Some d => int_digits t (10 * acc + d)%N
      | None => Raise ValueError
      end
  end.

Definition int (s : str) : outcome N :=
  match s with
  | [] => Raise ValueError
  | _ :: _ =>
      if Nat.ltb int_max_str_digits (length s) then Raise ValueError
      else int_digits s 0%N
  end.

(** [chr(n)]: a one-character string; [ValueError] outside
    [range(0x110000)], [OverflowError] when [n] does not fit a C int. *)
Definition chr (n : N) : outcome str :=
  if (n <? 1114112)%N then Ret [n]
  else if (n <=? 2147483647)%N then Raise ValueError
  else Raise OverflowError.

(** *** Files

    A path is its sequence of components; a file holds text or fails to be
    read with some exception; a missing file fails with [OSError]. *)
Definition path := list str.

Definition path_eqb (a b : path) : bool :=
  if list_eq_dec (list_eq_dec N.eq_dec) a b then true else false.

Inductive file := Text (content : str) | Unreadable (e : exn).

Definition filesystem := path -> option file.

Definition read_text (fs : filesystem) (p : path) : outcome str :=
  match fs p with
  | Some (Text content) => Ret content
  | Some (Unreadable e) => Raise e
  | None => Raise OSError
  end.

(** A write that succeeds.  Neither script catches the exception of a
    write that fails, so a run in which one fails ends there; the model
    follows the runs in which every write succeeds. *)
Definition write_text (fs : filesystem) (p : path) (content : str) : filesystem :=
  fun q => if path_eqb q p then Some (Text content) else fs q.

End Py.

(** ** Regular expressions (the subset of [re] the scripts use) *)
Module Re.
Import Py.

(** Patterns.  [Grp n r] is the [n]-th capturing group, [Bol] and [Eol]
    are [^] and [$] (no flags are used), [NotBehind p] is a negative
    lookbehind [(?<!c)] on one character of class [p] and [NotAhead p] a
    negative lookahead [(?!c)]. *)
Inductive regex : Type :=
| Eps
| Chr (c : char)
| Cls (p : char -> bool)
| Cat (r1 r2 : regex)
| Alt (r1 r2 : regex)
| Star (r : regex)
| Grp (n : nat) (r : regex)
| Bol
| Eol
| NotBehind (p : char -> bool)
| NotAhead (p : char -> bool).

(** [r+] and [r?] (both greedy). *)
Definition Plus (r : regex) : regex := Cat r (Star r).
Definition Opt (r : regex) : regex := Alt r Eps.

Fixpoint Lit (s : str) : regex :=
  match s with
  | [] => Eps
  | c :: t => Cat (Chr c) (Lit t)
  end.

Definition Seq (rs : list regex) : regex := fold_right Cat Eps rs.

Fixpoint Alts (rs : list regex) : regex :=
  match rs with
  | [] => Cls (fun _ => false)
  | [r] => r
  | r :: rs' => Alt r (Alts rs')
  end.

(** Character classes. *)
Definition just (c : char) : char -> bool := fun x => (x =? c)%N.
Definition between (lo hi : N) : char -> bool :=
  fun x => (lo <=? x)%N && (x <=? hi)%N.
Definition ascii_letter : char -> bool :=
  fun x => between 97 122 x || between 65 90 x.
Definition ident_start : char -> bool :=
  fun x => ascii_letter x || just 95%N x.
Definition ident_char : char -> bool :=
  fun x => ascii_letter x || between 48 57 x || just 95%N x.
Definition none_of (cs : list char) : char -> bool :=
  fun x => negb (existsb (N.eqb x) cs).

(** The matcher's position: the text before the cursor (most recent
    character first), the text after it, and the groups captured so far. *)
Record cursor : Type := {
  seen : list char;
  rest : str;
  groups : list (nat * str)
}.

Definition start_at (before : list char) (s : str) : cursor :=
  {| seen := before; rest := s; groups := [] |}.

Definition eat (c : char) (t : str) (st : cursor) : cursor :=
  {| seen := c :: seen st; rest := t; groups := groups st |}.

(** The cursor after passing over [l], with [t] still to be read. *)
Definition moved (st : cursor) (l : str) (t : str) : cursor :=
  {| seen := rev l ++ seen st; rest := t; groups := groups st |}.

(** The text consumed between the cursors [a] and [b]. *)
Definition span (a b : cursor) : str :=
  rev (firstn (length (seen b) - length (seen a)) (seen b)).

Definition set_group (n : nat) (s : str) (st : cursor) : cursor :=
  {| seen := seen st; rest := rest st; groups := (n, s) :: groups st |}.

(** [m.group(n)]; a group that took no part in the match is empty in a
    replacement template. *)
Definition group (n : nat) (st : cursor) : str :=
  match List.find (fun g => Nat.eqb (fst g) n) (groups st) with
  | Some g => snd g
  | None => []
  end.

(** Greedy iteration of a pattern whose matcher is [body]: as many
    iterations as possible first, each of which has to consume a character
    (every starred pattern of the scripts does); [n] bounds the number of
    iterations by the length of the remaining text. *)
Fixpoint star_iter (body : cursor -> (cursor -> option cursor) -> option cursor)
  (k : cursor -> option cursor) (n : nat) (st : cursor) : option cursor :=
  match n with
  | O => k st
  | S n' =>
      match body st (fun st1 =>
              if Nat.ltb (length (rest st1)) (length (rest st))
              then star_iter body k n' st1 else None) with
      | Some m => Some m
      | None => k st
      end
  end.

(** Backtracking matcher in continuation-passing style: [run r st k]
    matches [r] at [st] and hands every way of doing so, in the engine's
    order of preference, to [k] until [k] accepts. *)
Fixpoint run (r : regex) (st : cursor) (k : cursor -> option cursor)
  {struct r} : option cursor :=
  match r with
  | Eps => k st
  | Chr c =>
      match rest st with
      | x :: t => if (x =? c)%N then k (eat x t st) else None
      | [] => None
      end
  | Cls p =>
      match rest st with
      | x :: t => if p x then k (eat x t st) else None
      | [] => None
      end
  | Cat r1 r2 => run r1 st (fun st1 => run r2 st1 k)
  | Alt r1 r2 =>
      match run r1 st k with
      | Some m => Some m
      | None => run r2 st k
      end
  | Star r1 => star_iter (run r1) k (length (rest st)) st
  | Grp n r1 => run r1 st (fun st1 => k (set_group n (span st st1) st1))
  | Bol => match seen st with [] => k st | _ :: _ => None end
  | Eol =>
      match rest st with
      | [] => k st
      | [c] => if (c =? NL)%N then k st else None
      | _ => None
      end
  | NotBehind p =>
      match seen st with
      | c :: _ => if p c then None else k st
      | [] => k st
      end
  | NotAhead p =>
      match rest st with
      | c :: _ => if p c then None else k st
      | [] => k st
      end
  end.

(** A match of [r] starting exactly at the cursor. *)
Definition match_at (r : regex) (before : list char) (s : str) : option cursor :=
  run r (start_at before s) (fun st => Some st).

(** [re.match(r, s)]. *)
Definition re_match (r : regex) (s : str) : option cursor := match_at r [] s.

(** [re.search(r, s)]: the leftmost match. *)
Fixpoint search_from (r : regex) (before : list char) (s : str) : option cursor :=
  match match_at r before s with
  | Some m => Some m
  | None =>
      match s with
      | [] => None
      | c :: t => search_from r (c :: before) t
      end
  end.

Definition re_search (r : regex) (s : str) : option cursor := search_from r [] s.

Definition is_some {A} (o : option A) : bool :=
  match o with Some _ => true | None => false end.

(** Replacement templates: literal text and group references [\n]. *)
Inductive piece := TLit (s : str) | TGrp (n : nat).

Definition expand (t : list piece) (m : cursor) : str :=
  flat_map (fun p => match p with TLit s => s | TGrp n => group n m end) t.

(** [re.sub(r, repl, s)] for a callable [repl]: leftmost non-overlapping
    matches, left to right; an empty match is replaced and the next
    character copied.  [skip] counts the characters of the current match
    still to be passed over. *)
Fixpoint sub_go (r : regex) (repl : cursor -> outcome str)
  (before : list char) (s : str) (skip : nat) : outcome str :=
  match s with
  | [] =>
      match skip with
      | O => match match_at r before [] with
             | Some m => repl m
             | None => Ret []
             end
      | S _ => Ret []
      end
  | c :: t =>
      match skip with
      | S k => sub_go r repl (c :: before) t k
      | O =>
          match match_at r before s with
          | Some m =>
              (x <- repl m ;;
               match length (seen m) - length before with
               | O => y <- sub_go r repl (c :: before) t 0 ;; Ret (x ++ c :: y)
               | S n => y <- sub_go r repl (c :: before) t n ;; Ret (x ++ y)
               end)%py
          | None => (y <- sub_go r repl (c :: before) t 0 ;; Ret (c :: y))%py
          end
      end
  end.

Definition re_sub_call (r : regex) (repl : cursor -> outcome str) (s : str)
  : outcome str := sub_go r repl [] s 0.

(** [re.sub(r, template, s)]. *)
Fixpoint sub_tpl (r : regex) (tpl : list piece)
  (before : list char) (s : str) (skip : nat) : str :=
  match s with
  | [] =>
      match skip with
      | O => match match_at r before [] with
             | Some m => expand tpl m
             | None => []
             end
      | S _ => []
      end
  | c :: t =>
      match skip with
      | S k => sub_tpl r tpl (c :: before) t k
      | O =>
          match match_at r before s with
          | Some m =>
              match length (seen m) - length before with
              | O => expand tpl m ++ c :: sub_tpl r tpl (c :: before) t 0
              | S n => expand tpl m ++ sub_tpl r tpl (c :: before) t n
              end
          | None => c :: sub_tpl r tpl (c :: before) t 0
          end
      end
  end.

Definition re_sub (r : regex) (tpl : list piece) (s : str) : str :=
  sub_tpl r tpl [] s 0.

End Re.

(** ** fix_mdx.py *)
Module FixMdx.
Import Py Re.
Local Open Scope py_scope.

(** The entity table, in the dictionary's insertion order. *)
Definition HTML_ENTITIES : list (str * str) :=
  [ (lit "&#91;", lit "[");
    (lit "&#93;", lit "]");
    (lit "&#123;", lit "{");
    (lit "&#125;", lit "}");
    (lit "&lt;", lit "<");
    (lit "&gt;", lit ">");
    (lit "&amp;", lit "&");
    (lit "&quot;", [DQUOTE]);
    (lit "&#39;", lit "'") ].

Definition FENCE : str := lit "```".

Definition split_frontmatter (content : str) : str * str :=
  if negb (startswith content (lit "---")) then ([], content)
  else
    let rest := slice_from content 3 in
    let end_idx := find rest (NL :: lit "---") in
    if (end_idx =? -1)%Z then ([], content)
    else
      let end_idx := (3 + end_idx + 4)%Z in
      let frontmatter := slice_to content end_idx in
      let body := slice_from content end_idx in
      (frontmatter, body).

(** [&#(\d+);] *)
Definition numeric_entity : regex :=
  Seq [Lit (lit "&#"); Grp 1 (Plus (Cls isdecimal)); Lit (lit ";")].

Definition decode_html_entities (content : str) : outcome str :=
  let content :=
    fold_left (fun content kv => replace content (fst kv) (snd kv))
      HTML_ENTITIES content in
  re_sub_call numeric_entity (fun m => n <- int (group 1 m) ;; chr n) content.

(** The patterns of [is_code_continuation], in the order they are tried. *)
Definition spaces : regex := Star (Cls isspace).

(** [^\s*(//|/\*|\*/)] *)
Definition re_comment : regex :=
  Seq [Bol; spaces; Grp 1 (Alts [Lit (lit "//"); Lit (lit "/*"); Lit (lit "*/")])].
(** [^\s*\}$] *)
Definition re_closing_brace : regex :=
  Seq [Bol; spaces; Lit (lit "}"); Eol].
(** [^\s*(return|defer|go)\s] *)
Definition re_keyword : regex :=
  Seq [Bol; spaces;
       Grp 1 (Alts [Lit (lit "return"); Lit (lit "defer"); Lit (lit "go")]);
       Cls isspace].
(** [^\s*[a-zA-Z_][a-zA-Z0-9_]*\s*:=] *)
Definition re_short_decl : regex :=
  Seq [Bol; spaces; Cls ident_start; Star (Cls ident_char); spaces; Lit (lit ":=")].
(** [^\s*select\s*\{] *)
Definition re_select : regex :=
  Seq [Bol; spaces; Lit (lit "select"); spaces; Lit (lit "{")].
(** [^(\t|    )] *)
Definition re_indent : regex :=
  Seq [Bol; Grp 1 (Alt (Chr 9%N) (Lit (lit "    ")))].

Definition is_code_continuation (line : str) (prev_lines : list str) : bool :=
  let stripped := strip line in
  if negb (truthy stripped) then false
  else if is_some (re_match re_comment line) then true
  else if is_some (re_match re_closing_brace stripped) then true
  else if is_some (re_match re_keyword line) then true
  else if is_some (re_match re_short_decl line) then true
  else if is_some (re_match re_select line) then true
  else if is_some (re_match re_indent line) && truthy stripped
          && negb (startswith_any stripped [lit "-"; lit "*"; lit ">"])
       then true
  else false.

(** [^\d+\.\s+\*\*] *)
Definition re_numbered_bold : regex :=
  Seq [Bol; Plus (Cls isdecimal); Lit (lit "."); Plus (Cls isspace); Lit (lit "**")].

Definition code_chars : list str :=
  [lit "{}"; lit "()"; lit ":="; lit "->"; lit "{{"; lit "}}"].

Definition is_markdown_text (line : str) : bool :=
  let stripped := strip line in
  if negb (truthy stripped) then true
  else if startswith_any stripped
            [lit "#"; lit ">"; lit "|"; lit "-"; lit "1."; lit "2."; lit "3.";
             lit "!"; lit "["] then true
  else if startswith_any stripped [lit "**"; lit "__"] then true
  else if is_some (re_match re_numbered_bold stripped) then true
  else
    let words := split_ws stripped in
    if Nat.ltb 10 (length words) && negb (existsb (contains stripped) code_chars)
    then true
    else false.

(** *** The fence scanner

    The three [while] loops run on fuel.  [blank_loop] is the loop on lines
    139-141, [orphan_loop] the loop on lines 146-167, [main_loop] the loop
    on lines 116-198. *)
Fixpoint blank_loop (fuel : nat) (lines : list str) (j blank_count : nat)
  : outcome (nat * nat) :=
  match fuel with
  | O => OutOfFuel
  | S fuel =>
      if Nat.ltb j (length lines) then
        lj <- getitem lines j ;;
        if negb (truthy (strip lj))
        then blank_loop fuel lines (j + 1) (blank_count + 1)
        else Ret (j, blank_count)
      else Ret (j, blank_count)
  end.

Fixpoint orphan_loop (fuel : nat) (lines : list str) (j : nat)
  (orphan_code : list str) : outcome (nat * list str) :=
  match fuel with
  | O => OutOfFuel
  | S fuel =>
      if Nat.ltb j (length lines) then
        next_line <- getitem lines j ;;
        let next_stripped := strip next_line in
        if startswith next_stripped (lit "#") || startswith next_stripped FENCE
        then Ret (j, orphan_code)
        else if is_markdown_text next_line then Ret (j, orphan_code)
        else if is_code_continuation next_line orphan_code
        then orphan_loop fuel lines (j + 1) (orphan_code ++ [next_line])
        else if truthy orphan_code && truthy next_stripped
        then orphan_loop fuel lines (j + 1) (orphan_code ++ [next_line])
        else Ret (j, orphan_code)
      else Ret (j, orphan_code)
  end.

(** Lines 134-167: the lookahead run at a closing fence at index [i]; it
    returns the index [j] reached and the orphan run. *)
Definition lookahead (fuel : nat) (lines : list str) (i : nat)
  : outcome (nat * list str) :=
  let orphan_code := [] in
  let j := i + 1 in
  '(j, blank_count) <- blank_loop fuel lines j 0 ;;
  if Nat.leb blank_count 1 && Nat.ltb j (length lines)
  then orphan_loop fuel lines j orphan_code
  else Ret (j, orphan_code).

(** [rest and rest[0].isalpha()] *)
Definition has_language (rest : str) : outcome bool :=
  if truthy rest then c <- getitem rest 0 ;; Ret (isalpha c) else Ret false.

(** The main loop.  Besides [result] it returns, as a ghost value that no
    branch reads, the number of closing fences at which an orphan run was
    merged. *)
Fixpoint main_loop (fuel : nat) (lines : list str) (i : nat)
  (in_code_block : bool) (code_lang : option str) (result : list str)
  (merges : nat) : outcome (list str * nat) :=
  match fuel with
  | O => OutOfFuel
  | S fuel =>
      if Nat.ltb i (length lines) then
        line <- getitem lines i ;;
        let stripped := strip line in
        if startswith stripped FENCE then
          let rest := strip (slice_from stripped 3) in
          lang <- has_language rest ;;
          if lang then
            word <- getitem (split_ws rest) 0 ;;
            main_loop fuel lines (i + 1) true (Some word) (result ++ [line]) merges
          else if str_eqb rest [] && in_code_block then
            '(j, orphan_code) <- lookahead fuel lines i ;;
            if truthy orphan_code then
              main_loop fuel lines j false None
                ((result ++ orphan_code) ++ [FENCE]) (merges + 1)
            else
              main_loop fuel lines (i + 1) false None (result ++ [line]) merges
          else
            if in_code_block then
              main_loop fuel lines (i + 1) false None (result ++ [line]) merges
            else
              main_loop fuel lines (i + 1) true code_lang (result ++ [line]) merges
        else
          main_loop fuel lines (i + 1) in_code_block code_lang (result ++ [line]) merges
      else Ret (result, merges)
  end.

Definition scan (fuel : nat) (content : str) : outcome (list str * nat) :=
  let lines := split NL content in
  main_loop fuel lines 0 false None [] 0.

Definition fix_fragmented_blocks_fuel (fuel : nat) (content : str) : outcome str :=
  '(result, _) <- scan fuel content ;;
  Ret (join [NL] result).

(** One unit of fuel per line and one for the final test of the loop
    condition is enough for the loops to finish. *)
Definition fix_fragmented_blocks (content : str) : outcome str :=
  fix_fragmented_blocks_fuel (S (length (split NL content))) content.

(** Number of closing fences at which the scanner merges an orphan run. *)
Definition merge_count (content : str) : outcome nat :=
  '(_, merges) <- scan (S (length (split NL content))) content ;;
  Ret merges.


(** *** JSX escaping *)

Definition BACKSLASH : char := 92%N.
Definition L (s : string) : regex := Lit (lit s).
Definition T (s : string) : piece := TLit (lit s).

(** [(?<!\\)] *)
Definition unescaped : regex := NotBehind (just BACKSLASH).
(** [(?<!\\)<(\d)] *)
Definition re_lt_digit : regex := Seq [unescaped; L "<"; Grp 1 (Cls isdecimal)].
(** [(?<!\\)<-chan] *)
Definition re_recv_chan : regex := Seq [unescaped; L "<-chan"].
(** [(?<!\\)<-(?![a-zA-Z])] *)
Definition re_recv : regex := Seq [unescaped; L "<-"; NotAhead ascii_letter].
(** [(?<!\\)\{\}] *)
Definition re_empty_braces : regex := Seq [unescaped; L "{}"].
(** [(?<!\\)\{([^{}]+)\}] *)
Definition re_brace_word : regex :=
  Seq [unescaped; L "{"; Grp 1 (Plus (Cls (none_of [123; 125]%N))); L "}"].
(** [(?<!\\)\{\{-?] *)
Definition re_helm_open : regex := Seq [unescaped; L "{{"; Opt (L "-")].
(** [-?(?<!\\)\}\}] *)
Definition re_helm_close : regex := Seq [Opt (L "-"); unescaped; L "}}"].

(** Lines 228-253: the substitutions applied to a line outside code
    blocks. *)
Definition escape_line (line : str) : str :=
  let line := replace line (lit "\\{") (lit "\{") in
  let line := replace line (lit "\\}") (lit "\}") in
  let line := replace line (lit "\\<") (lit "\<") in
  let line := re_sub re_lt_digit [T "\<"; TGrp 1] line in
  let line := re_sub re_recv_chan [T "\<-chan"] line in
  let line := re_sub re_recv [T "\<-"] line in
  let line :=
    if negb (contains line (lit "`"))
    then re_sub re_empty_braces [T "\{\}"] line else line in
  let line :=
    if contains line (lit "-->")
    then re_sub re_brace_word [T "\{"; TGrp 1; T "\}"] line else line in
  let line :=
    if negb (contains line (lit "`"))
    then
      let line := re_sub re_helm_open [T "\{\{"] line in
      re_sub re_helm_close [T "\}\}"] line
    else line in
  line.

(** The [for] loop of [escape_jsx_patterns]. *)
Fixpoint escape_loop (lines : list str) (in_code_block : bool)
  (result : list str) : outcome (list str) :=
  match lines with
  | [] => Ret result
  | line :: lines =>
      let stripped := strip line in
      if startswith stripped FENCE then
        let rest := strip (slice_from stripped 3) in
        lang <- has_language rest ;;
        let in_code_block :=
          if lang then true
          else if str_eqb rest [] then negb in_code_block
          else in_code_block in
        escape_loop lines in_code_block (result ++ [line])
      else if in_code_block then
        escape_loop lines in_code_block (result ++ [line])
      else
        escape_loop lines in_code_block (result ++ [escape_line line])
  end.

Definition escape_jsx_patterns (content : str) : outcome str :=
  let lines := split NL content in
  result <- escape_loop lines false [] ;;
  Ret (join [NL] result).

(** *** Empty code blocks *)

(** The pattern of line 262: a fence, a newline, any number of groups
    [(\s*\n)], a fence. *)
Definition re_blank_block : regex :=
  Seq [Lit FENCE; Chr NL; Star (Grp 1 (Seq [spaces; Chr NL])); Lit FENCE].
(** The pattern of line 263: two fences one newline apart. *)
Definition re_adjacent_fences : regex := Seq [Lit FENCE; Chr NL; Lit FENCE].

Definition remove_empty_code_blocks (content : str) : str :=
  let content := re_sub re_blank_block [] content in
  let content := re_sub re_adjacent_fences [] content in
  content.

(** *** The per-file pipeline *)

(** Lines 275-290 of [fix_markdown_file]: the transformation of the text
    read from the file. *)
Definition transform (content : str) : outcome str :=
  let '(frontmatter, body) := split_frontmatter content in
  body <- decode_html_entities body ;;
  body <- fix_fragmented_blocks body ;;
  let body := remove_empty_code_blocks body in
  body <- escape_jsx_patterns body ;;
  let content := frontmatter ++ body in
  Ret content.

Definition fix_markdown_file (fs : filesystem) (filepath : path)
  : outcome (bool * filesystem) :=
  content <- read_text fs filepath ;;
  let original := content in
  content <- transform content ;;
  if negb (str_eqb content original)
  then Ret (true, write_text fs filepath content)
  else Ret (false, fs).

(** *** Vocabulary of the specification

    A fence-marker line is a line whose stripped content starts with the
    marker (the test on line 121).  An opening fence is the marker alone or
    followed by a language tag, a closing fence the marker alone; a
    well-formed fence pair is an opening fence whose next fence-marker line
    is a closing fence. *)
Definition is_fence_line (line : str) : bool := startswith (strip line) FENCE.

(** Number of fence-marker lines in a list of lines and in a text. *)
Definition fences (ls : list str) : nat := length (filter is_fence_line ls).

Definition fence_lines (content : str) : nat := fences (split NL content).

Definition no_fence (ls : list str) : Prop := filter is_fence_line ls = [].

Definition is_opening_fence (line : str) : bool :=
  is_fence_line line &&
  match strip (slice_from (strip line) 3) with
  | [] => true
  | c :: _ => isalpha c
  end.

Definition is_closing_fence (line : str) : bool := str_eqb (strip line) FENCE.

Fixpoint closes_first (lines : list str) : bool :=
  match lines with
  | [] => false
  | l :: t => if is_fence_line l then is_closing_fence l else closes_first t
  end.

Fixpoint has_fence_pair (lines : list str) : bool :=
  match lines with
  | [] => false
  | l :: t => (is_opening_fence l && closes_first t) || has_fence_pair t
  end.

(** Documents written line by line. *)
Definition doc (lines : list string) : str := join [NL] (map lit lines).

(** *** Example documents *)
Local Open Scope string_scope.

(** The orphan-merge scenario of the specification: a fence tagged [go],
    one code line, an empty closing fence, one blank line, a closing
    brace. *)
Definition orphan_scenario : str :=
  doc ["```go"; "func f() {"; "```"; ""; "}"].
Definition orphan_scenario_fixed : str :=
  doc ["```go"; "func f() {"; "}"; "```"].


(** A well-formed fence pair followed by a fence that is never closed. *)
Definition unclosed_fence : str :=
  doc ["```go"; "a"; "```"; ""; "text"; "```go"].

(** Inline code, an empty code block, an indented code block. *)
Definition inline_code_and_empty_block : str :=
  doc ["Use `x` here."; "```"; ""; "```"; "  ```go"; "f()"; "  ```"].

(** A line of text that ends with three backticks, right above a code
    block; and what [remove_empty_code_blocks] makes of it. *)
Definition fence_after_text : str := doc ["a```"; "```go"; "x"; "```"].
Definition fence_after_text_out : str := doc ["ago"; "x"; "```"].

(** A closing fence followed by an orphan and a line that only the
    already-has-orphans case accepts. *)
Definition loose_lines : list str := map lit ["```go"; "a"; "```"; "}"; "foo bar"].

(** A document with a frontmatter block, and what the pipeline makes of
    it. *)
Definition with_frontmatter : str :=
  doc ["---"; "title: a &lt; b"; "---"; "x &lt; y {}"; "```go"; "f()"; "```"].
Definition with_frontmatter_fixed : str :=
  doc ["---"; "title: a &lt; b"; "---"; "x < y \{\}"; "```go"; "f()"; "```"].

(** A frontmatter block one of whose lines begins with the marker, and
    what the pipeline makes of the document. *)
Definition marker_in_frontmatter : str :=
  doc ["---"; "a: 1"; "---b: &lt; {}"; "---"; "body"].
Definition marker_in_frontmatter_block : str :=
  doc ["---"; "a: 1"; "---b: &lt; {}"; "---"].
Definition marker_in_frontmatter_out : str :=
  doc ["---"; "a: 1"; "---b: < \{\}"; "---"; "body"].

(** A numeric entity just past the last code point. *)
Definition entity_out_of_range : str := lit "&#1114112;".

Local Close Scope string_scope.

End FixMdx.

(** ** scripts/fix-doc-links.py *)
Module FixDocLinks.
Import Py Re.
Local Open Scope py_scope.

Definition L (s : string) : regex := Lit (lit s).
Definition T (s : string) : piece := TLit (lit s).

(** [[^)]], [[^\]]] *)
Definition not_rparen : char -> bool := none_of [41%N].
Definition not_rbracket : char -> bool := none_of [93%N].
(** [\[([^\]]+)\]]: a link text, captured as group 1. *)
Definition link_text : regex := Seq [L "["; Grp 1 (Plus (Cls not_rbracket)); L "]"].

Definition GITHUB_BLOB : string := "](https://github.com/lookatitude/beluga-ai/blob/main/".
Definition GITHUB_TREE : string := "](https://github.com/lookatitude/beluga-ai/tree/main/".

(** The text being rewritten together with [local_changes]. *)
Definition edit := (str * nat)%type.

(** [if old in content: content = content.replace(old, new); local_changes += 1] *)
Definition replace_rule (old new : str) (e : edit) : edit :=
  let '(content, local_changes) := e in
  if contains content old
  then (replace content old new, local_changes + 1)
  else e.

(** [if re.search(p, content): content = re.sub(p, tpl, content); local_changes += 1] *)
Definition sub_rule (pattern : regex) (tpl : list piece) (e : edit) : edit :=
  let '(content, local_changes) := e in
  if is_some (re_search pattern content)
  then (re_sub pattern tpl content, local_changes + 1)
  else e.

(** Rule 3: [\]\(/pkg/([^)]+)\)] *)
Definition pkg_pattern : regex :=
  Seq [L "](/pkg/"; Grp 1 (Plus (Cls not_rparen)); L ")"].
Definition pkg_template : list piece :=
  [TLit (lit GITHUB_BLOB ++ lit "pkg/"); TGrp 1; T ")"].
(** Rule 4: [\]\(/examples/([^)]+)\)] *)
Definition examples_pattern : regex :=
  Seq [L "](/examples/"; Grp 1 (Plus (Cls not_rparen)); L ")"].
(** Rule 5: [\]\(/specs/([^)]+)\)] *)
Definition specs_pattern : regex :=
  Seq [L "](/specs/"; Grp 1 (Plus (Cls not_rparen)); L ")"].
(** Rule 6: [\[([^\]]+)\]\([^)]*guides/config-providers\.md[^)]*\)] *)
Definition config_providers_pattern : regex :=
  Seq [link_text; L "("; Star (Cls not_rparen); L "guides/config-providers.md";
       Star (Cls not_rparen); L ")"].
(** Rule 7 *)
Definition event_driven_pattern : regex :=
  Seq [link_text; L "(./event-driven-agents.md)"].
Definition distributed_pattern : regex :=
  Seq [link_text; L "(./distributed-orchestration.md)"].
(** Rule 8 *)
Definition readme_pattern : regex := Seq [link_text; L "(./README.md)"].
(** Rule 9 *)
Definition guides_config_pattern : regex :=
  Seq [link_text; L "(../guides/configuration.md)"].
(** Rule 10: [\]\([^)]*api-docs/packages/voice/s2s\.md[^)]*\)] *)
Definition voice_s2s_pattern : regex :=
  Seq [L "]("; Star (Cls not_rparen); L "api-docs/packages/voice/s2s.md";
       Star (Cls not_rparen); L ")"].
(** Rule 11 *)
Definition missing_api_docs : list str :=
  [lit "messaging"; lit "documentloaders"; lit "safety"; lit "multimodal";
   lit "textsplitters"].
Definition missing_api_pattern (pkg : str) : regex :=
  Seq [link_text; L "("; Star (Cls not_rparen); L "api-docs/packages/"; Lit pkg;
       L ".md"; Star (Cls not_rparen); L ")"].
(** Rule 12 *)
Definition tutorial_pattern : regex :=
  L "](../getting-started/tutorials/working-with-tools.md)".
(** Rule 13 *)
Definition providers_pattern : regex :=
  Seq [link_text; L "(/docs/providers/embeddings/selection.md)"].
(** Rule 14: [\]\(\.\./\.\./\.\./tutorials/([^)]+)\)] *)
Definition tutorials_pattern : regex :=
  Seq [L "](../../../tutorials/"; Grp 1 (Plus (Cls not_rparen)); L ")"].
(** Rule 15 *)
Definition server_pattern : regex := L "](../../../api-docs/packages/server.md)".
(** Rules 17 and 18 *)
Definition top_level_docs : list str :=
  [lit "README"; lit "CONTRIBUTING"; lit "CHANGELOG"].
Definition parent_doc_pattern (doc : str) : regex :=
  Seq [L "](../"; Grp 1 (Lit doc); L ".md)"].
Definition grandparent_doc_pattern (doc : str) : regex :=
  Seq [L "](../../"; Lit doc; L ".md)"].
Definition doc_template (doc : str) : list piece :=
  [TLit (lit GITHUB_BLOB ++ doc ++ lit ".md)")].
(** Rules 19-22 and 31: a prefix, the rest of the link target captured
    as group 1 (possibly empty), a closing parenthesis. *)
Definition rest_of_link (prefix : string) : regex :=
  Seq [L prefix; Grp 1 (Star (Cls not_rparen)); L ")"].
Definition tree_template (dir : string) : list piece :=
  [TLit (lit GITHUB_TREE ++ lit dir); TGrp 1; T ")"].
(** Rule 23: [\]\([^)]*website/docs/api/[^)]*\)] *)
Definition website_api_pattern : regex :=
  Seq [L "]("; Star (Cls not_rparen); L "website/docs/api/";
       Star (Cls not_rparen); L ")"].
(** Rule 26: [\]\(\./providers/([^)]+)/\)] *)
Definition providers_dir_pattern : regex :=
  Seq [L "](./providers/"; Grp 1 (Plus (Cls not_rparen)); L "/)"].
(** Rule 27 *)
Definition test_issues_pattern : regex :=
  Seq [link_text; L "(./TEST_ISSUES_SUMMARY.md)"].
(** Rule 28: [\]\(\.\./\.\./integrations/([^)]+)\)] *)
Definition integrations_pattern : regex :=
  Seq [L "](../../integrations/"; Grp 1 (Plus (Cls not_rparen)); L ")"].
(** Rule 30 *)
Definition examples_guides_pattern : regex :=
  Seq [L "](../../guides/"; Grp 1 (Plus (Cls not_rparen)); L ")"].
Definition voice_sessions_pattern : regex :=
  Seq [L "]("; Star (Cls not_rparen); L "use-cases/voice-sessions.md)"].

(** [str(p)] for a relative path. *)
Definition str_of_path (p : path) : str := join (lit "/") p.

(** [p.relative_to(base)] *)
Fixpoint relative_to (p base : path) : outcome path :=
  match base, p with
  | [], _ => Ret p
  | b :: base', x :: p' =>
      if str_eqb x b then relative_to p' base' else Raise ValueError
  | _ :: _, [] => Raise ValueError
  end.

(** Rule 16, lines 137-141. *)
Definition integrations_depth_rule (rel_path : path) (depth : Z) (e : edit) : edit :=
  let '(content, local_changes) := e in
  if (2 <=? depth)%Z && contains (str_of_path rel_path) (lit "integrations") then
    if (depth =? 3)%Z then
      if contains content (lit "../../api-docs")
         && negb (contains content (lit "../../../api-docs"))
      then (replace content (lit "../../api-docs") (lit "../../../api-docs"),
            local_changes + 1)
      else e
    else e
  else e.

(** Rule 30, lines 224-241. *)
Definition examples_rule (rel_path : path) (e : edit) : edit :=
  let '(content, local_changes) := e in
  if contains (str_of_path rel_path) (lit "examples") then
    if contains content (lit "voice-sessions.md") then
      let content :=
        replace content (lit "use-cases/voice-sessions.md")
          (lit "use-cases/voice-sessions.md") in
      sub_rule voice_sessions_pattern
        [T "](../../use-cases/voice-session-multi-turn-forms.md)"]
        (content, local_changes)
    else e
  else e.

Section Script.

(** [ROOT_DIR = Path(__file__).parent.parent]: where the script is
    installed. *)
Variable ROOT_DIR : path.

Definition DOCS_DIR : path := ROOT_DIR ++ [lit "docs"].

(** Lines 28-131: rules 1 to 15. *)
Definition rules_1_15 (e : edit) : edit :=
  let e := replace_rule (lit "/api/packages/") (lit "/api-docs/packages/") e in
  let e := replace_rule (lit "use-cases/batch-processing.md")
             (lit "use-cases/11-batch-processing.md") e in
  let e := sub_rule pkg_pattern pkg_template e in
  let e := sub_rule examples_pattern
             [TLit (lit GITHUB_BLOB ++ lit "examples/"); TGrp 1; T ")"] e in
  let e := sub_rule specs_pattern
             [TLit (lit GITHUB_BLOB ++ lit "specs/"); TGrp 1; T ")"] e in
  let e := sub_rule config_providers_pattern
             [T "["; TGrp 1; T "](../guides/implementing-providers.md)"] e in
  let e := sub_rule event_driven_pattern
             [T "["; TGrp 1; T "](./09-multi-model-llm-gateway.md)"] e in
  let e := sub_rule distributed_pattern
             [T "["; TGrp 1; T "](./07-distributed-workflow-orchestration.md)"] e in
  let e := sub_rule readme_pattern [TGrp 1] e in
  let e := sub_rule guides_config_pattern
             [T "["; TGrp 1; T "](../guides/implementing-providers.md)"] e in
  let e := sub_rule voice_s2s_pattern
             [T "](../../api-docs/packages/voice/session.md)"] e in
  let e := fold_left (fun e pkg => sub_rule (missing_api_pattern pkg) [TGrp 1] e)
             missing_api_docs e in
  let e := sub_rule tutorial_pattern
             [T "](../getting-started/04-working-with-tools.md)"] e in
  let e := sub_rule providers_pattern
             [T "["; TGrp 1; T "](../guides/rag-multimodal.md)"] e in
  let e := sub_rule tutorials_pattern [T "](../../tutorials/"; TGrp 1; T ")"] e in
  let e := sub_rule server_pattern [T "](../../api-docs/packages/server.md)"] e in
  e.

(** Lines 143-247: rules 17 to 31. *)
Definition rules_17_31 (rel_path : path) (e : edit) : edit :=
  let e := fold_left (fun e doc => sub_rule (parent_doc_pattern doc) (doc_template doc) e)
             top_level_docs e in
  let e := fold_left (fun e doc => sub_rule (grandparent_doc_pattern doc) (doc_template doc) e)
             top_level_docs e in
  let e := sub_rule (rest_of_link "](../examples/") (tree_template "examples/") e in
  let e := sub_rule (rest_of_link "](../../examples/") (tree_template "examples/") e in
  let e := sub_rule (rest_of_link "](../../pkg/") (tree_template "pkg/") e in
  let e := sub_rule (rest_of_link "](../../../pkg/") (tree_template "pkg/") e in
  let e := sub_rule website_api_pattern [T "](./api-reference.md)"] e in
  let e := sub_rule (L "](./patterns/)") [T "](./patterns/README.md)"] e in
  let e := sub_rule (L "](./guides/)") [T "](./guides/llm-providers.md)"] e in
  let e := sub_rule providers_dir_pattern (tree_template "pkg/") e in
  let e := sub_rule test_issues_pattern [TGrp 1] e in
  let e := sub_rule integrations_pattern [T "](../integrations/"; TGrp 1; T ")"] e in
  let e := sub_rule (L "](../voice-providers.md)")
             [T "](../../guides/voice-providers.md)"] e in
  let e := examples_rule rel_path e in
  let e := sub_rule (rest_of_link "](../../../examples/") (tree_template "examples/") e in
  e.

(** What the script prints. *)
Inductive message :=
| ErrorReading (file_path : path) (e : exn)
| Fixed (file_path : path) (local_changes : nat).

(** The state [fix_file] acts on: the files, the two module-level
    counters and the standard output. *)
Record world : Type := {
  files : filesystem;
  changes_made : nat;
  files_modified : list str;
  stdout : list message
}.

(** [files_modified.add(x)] on a set kept as a duplicate-free list. *)
Definition set_add (x : str) (s : list str) : list str :=
  if existsb (str_eqb x) s then s else s ++ [x].

Definition print (m : message) (w : world) : world :=
  {| files := files w; changes_made := changes_made w;
     files_modified := files_modified w; stdout := stdout w ++ [m] |}.

Definition fix_file (w : world) (file_path : path) : outcome (nat * world) :=
  match read_text (files w) file_path with
  | Raise e => Ret (0, print (ErrorReading file_path e) w)
  | OutOfFuel => OutOfFuel
  | Ret content =>
      let original := content in
      let local_changes := 0 in
      let e := rules_1_15 (content, local_changes) in
      rel_path <- relative_to file_path DOCS_DIR ;;
      let depth := (Z.of_nat (length rel_path) - 1)%Z in
      let e := integrations_depth_rule rel_path depth e in
      let '(content, local_changes) := rules_17_31 rel_path e in
      if negb (str_eqb content original) then
        let w := {| files := write_text (files w) file_path content;
                    changes_made := changes_made w + local_changes;
                    files_modified := set_add (str_of_path file_path) (files_modified w);
                    stdout := stdout w |} in
        Ret (local_changes, print (Fixed file_path local_changes) w)
      else Ret (0, w)
  end.

(** The loop of [main] over the sorted list of markdown files. *)
Fixpoint fix_all (md_files : list path) (w : world) : outcome world :=
  match md_files with
  | [] => Ret w
  | md_file :: md_files =>
      '(_, w) <- fix_file w md_file ;;
      fix_all md_files w
  end.

End Script.

(** *** Vocabulary for the /pkg/ rule

    A link [](/pkg/<path>)], the GitHub link the rule makes of it, texts
    in which [](/pkg/] occurs nowhere, and texts made of such links with
    arbitrary segments between them. *)
Definition PKG : str := lit "](/pkg/".

Definition pkg_link (p : str) : str := PKG ++ p ++ lit ")".

Definition github_link (p : str) : str :=
  (lit GITHUB_BLOB ++ lit "pkg/") ++ p ++ lit ")".

Fixpoint no_pkg_link (s : str) : bool :=
  match s with
  | [] => true
  | _ :: t => negb (startswith s PKG) && no_pkg_link t
  end.

Definition no_bracket (s : str) : bool := forallb (fun x => negb (x =? 93)%N) s.

(** A text is empty or starts with a closing bracket. *)
Definition bracket_first (r : str) : Prop := r = [] \/ exists t, r = 93%N :: t.

(** A path the pattern captures whole and that hides no further link: not
    empty, no closing parenthesis, no closing bracket. *)
Definition plain_path (p : str) : Prop :=
  p <> [] /\ ~ In 41%N p /\ ~ In 93%N p.

(** A link with a plain path followed by a segment without [](/pkg/]. *)
Definition plain_item (l : str * str) : Prop :=
  plain_path (fst l) /\ no_pkg_link (snd l) = true.

(** [link p1 ++ s1 ++ link p2 ++ s2 ++ ...] *)
Fixpoint links_text (link : str -> str) (items : list (str * str)) : str :=
  match items with
  | [] => []
  | (p, s) :: more => link p ++ s ++ links_text link more
  end.

(** *** Example inputs *)

(** A link whose target swallows the start of a second link. *)
Definition nested_links : str := lit "](/pkg/a](/pkg/b)".
Definition nested_links_once : str :=
  lit "](https://github.com/lookatitude/beluga-ai/blob/main/pkg/a](/pkg/b)".
Definition nested_links_twice : str :=
  lit "](https://github.com/lookatitude/beluga-ai/blob/main/pkg/a](https://github.com/lookatitude/beluga-ai/blob/main/pkg/b)".

(** Two links in running text. *)
Definition two_links : list (str * str) :=
  [(lit "foo/bar.go", lit " and [y"); (lit "z.go", lit " and [w](other.md)")].

(** A documentation tree with one file that cannot be read. *)
Definition example_root : path := [lit "repo"].
Definition broken_file : path := [lit "repo"; lit "docs"; lit "a.md"].
Definition good_file : path := [lit "repo"; lit "docs"; lit "b.md"].
Definition example_files : filesystem :=
  fun p =>
    if path_eqb p broken_file then Some (Unreadable OSError)
    else if path_eqb p good_file then Some (Text (lit "see [x](/pkg/foo/bar.go)"))
    else None.
Definition example_world : world :=
  {| files := example_files; changes_made := 0; files_modified := [];
     stdout := [] |}.

End FixDocLinks.

(** ** Vocabulary for further properties *)
Module Vocabulary.
Import Py Re FixMdx.

(** A syntactic test that every match of [r] contains the character [c]. *)
Fixpoint needs (c : char) (r : regex) : bool :=
  match r with
  | Chr x => (x =? c)%N
  | Cat r1 r2 => needs c r1 || needs c r2
  | Alt r1 r2 => needs c r1 && needs c r2
  | Grp _ r1 => needs c r1
  | _ => false
  end.

(** The characters a text must contain for one of the passes of
    [fix_mdx.py] to touch it. *)
Definition AMP : char := 38%N.
Definition LT : char := 60%N.
Definition LBRACE : char := 123%N.
Definition RBRACE : char := 125%N.
Definition BACKTICK : char := 96%N.

Definition SLASH : char := 47%N.

(** A text none of the passes of [fix_mdx.py] has anything to do with. *)
Definition plain_text (content : str) : Prop :=
  ~ In AMP content /\ ~ In LT content /\ ~ In LBRACE content /\
  ~ In RBRACE content /\ ~ In BACKTICK content.

(** A blank line, and a line the orphan loop may append. *)
Definition blank (l : str) : Prop := strip l = [].

Definition orphan_ok (l : str) : Prop :=
  startswith (strip l) (lit "#") = false /\
  is_fence_line l = false /\
  is_markdown_text l = false.

(** The candidate closing fence of line 131: a fence-marker line with
    nothing after the marker. *)
Definition bare_fence (l : str) : Prop :=
  is_fence_line l = true /\ strip (slice_from (strip l) 3) = [].

(** [fixes lines out]: [out] is [lines] in which, at some bare fences, the
    fence line and at most one blank line after it are replaced by the
    orphan run that follows and a fresh fence marker; every other line is
    copied. *)
Inductive fixes : list str -> list str -> Prop :=
| fixes_done : fixes [] []
| fixes_emit (l : str) (ls out : list str) :
    fixes ls out -> fixes (l :: ls) (l :: out)
| fixes_merge (fence : str) (blanks orphans ls out : list str) :
    bare_fence fence ->
    Forall blank blanks -> length blanks <= 1 ->
    orphans <> [] -> Forall orphan_ok orphans ->
    fixes ls out ->
    fixes (fence :: blanks ++ orphans ++ ls) (orphans ++ FENCE :: out).

(** What may stand between the fences of an empty code block: nothing, or
    white space that ends with a newline. *)
Definition blank_lines (b : str) : Prop :=
  b = [] \/ exists q, forallb isspace q = true /\ b = q ++ [NL].

(** An opening fence with a language tag (line 124). *)
Definition opens_block (l : str) : Prop :=
  is_fence_line l = true /\
  has_language (strip (slice_from (strip l) 3)) = Ret true.

(** Where the orphan loop stops: at the end of the text, or at a line it
    may not append. *)
Definition stops_run (tail : list str) : Prop :=
  match tail with
  | [] => True
  | t :: _ => ~ orphan_ok t
  end.

(** A fragmented block: an opening fence, the body, a closing fence, at
    most one blank line, the orphan lines, the rest of the text; and the
    same text with the orphans inside the block. *)
Definition fragmented (opener : str) (body : list str) (fence : str)
  (gap orphans tail : list str) : list str :=
  opener :: body ++ fence :: gap ++ orphans ++ tail.

Definition repaired (opener : str) (body orphans tail : list str) : list str :=
  opener :: body ++ orphans ++ FENCE :: tail.

(** The tests of the orphan loop as booleans: a line it may append (not a
    heading, not a fence-marker line, not markdown text, hence not blank),
    and a line that starts a run (it may be appended and passes the
    code-continuation heuristic). *)
Definition may_append (l : str) : bool :=
  negb (startswith (strip l) (lit "#")) && negb (is_fence_line l)
  && negb (is_markdown_text l).

Definition starts_run (l : str) : bool :=
  may_append l && is_code_continuation l [].




(** No run of three backticks begins anywhere in the text. *)
Fixpoint no_fence_text (l : str) : bool :=
  match l with
  | [] => true
  | _ :: t => negb (startswith l FENCE) && no_fence_text t
  end.

(** A tidy line holds no run of three backticks, or it is white space, a
    fence marker and a tag in which no further run of three backticks
    begins; a tidy text is made of tidy lines. *)
Definition tidy_line (l : str) : bool :=
  no_fence_text l
  || (startswith (lstrip l) FENCE && no_fence_text (skipn 1 (lstrip l))).

Definition tidy (lines : list str) : bool := forallb tidy_line lines.

(** The text of some lines, each with its newline. *)
Definition lines_text (ls : list str) : str := flat_map (fun l => l ++ [NL]) ls.

(** What follows the first line in the text of some lines. *)
Definition rest_text (rest : list str) : str :=
  match rest with
  | [] => []
  | _ :: _ => NL :: join [NL] rest
  end.

(** [lines'] is what one [re.sub] with the empty template, arriving after
    [before], makes of the text of [lines]: tidy lines again, with as many
    fence-marker lines up to an even number. *)
Definition sub_lines (p : regex) (before : str) (lines lines' : list str) : Prop :=
  lines' <> [] /\ tidy lines' = true /\ Forall (fun l => ~ In NL l) lines' /\
  sub_tpl p [] before (join [NL] lines) 0 = join [NL] lines' /\
  Nat.even (fences lines') = Nat.even (fences lines).

(** A line that is neither blank nor a fence-marker line. *)
Definition content_line (l : str) : bool :=
  truthy (strip l) && negb (is_fence_line l).

End Vocabulary.

(** * Properties *)

(** ** Facts about the runtime *)
Module PyFacts.
Import Py.

Lemma str_eqb_eq (a b : str) : str_eqb a b = true <-> a = b.
Proof.
  unfold str_eqb. destruct (list_eq_dec N.eq_dec a b); split; congruence.
Qed.

Lemma str_eqb_refl (a : str) : str_eqb a a = true.
Proof. now apply str_eqb_eq. Qed.

Lemma truthy_false {A} (s : list A) : truthy s = false <-> s = [].
Proof. destruct s; simpl; split; congruence. Qed.

Lemma truthy_true {A} (s : list A) : truthy s = true <-> s <> [].
Proof. destruct s; simpl; split; congruence. Qed.

Lemma getitem_nth {A} (l : list A) (i : nat) (x : A) :
  nth_error l i = Some x -> getitem l i = Ret x.
Proof. unfold getitem. now intros ->. Qed.

Lemma nth_error_lt {A} (l : list A) (i : nat) :
  i < length l -> exists x, nth_error l i = Some x.
Proof.
  intros H. destruct (nth_error l i) eqn:E; eauto.
  apply nth_error_None in E. lia.
Qed.

Lemma skipn_nth_error {A} (l : list A) (i : nat) (x : A) :
  nth_error l i = Some x -> skipn i l = x :: skipn (i + 1) l.
Proof.
  revert i. induction l as [|a l IH]; intros [|i] H; simpl in *; try discriminate.
  - now inversion H.
  - now apply IH.
Qed.

(** [split] and [join] are inverse to each other on the text side. *)
Lemma split_not_nil (sep : char) (s : str) : split sep s <> [].
Proof.
  induction s as [|c t IH]; simpl; [discriminate|].
  destruct (c =? sep)%N; [discriminate|].
  destruct (split sep t); [contradiction|discriminate].
Qed.

Lemma join_split (sep : char) (s : str) : join [sep] (split sep s) = s.
Proof.
  induction s as [|c t IH]; simpl; [reflexivity|].
  destruct (c =? sep)%N eqn:E.
  - apply N.eqb_eq in E. subst c.
    pose proof (split_not_nil sep t) as Hn.
    destruct (split sep t) as [|l ls]; [contradiction|].
    simpl in *. now rewrite IH.
  - pose proof (split_not_nil sep t) as Hn.
    destruct (split sep t) as [|l ls]; [contradiction|].
    destruct ls; simpl in *; now rewrite <- IH.
Qed.

(** Stripping leaves no whitespace at the front. *)
Lemma lstrip_head (s : str) (c : char) (t : str) :
  lstrip s = c :: t -> isspace c = false.
Proof.
  induction s as [|a s IH]; simpl; [discriminate|].
  destruct (isspace a) eqn:E; [exact IH|].
  intros H. inversion H. now subst.
Qed.

Lemma lstrip_app_nonspace (s : str) (c : char) (t : str) :
  isspace c = false -> exists u, lstrip (s ++ c :: t) = u ++ c :: t.
Proof.
  intros Hc. induction s as [|a s IH]; simpl.
  - rewrite Hc. now exists [].
  - destruct (isspace a); [exact IH|]. now exists (a :: s).
Qed.

Lemma rstrip_head (c : char) (t : str) :
  isspace c = false -> exists u, rstrip (c :: t) = c :: u.
Proof.
  intros Hc. unfold rstrip. simpl.
  destruct (lstrip_app_nonspace (rev t) c [] Hc) as [u Hu].
  rewrite Hu, rev_app_distr. simpl. now exists (rev u).
Qed.

Lemma strip_head (s : str) (c : char) (t : str) :
  strip s = c :: t -> isspace c = false.
Proof.
  unfold strip. destruct (lstrip s) as [|a u] eqn:E.
  - discriminate.
  - pose proof (lstrip_head _ _ _ E) as Ha.
    destruct (rstrip_head a u Ha) as [v Hv]. rewrite Hv.
    intros H. inversion H. now subst.
Qed.

Lemma split_ws_go_cur (s : str) (cur : list char) :
  cur <> [] -> split_ws_go s cur <> [].
Proof.
  revert cur. induction s as [|a s IH]; intros cur Hc; simpl.
  - destruct cur; [contradiction|discriminate].
  - destruct (isspace a).
    + destruct cur; [contradiction|discriminate].
    + apply IH. discriminate.
Qed.

Lemma split_ws_head (c : char) (t : str) :
  isspace c = false -> split_ws (c :: t) <> [].
Proof.
  intros Hc. unfold split_ws. simpl. rewrite Hc.
  apply split_ws_go_cur. discriminate.
Qed.

End PyFacts.

(** ** The loops of the fence scanner *)
Module ScannerFacts.
Import Py PyFacts Re FixMdx.
Local Open Scope py_scope.

Lemma slice_nil {A} (l : list A) (a : nat) : slice l a a = [].
Proof. unfold slice. now rewrite Nat.sub_diag. Qed.

Lemma slice_cons {A} (l : list A) (a b : nat) (x : A) :
  nth_error l a = Some x -> a < b -> slice l a b = x :: slice l (a + 1) b.
Proof.
  intros Hx Hab. unfold slice. rewrite (skipn_nth_error _ _ _ Hx).
  replace (b - a) with (S (b - (a + 1))) by lia. reflexivity.
Qed.

Lemma skipn_slice {A} (l : list A) (a b : nat) :
  a <= b -> skipn a l = slice l a b ++ skipn b l.
Proof.
  intros Hab. unfold slice.
  replace b with ((b - a) + a) at 2 by lia.
  rewrite <- skipn_skipn. now rewrite firstn_skipn.
Qed.

Lemma firstn_plus {A} (n m : nat) (l : list A) :
  firstn (n + m) l = firstn n l ++ firstn m (skipn n l).
Proof.
  revert l. induction n as [|n IH]; intros l; [reflexivity|].
  destruct l as [|a l]; simpl.
  - now rewrite firstn_nil.
  - now rewrite IH.
Qed.

Lemma skipn_slice_slice {A} (l : list A) (a b c : nat) :
  a <= b -> b <= c -> slice l a c = slice l a b ++ slice l b c.
Proof.
  intros Hab Hbc. unfold slice.
  replace (c - a) with ((b - a) + (c - b)) by lia.
  rewrite firstn_plus. f_equal. rewrite skipn_skipn.
  now replace (b - a + a) with b by lia.
Qed.

Lemma in_firstn {A} (x : A) (n : nat) (l : list A) : In x (firstn n l) -> In x l.
Proof.
  revert l. induction n as [|n IH]; intros [|a l]; simpl; try tauto.
  intros [H|H]; [now left|right; now apply IH].
Qed.

Lemma in_skipn {A} (x : A) (n : nat) (l : list A) : In x (skipn n l) -> In x l.
Proof.
  revert l. induction n as [|n IH]; intros [|a l]; simpl; try tauto.
  intros H. right. now apply IH.
Qed.

Lemma incl_slice {A} (l : list A) (a b : nat) : incl (slice l a b) l.
Proof.
  unfold slice. intros x Hx.
  apply in_firstn in Hx. now apply in_skipn in Hx.
Qed.

Lemma blank_is_no_fence (l : str) : strip l = [] -> is_fence_line l = false.
Proof. unfold is_fence_line. now intros ->. Qed.

Lemma no_fence_cons (l : str) (ls : list str) :
  is_fence_line l = false -> no_fence ls -> no_fence (l :: ls).
Proof. unfold no_fence. simpl. now intros -> ->. Qed.

Lemma no_fence_app (a b : list str) : no_fence a -> no_fence b -> no_fence (a ++ b).
Proof. unfold no_fence. rewrite filter_app. now intros -> ->. Qed.

(** The loop counting blank lines stops at some [j'] after passing over
    blank lines only, whatever fuel above the number of remaining lines it
    is given. *)
Lemma blank_loop_spec (lines : list str) :
  forall m j blank_count,
    length lines - j = m -> j <= length lines ->
    exists j',
      j <= j' /\ j' <= length lines /\ no_fence (slice lines j j') /\
      forall fuel, length lines - j < fuel ->
        blank_loop fuel lines j blank_count = Ret (j', blank_count + (j' - j)).
Proof.
  induction m as [|m IH]; intros j bc Hm Hj.
  - exists j. repeat split; try lia.
    + now rewrite slice_nil.
    + intros [|fuel] Hf; [lia|]. cbn [blank_loop].
      replace (Nat.ltb j (length lines)) with false
        by (symmetry; apply Nat.ltb_ge; lia).
      now rewrite Nat.sub_diag, Nat.add_0_r.
  - assert (Hlt : j < length lines) by lia.
    destruct (nth_error_lt _ _ Hlt) as [l Hl].
    destruct (truthy (strip l)) eqn:Hs.
    + exists j. repeat split; try lia.
      * now rewrite slice_nil.
      * intros [|fuel] Hf; [lia|]. cbn [blank_loop].
        replace (Nat.ltb j (length lines)) with true
          by (symmetry; apply Nat.ltb_lt; lia).
        rewrite (getitem_nth _ _ _ Hl). cbn [bind]. rewrite Hs. cbn [negb].
        now rewrite Nat.sub_diag, Nat.add_0_r.
    + destruct (IH (j + 1) (bc + 1)) as (j' & H1 & H2 & H3 & H4); try lia.
      exists j'. repeat split; try lia.
      * rewrite (slice_cons _ _ _ _ Hl) by lia.
        apply no_fence_cons; [|exact H3].
        apply blank_is_no_fence. now apply truthy_false.
      * intros [|fuel] Hf; [lia|]. cbn [blank_loop].
        replace (Nat.ltb j (length lines)) with true
          by (symmetry; apply Nat.ltb_lt; lia).
        rewrite (getitem_nth _ _ _ Hl). cbn [bind]. rewrite Hs. cbn [negb].
        rewrite H4 by lia. do 2 f_equal. lia.
Qed.

(** The orphan loop stops at some [j'] having appended the lines it passed
    over, none of which is a fence-marker line. *)
Lemma orphan_loop_spec (lines : list str) :
  forall m j orphan_code,
    length lines - j = m -> j <= length lines ->
    exists j',
      j <= j' /\ j' <= length lines /\ no_fence (slice lines j j') /\
      forall fuel, length lines - j < fuel ->
        orphan_loop fuel lines j orphan_code
        = Ret (j', orphan_code ++ slice lines j j').
Proof.
  induction m as [|m IH]; intros j oc Hm Hj.
  - exists j. repeat split; try lia.
    + now rewrite slice_nil.
    + intros [|fuel] Hf; [lia|]. cbn [orphan_loop].
      replace (Nat.ltb j (length lines)) with false
        by (symmetry; apply Nat.ltb_ge; lia).
      now rewrite slice_nil, app_nil_r.
  - assert (Hlt : j < length lines) by lia.
    destruct (nth_error_lt _ _ Hlt) as [l Hl].
    assert (Hstop :
      (forall fuel, orphan_loop (S fuel) lines j oc = Ret (j, oc)) ->
      exists j',
        j <= j' /\ j' <= length lines /\ no_fence (slice lines j j') /\
        forall fuel, length lines - j < fuel ->
          orphan_loop fuel lines j oc = Ret (j', oc ++ slice lines j j')).
    { intros H0. exists j. repeat split; try lia.
      - now rewrite slice_nil.
      - intros [|fuel] Hf; [lia|]. now rewrite slice_nil, app_nil_r. }
    assert (Hgo :
      is_fence_line l = false ->
      (forall fuel, orphan_loop (S fuel) lines j oc
                    = orphan_loop fuel lines (j + 1) (oc ++ [l])) ->
      exists j',
        j <= j' /\ j' <= length lines /\ no_fence (slice lines j j') /\
        forall fuel, length lines - j < fuel ->
          orphan_loop fuel lines j oc = Ret (j', oc ++ slice lines j j')).
    { intros Hnf H0.
      destruct (IH (j + 1) (oc ++ [l])) as (j' & H1 & H2 & H3 & H4); try lia.
      exists j'. repeat split; try lia.
      - rewrite (slice_cons _ _ _ _ Hl) by lia. now apply no_fence_cons.
      - intros [|fuel] Hf; [lia|]. rewrite H0, H4 by lia.
        rewrite (slice_cons _ _ _ _ Hl) by lia.
        now rewrite <- app_assoc. }
    assert (Hltb : Nat.ltb j (length lines) = true) by (apply Nat.ltb_lt; lia).
    destruct (startswith (strip l) (lit "#") || startswith (strip l) FENCE) eqn:E1.
    { apply Hstop. intros fuel. cbn [orphan_loop].
      rewrite Hltb, (getitem_nth _ _ _ Hl). cbn [bind]. now rewrite E1. }
    apply orb_false_elim in E1 as E1'. destruct E1' as [_ Hnf].
    destruct (is_markdown_text l) eqn:E2.
    { apply Hstop. intros fuel. cbn [orphan_loop].
      rewrite Hltb, (getitem_nth _ _ _ Hl). cbn [bind]. now rewrite E1, E2. }
    destruct (is_code_continuation l oc) eqn:E3.
    { apply Hgo; [exact Hnf|]. intros fuel. cbn [orphan_loop].
      rewrite Hltb, (getitem_nth _ _ _ Hl). cbn [bind]. now rewrite E1, E2, E3. }
    destruct (truthy oc && truthy (strip l)) eqn:E4.
    { apply Hgo; [exact Hnf|]. intros fuel. cbn [orphan_loop].
      rewrite Hltb, (getitem_nth _ _ _ Hl). cbn [bind]. now rewrite E1, E2, E3, E4. }
    apply Hstop. intros fuel. cbn [orphan_loop].
    rewrite Hltb, (getitem_nth _ _ _ Hl). cbn [bind]. now rewrite E1, E2, E3, E4.
Qed.

(** The lookahead at a closing fence at index [i]. *)
Lemma lookahead_spec (lines : list str) (i : nat) :
  i < length lines ->
  exists j orphan_code,
    i + 1 <= j /\ j <= length lines /\
    no_fence (slice lines (i + 1) j) /\ no_fence orphan_code /\
    incl orphan_code lines /\
    forall fuel, length lines - (i + 1) < fuel ->
      lookahead fuel lines i = Ret (j, orphan_code).
Proof.
  intros Hi.
  destruct (blank_loop_spec lines _ (i + 1) 0 eq_refl) as (j & H1 & H2 & H3 & H4);
    [lia|].
  destruct (Nat.leb (0 + (j - (i + 1))) 1 && Nat.ltb j (length lines)) eqn:E.
  - destruct (orphan_loop_spec lines _ j [] eq_refl H2) as (j' & G1 & G2 & G3 & G4).
    exists j', (slice lines j j').
    refine (conj _ (conj _ (conj _ (conj _ (conj _ _))))); try lia; try assumption.
    + rewrite (skipn_slice_slice lines (i + 1) j j') by lia.
      now apply no_fence_app.
    + apply incl_slice.
    + intros fuel Hf. unfold lookahead. rewrite H4 by lia. cbn [bind].
      rewrite E. rewrite G4 by lia. reflexivity.
  - exists j, [].
    refine (conj _ (conj _ (conj _ (conj _ (conj _ _))))); try lia; try assumption.
    + reflexivity.
    + apply incl_nil_l.
    + intros fuel Hf. unfold lookahead. rewrite H4 by lia. cbn [bind].
      now rewrite E.
Qed.

Lemma has_language_ret (rest : str) :
  exists b, has_language rest = Ret b /\
            (b = true -> exists c t, rest = c :: t).
Proof.
  unfold has_language. destruct rest as [|c t]; cbn.
  - exists false. split; [reflexivity|discriminate].
  - exists (isalpha c). split; [reflexivity|]. intros _. now exists c, t.
Qed.

(** The first word of a non-empty stripped string exists. *)
Lemma first_word (s : str) :
  strip s <> [] -> exists w, getitem (split_ws (strip s)) 0 = Ret w.
Proof.
  intros Hs. destruct (strip s) as [|c t] eqn:E; [contradiction|].
  pose proof (strip_head _ _ _ E) as Hc.
  pose proof (split_ws_head c t Hc) as Hw.
  destruct (split_ws (c :: t)) as [|w ws]; [contradiction|].
  now exists w.
Qed.

Lemma fences_app (a b : list str) : fences (a ++ b) = fences a + fences b.
Proof. unfold fences. now rewrite filter_app, length_app. Qed.

Lemma fences_no_fence (ls : list str) : no_fence ls -> fences ls = 0.
Proof. unfold fences, no_fence. now intros ->. Qed.

Lemma fences_cons_fence (l : str) (ls : list str) :
  is_fence_line l = true -> fences (l :: ls) = S (fences ls).
Proof. unfold fences. simpl. now intros ->. Qed.

Lemma fences_FENCE : fences [FENCE] = 1.
Proof. reflexivity. Qed.

(** The main loop returns for every fuel above the number of remaining
    lines.  Its result has as many fence-marker lines as what was emitted
    before plus what was still to be read, and it is the input unchanged
    when no orphan run was merged. *)
Lemma main_loop_spec (lines : list str) :
  forall m i in_code_block code_lang result merges,
    length lines - i <= m -> i <= length lines ->
    exists result' merges',
      fences result' = fences result + fences (skipn i lines) /\
      merges <= merges' /\
      (merges' = merges -> result' = result ++ skipn i lines) /\
      incl result' (FENCE :: result ++ lines) /\
      forall fuel, length lines - i < fuel ->
        main_loop fuel lines i in_code_block code_lang result merges
        = Ret (result', merges').
Proof.
  induction m as [|m IH]; intros i icb cl result merges Hm Hi.
  - exists result, merges. rewrite skipn_all2 by lia.
    refine (conj _ (conj _ (conj _ (conj _ _)))); try lia.
    + unfold fences at 3. simpl. lia.
    + intros _. now rewrite app_nil_r.
    + intros x Hx. right. apply in_or_app. now left.
    + intros [|fuel] Hf; [lia|]. cbn [main_loop].
      now replace (Nat.ltb i (length lines)) with false
        by (symmetry; apply Nat.ltb_ge; lia).
  - destruct (Nat.eq_dec i (length lines)) as [->|Hne].
    { apply IH; lia. }
    assert (Hlt : i < length lines) by lia.
    assert (Hltb : Nat.ltb i (length lines) = true) by (apply Nat.ltb_lt; lia).
    destruct (nth_error_lt _ _ Hlt) as [l Hl].
    pose proof (skipn_nth_error _ _ _ Hl) as Hsk.
    (* every branch that emits the line and moves to the next one *)
    assert (Hemit : forall icb' cl',
      (forall fuel, length lines - i < S fuel ->
         main_loop (S fuel) lines i icb cl result merges
         = main_loop fuel lines (i + 1) icb' cl' (result ++ [l]) merges) ->
      exists result' merges',
        fences result' = fences result + fences (skipn i lines) /\
        merges <= merges' /\
        (merges' = merges -> result' = result ++ skipn i lines) /\
        incl result' (FENCE :: result ++ lines) /\
        forall fuel, length lines - i < fuel ->
          main_loop fuel lines i icb cl result merges = Ret (result', merges')).
    { intros icb' cl' Hstep.
      destruct (IH (i + 1) icb' cl' (result ++ [l]) merges)
        as (r' & m' & P1 & P2 & P3 & P5 & P4); try lia.
      exists r', m'. refine (conj _ (conj _ (conj _ (conj _ _)))); try lia.
      - rewrite P1, Hsk, fences_app.
        change (l :: skipn (i + 1) lines) with ([l] ++ skipn (i + 1) lines).
        rewrite (fences_app [l]). lia.
      - intros Hm'. rewrite (P3 Hm'), Hsk, <- app_assoc. reflexivity.
      - intros x Hx. apply P5 in Hx. apply nth_error_In in Hl.
        simpl in *. rewrite !in_app_iff in *. simpl in *.
        intuition (subst; auto).
      - intros [|fuel] Hf; [lia|]. rewrite Hstep by lia. apply P4. lia. }
    destruct (startswith (strip l) FENCE) eqn:Hfence.
    2:{ apply (Hemit icb cl). intros fuel Hf. cbn [main_loop].
        rewrite Hltb, (getitem_nth _ _ _ Hl). cbn [bind]. now rewrite Hfence. }
    destruct (has_language_ret (strip (slice_from (strip l) 3)))
      as (b & Hlang & Hb).
    destruct b.
    { destruct (Hb eq_refl) as (c & t & Hrest).
      destruct (first_word (slice_from (strip l) 3)) as [w Hw].
      { rewrite Hrest. discriminate. }
      apply (Hemit true (Some w)). intros fuel Hf. cbn [main_loop].
      rewrite Hltb, (getitem_nth _ _ _ Hl). cbn [bind].
      rewrite Hfence, Hlang. cbn [bind]. rewrite Hw. reflexivity. }
    destruct (str_eqb (strip (slice_from (strip l) 3)) [] && icb) eqn:Hclose.
    2:{ destruct icb.
        - apply (Hemit false None). intros fuel Hf. cbn [main_loop].
          rewrite Hltb, (getitem_nth _ _ _ Hl). cbn [bind].
          rewrite Hfence, Hlang. cbn [bind]. now rewrite Hclose.
        - apply (Hemit true cl). intros fuel Hf. cbn [main_loop].
          rewrite Hltb, (getitem_nth _ _ _ Hl). cbn [bind].
          rewrite Hfence, Hlang. cbn [bind]. now rewrite Hclose. }
    destruct (lookahead_spec lines i Hlt) as (j & oc & L1 & L2 & L3 & L4 & L6 & L5).
    destruct (truthy oc) eqn:Hoc.
    2:{ apply (Hemit false None). intros fuel Hf. cbn [main_loop].
        rewrite Hltb, (getitem_nth _ _ _ Hl). cbn [bind].
        rewrite Hfence, Hlang. cbn [bind]. rewrite Hclose.
        rewrite L5 by lia. cbn [bind]. now rewrite Hoc. }
    destruct (IH j false None ((result ++ oc) ++ [FENCE]) (merges + 1))
      as (r' & m' & P1 & P2 & P3 & P5 & P4); try lia.
    exists r', m'. refine (conj _ (conj _ (conj _ (conj _ _)))); try lia.
    + rewrite P1, Hsk, !fences_app, (fences_no_fence oc L4), fences_FENCE.
      rewrite (fences_cons_fence l) by exact Hfence.
      rewrite (skipn_slice lines (i + 1) j) by lia.
      rewrite fences_app, (fences_no_fence _ L3). lia.
    + intros x Hx. apply P5 in Hx.
      simpl in *. rewrite !in_app_iff in *. simpl in *.
      destruct Hx as [Hx|[[[Hx|Hx]|[Hx|[]]]|Hx]]; auto.
    + intros [|fuel] Hf; [lia|]. cbn [main_loop].
      rewrite Hltb, (getitem_nth _ _ _ Hl). cbn [bind].
      rewrite Hfence, Hlang. cbn [bind]. rewrite Hclose.
      rewrite L5 by lia. cbn [bind]. rewrite Hoc. apply P4. lia.
Qed.

End ScannerFacts.

(** ** The fence scanner as a whole *)
Module ScannerProps.
Import Py PyFacts Re FixMdx ScannerFacts.
Local Open Scope py_scope.

Lemma split_no_sep (sep : char) (x : str) : ~ In sep x -> split sep x = [x].
Proof.
  induction x as [|c x IH]; intros H; simpl; [reflexivity|].
  destruct (c =? sep)%N eqn:E.
  - apply N.eqb_eq in E. subst. exfalso. apply H. now left.
  - rewrite IH; [reflexivity|]. intros G. apply H. now right.
Qed.

Lemma split_app_sep (sep : char) (x r : str) :
  ~ In sep x -> split sep (x ++ sep :: r) = x :: split sep r.
Proof.
  induction x as [|c x IH]; intros H; simpl.
  - now rewrite N.eqb_refl.
  - destruct (c =? sep)%N eqn:E.
    + apply N.eqb_eq in E. subst. exfalso. apply H. now left.
    + rewrite IH; [reflexivity|]. intros G. apply H. now right.
Qed.

Lemma split_lines_no_sep (sep : char) (s : str) :
  Forall (fun l => ~ In sep l) (split sep s).
Proof.
  induction s as [|c t IH]; simpl.
  - constructor; [tauto|constructor].
  - destruct (c =? sep)%N eqn:E.
    + constructor; [tauto|exact IH].
    + destruct (split sep t) as [|l ls]; [repeat constructor; simpl|].
      * intros [H|[]]. subst. now rewrite N.eqb_refl in E.
      * inversion IH; subst. constructor; [|assumption].
        intros [H|H]; [subst; now rewrite N.eqb_refl in E|contradiction].
Qed.

Lemma split_join (sep : char) (ls : list str) :
  ls <> [] -> Forall (fun l => ~ In sep l) ls ->
  split sep (join [sep] ls) = ls.
Proof.
  induction ls as [|x ls IH]; intros Hne Hall; [contradiction|].
  inversion Hall as [|? ? Hx Hls]; subst.
  destruct ls as [|y ls].
  - simpl. now apply split_no_sep.
  - change (join [sep] (x :: y :: ls)) with (x ++ sep :: join [sep] (y :: ls)).
    rewrite split_app_sep by assumption.
    rewrite IH; [reflexivity|discriminate|assumption].
Qed.

Lemma fences_split_join (ls : list str) :
  Forall (fun l => ~ In NL l) ls ->
  fences (split NL (join [NL] ls)) = fences ls.
Proof.
  intros H. destruct ls as [|x ls]; [reflexivity|].
  rewrite split_join; [reflexivity|discriminate|assumption].
Qed.

(** What [scan] returns, for every fuel above the number of lines. *)
Lemma scan_spec (content : str) :
  exists result merges,
    fences result = fence_lines content /\
    (merges = 0 -> result = split NL content) /\
    Forall (fun l => ~ In NL l) result /\
    forall fuel, length (split NL content) < fuel ->
      scan fuel content = Ret (result, merges).
Proof.
  destruct (main_loop_spec (split NL content) _ 0 false None [] 0 (Nat.le_refl _))
    as (r & m & P1 & P2 & P3 & P5 & P4); [lia|].
  exists r, m. refine (conj _ (conj _ (conj _ _))).
  - rewrite P1. reflexivity.
  - intros ->. now rewrite P3.
  - apply Forall_forall. intros x Hx. apply P5 in Hx.
    destruct Hx as [<-|Hx].
    + vm_compute. intuition discriminate.
    + pose proof (split_lines_no_sep NL content) as Hs.
      rewrite Forall_forall in Hs. now apply Hs.
  - intros fuel Hf. unfold scan. apply P4. lia.
Qed.

End ScannerProps.

(** ** Claims about fix_mdx.py *)
Section FixMdxClaims.
Import Py PyFacts Re FixMdx ScannerFacts ScannerProps.
Local Open Scope py_scope.

(** C7: the fence scanner never raises.  For every input string the three
    loops terminate and [fix_fragmented_blocks] returns a string: the run
    with one unit of fuel per line plus one returns [out], and so does every
    run with more fuel; no [IndexError] is raised by [lines[i]], [lines[j]],
    [rest[0]] or [rest.split()[0]]. *)
Theorem scanner_never_raises (content : str) :
  exists out,
    fix_fragmented_blocks content = Ret out /\
    forall fuel, length (split NL content) < fuel ->
      fix_fragmented_blocks_fuel fuel content = Ret out.
Proof.
  destruct (scan_spec content) as (r & m & _ & _ & _ & H).
  exists (join [NL] r). split.
  - unfold fix_fragmented_blocks, fix_fragmented_blocks_fuel.
    rewrite H by lia. reflexivity.
  - intros fuel Hf. unfold fix_fragmented_blocks_fuel.
    rewrite H by lia. reflexivity.
Qed.


(** C3, as stated, fails: [unclosed_fence] contains a well-formed fence
    pair, and both the scanner and the whole pipeline return it unchanged,
    with its three fence-marker lines. *)
Lemma odd_fence_count_survives :
  has_fence_pair (split NL unclosed_fence) = true /\
  fix_fragmented_blocks unclosed_fence = Ret unclosed_fence /\
  (out <- fix_fragmented_blocks unclosed_fence ;; Ret (remove_empty_code_blocks out))
  = Ret unclosed_fence /\
  transform unclosed_fence = Ret unclosed_fence /\
  fence_lines unclosed_fence = 3 /\
  Nat.even (fence_lines unclosed_fence) = false.
Proof.
  repeat split; vm_compute; reflexivity.
Qed.

(** X28: the fence scanner neither adds nor removes fence-marker
    lines: for every input its output has exactly as many fence-marker
    lines as the input, so the number is even in the output exactly when it
    is even in the input. *)
Theorem scanner_preserves_fence_lines (content : str) :
  exists out,
    fix_fragmented_blocks content = Ret out /\
    fence_lines out = fence_lines content /\
    Nat.even (fence_lines out) = Nat.even (fence_lines content).
Proof.
  destruct (scan_spec content) as (r & m & P1 & _ & P3 & H).
  exists (join [NL] r).
  assert (E : fence_lines (join [NL] r) = fence_lines content).
  { rewrite <- P1. apply (fences_split_join r P3). }
  repeat split.
  - unfold fix_fragmented_blocks, fix_fragmented_blocks_fuel.
    rewrite H by lia. reflexivity.
  - exact E.
  - now rewrite E.
Qed.

(** C4: the orphan-merge scenario.  At the closing fence (line index 2)
    the lookahead skips the blank line and collects the closing brace as the
    orphan run; the scanner emits it before a fresh closing fence, and the
    output is one fence pair around the two lines [func f() {] and [}]. *)
Theorem orphan_merge_scenario :
  lookahead 6 (split NL orphan_scenario) 2 = Ret (5, [lit "}"]) /\
  fix_fragmented_blocks orphan_scenario = Ret orphan_scenario_fixed /\
  split NL orphan_scenario_fixed
  = [lit "```go"; lit "func f() {"; lit "}"; lit "```"] /\
  fence_lines orphan_scenario_fixed = 2.
Proof.
  repeat split; vm_compute; reflexivity.
Qed.

(** C5: orphan-run loosening.  Once the orphan run is not empty, a line
    that is not blank, starts neither a heading nor a fence and is not
    markdown text is appended to the run whatever the code-continuation
    heuristic says about it: the loop goes on with the line appended, and
    the run it finally returns extends [orphan_code] by that line. *)
Theorem orphan_run_loosening
  (lines : list str) (j : nat) (orphan_code : list str) (next_line : str) :
  nth_error lines j = Some next_line ->
  orphan_code <> [] ->
  strip next_line <> [] ->
  startswith (strip next_line) (lit "#") = false ->
  startswith (strip next_line) FENCE = false ->
  is_markdown_text next_line = false ->
  (forall fuel,
     orphan_loop (S fuel) lines j orphan_code
     = orphan_loop fuel lines (j + 1) (orphan_code ++ [next_line])) /\
  exists j' more,
    j < j' /\
    forall fuel, length lines - j < fuel ->
      orphan_loop fuel lines j orphan_code
      = Ret (j', orphan_code ++ next_line :: more).
Proof.
  intros Hl Hoc Hs Hh Hf Hmd.
  assert (Hlt : j < length lines).
  { apply nth_error_Some. rewrite Hl. discriminate. }
  assert (Hstep : forall fuel,
    orphan_loop (S fuel) lines j orphan_code
    = orphan_loop fuel lines (j + 1) (orphan_code ++ [next_line])).
  { intros fuel. cbn [orphan_loop].
    replace (Nat.ltb j (length lines)) with true
      by (symmetry; apply Nat.ltb_lt; lia).
    rewrite (getitem_nth _ _ _ Hl). cbn [bind].
    rewrite Hh, Hf, Hmd. cbn [orb].
    apply truthy_true in Hoc. apply truthy_true in Hs. rewrite Hoc, Hs.
    cbn [andb]. now destruct (is_code_continuation next_line orphan_code). }
  split; [exact Hstep|].
  destruct (orphan_loop_spec lines _ (j + 1) (orphan_code ++ [next_line]) eq_refl)
    as (j' & H1 & H2 & _ & H4); [lia|].
  exists j', (slice lines (j + 1) j'). split; [lia|].
  intros [|fuel] Hfu; [lia|]. rewrite Hstep, H4 by lia.
  now rewrite <- app_assoc.
Qed.

Lemma orphan_run_loosening_witness :
  is_code_continuation (lit "foo bar") [lit "}"] = false /\
  (forall fuel,
     orphan_loop (S fuel) loose_lines 4 [lit "}"]
     = orphan_loop fuel loose_lines (4 + 1) ([lit "}"] ++ [lit "foo bar"])) /\
  exists j' more,
    4 < j' /\
    forall fuel, length loose_lines - 4 < fuel ->
      orphan_loop fuel loose_lines 4 [lit "}"]
      = Ret (j', [lit "}"] ++ lit "foo bar" :: more).
Proof.
  split; [vm_compute; reflexivity|].
  apply (orphan_run_loosening loose_lines 4 [lit "}"] (lit "foo bar"));
    try (vm_compute; reflexivity); vm_compute; discriminate.
Defined.

End FixMdxClaims.

(** ** Frontmatter and entities *)
Module FrontmatterFacts.
Import Py PyFacts Re FixMdx.
Local Open Scope py_scope.

Lemma startswith_app (p x : str) : startswith (p ++ x) p = true.
Proof.
  induction p as [|c p IH]; simpl; [now destruct x|].
  now rewrite N.eqb_refl, IH.
Qed.

Lemma startswith_split (s p : str) :
  startswith s p = true -> exists t, s = p ++ t.
Proof.
  revert s. induction p as [|c p IH]; intros s H.
  - now exists s.
  - destruct s as [|a s]; simpl in H; [discriminate|].
    apply andb_prop in H as [H1 H2]. apply N.eqb_eq in H1. subst a.
    destruct (IH _ H2) as [t ->]. now exists t.
Qed.

(** Whether [a ++ x] starts with [p] is decided inside [a] when [a] is at
    least as long as [p]. *)
Lemma startswith_long (a x p : str) :
  length p <= length a -> startswith (a ++ x) p = startswith a p.
Proof.
  revert a. induction p as [|c p IH]; intros a H; [now destruct a, x|].
  destruct a as [|b a]; simpl in *; [lia|].
  rewrite IH by lia. reflexivity.
Qed.

Lemma find_from_unfold (s sub : str) (pos : Z) :
  find_from s sub pos
  = if startswith s sub then pos
    else match s with
         | [] => (-1)%Z
         | _ :: t => find_from t sub (pos + 1)%Z
         end.
Proof. now destruct s. Qed.

(** A successful [find] splits the text at the first occurrence, and the
    answer does not depend on what follows that occurrence. *)
Lemma find_from_found (sub : str) :
  forall s pos r,
    find_from s sub pos = r -> r <> (-1)%Z -> (0 <= pos)%Z ->
    exists A B,
      s = A ++ sub ++ B /\ r = (pos + Z.of_nat (length A))%Z /\
      forall X, find_from (A ++ sub ++ X) sub pos = r.
Proof.
  induction s as [|c t IH]; intros pos r Hr Hne Hpos;
    rewrite find_from_unfold in Hr.
  - destruct (startswith [] sub) eqn:E; [|congruence].
    destruct (startswith_split _ _ E) as [B HB].
    exists [], B. simpl. repeat split; [exact HB|lia|].
    intros X. rewrite find_from_unfold, startswith_app. exact Hr.
  - destruct (startswith (c :: t) sub) eqn:E.
    + destruct (startswith_split _ _ E) as [B HB].
      exists [], B. simpl. repeat split; [exact HB|lia|].
      intros X. rewrite find_from_unfold, startswith_app. exact Hr.
    + destruct (IH _ _ Hr Hne) as (A & B & H1 & H2 & H3); [lia|].
      exists (c :: A), B. subst t. repeat split.
      * simpl length. lia.
      * intros X. rewrite find_from_unfold.
        change ((c :: A) ++ sub ++ X) with (c :: A ++ sub ++ X).
        replace (startswith (c :: A ++ sub ++ X) sub) with false.
        { apply H3. }
        rewrite <- E.
        change (c :: A ++ sub ++ X) with ((c :: A) ++ sub ++ X).
        change (c :: A ++ sub ++ B) with ((c :: A) ++ sub ++ B).
        rewrite !app_assoc.
        rewrite !(startswith_long ((c :: A) ++ sub)); [reflexivity| |];
          rewrite length_app; lia.
Qed.

Lemma slice_index_nonneg (s : str) (k : nat) :
  k <= length s -> slice_index s (Z.of_nat k) = k.
Proof.
  intros H. unfold slice_index.
  destruct (Z.ltb_spec (Z.of_nat k) 0); lia.
Qed.

Local Abbreviation MARK := (lit "---").
Local Abbreviation CLOSING := (NL :: lit "---").

(** The shape of a document in which [split_frontmatter] finds a
    frontmatter block. *)
Lemma split_frontmatter_found (content : str) :
  fst (split_frontmatter content) <> [] ->
  exists A B,
    content = MARK ++ A ++ CLOSING ++ B /\
    split_frontmatter content = (MARK ++ A ++ CLOSING, B) /\
    forall X, split_frontmatter (MARK ++ A ++ CLOSING ++ X)
              = (MARK ++ A ++ CLOSING, X).
Proof.
  intros Hf.
  assert (Hshape : forall A X r,
    find_from (A ++ CLOSING ++ X) CLOSING 0 = r ->
    r = Z.of_nat (length A) ->
    split_frontmatter (MARK ++ A ++ CLOSING ++ X) = (MARK ++ A ++ CLOSING, X)).
  { intros A X r Hr HrA. unfold split_frontmatter.
    rewrite startswith_app. cbn [negb].
    assert (E3 : slice_from (MARK ++ A ++ CLOSING ++ X) 3 = A ++ CLOSING ++ X).
    { unfold slice_from. rewrite (slice_index_nonneg _ 3); [reflexivity|].
      rewrite length_app. simpl. lia. }
    rewrite E3. unfold find. rewrite Hr, HrA.
    destruct (Z.eqb_spec (Z.of_nat (length A)) (-1)); [lia|].
    replace (3 + Z.of_nat (length A) + 4)%Z with (Z.of_nat (7 + length A)) by lia.
    unfold slice_to, slice_from.
    rewrite slice_index_nonneg by (rewrite !length_app; simpl; lia).
    replace (7 + length A) with (length (MARK ++ A ++ CLOSING))
      by (rewrite !length_app; simpl; lia).
    replace (MARK ++ A ++ CLOSING ++ X) with ((MARK ++ A ++ CLOSING) ++ X)
      by (now rewrite <- !app_assoc).
    rewrite firstn_app, firstn_all, Nat.sub_diag, skipn_app, skipn_all, Nat.sub_diag.
    simpl. now rewrite app_nil_r. }
  unfold split_frontmatter in Hf.
  destruct (startswith content MARK) eqn:E; [|simpl in Hf; congruence].
  cbn [negb] in Hf.
  destruct (startswith_split _ _ E) as [rest ->].
  assert (E3 : slice_from (MARK ++ rest) 3 = rest).
  { unfold slice_from. rewrite (slice_index_nonneg _ 3); [reflexivity|].
    rewrite length_app. simpl. lia. }
  rewrite E3 in Hf.
  destruct (Z.eqb_spec (find rest CLOSING) (-1)) as [Hm|Hm]; [simpl in Hf; congruence|].
  destruct (find_from_found CLOSING rest 0 _ eq_refl Hm) as (A & B & H1 & H2 & H3);
    [lia|].
  exists A, B. subst rest. repeat split.
  - apply (Hshape A B _ eq_refl). exact H2.
  - intros X. apply (Hshape A X _ (H3 X)). exact H2.
Qed.

End FrontmatterFacts.

Section FrontmatterClaims.
Import Py PyFacts Re FixMdx FrontmatterFacts.
Local Open Scope py_scope.

(** C10: [split_frontmatter] is a lossless partition.  For every input the
    two parts concatenate to the input; and when the input does not start
    with [---], or no [\n---] follows the opening marker, the frontmatter
    is empty and the body is the whole input. *)
Theorem split_frontmatter_partition (content : str) :
  fst (split_frontmatter content) ++ snd (split_frontmatter content) = content /\
  ((startswith content (lit "---") = false \/
    find (slice_from content 3) (NL :: lit "---") = (-1)%Z) ->
   split_frontmatter content = ([], content)).
Proof.
  unfold split_frontmatter.
  destruct (startswith content (lit "---")) eqn:E; cbn [negb].
  - destruct (Z.eqb_spec (find (slice_from content 3) (NL :: lit "---")) (-1))
      as [Hm|Hm].
    + split; [reflexivity|]. tauto.
    + split.
      * unfold slice_to, slice_from. cbn [fst snd]. apply firstn_skipn.
      * intros [H|H]; [discriminate|contradiction].
  - split; [reflexivity|]. tauto.
Qed.

(** C6: frontmatter invariance fails where a line of the frontmatter
    begins with the marker.  [marker_in_frontmatter] begins with a block
    delimited by two [---] lines; [split_frontmatter] cuts it at the first
    [\n---], inside the block, so the third line of the block is passed to
    the body passes and comes out rewritten: the output no longer begins
    with the block. *)
Theorem frontmatter_cut_inside_block :
  startswith marker_in_frontmatter marker_in_frontmatter_block = true /\
  split_frontmatter marker_in_frontmatter
  = (doc ["---"; "a: 1"; "---"]%string, doc ["b: &lt; {}"; "---"; "body"]%string) /\
  transform marker_in_frontmatter = Ret marker_in_frontmatter_out /\
  startswith marker_in_frontmatter_out marker_in_frontmatter_block = false.
Proof.
  repeat split; vm_compute; reflexivity.
Qed.

(** X26: what [split_frontmatter] returns as frontmatter is passed
    through.  When it finds a frontmatter in the document and the pipeline
    returns, the output is that frontmatter, byte for byte, followed by the
    transformed body, and [split_frontmatter] finds the same frontmatter in
    the output. *)
Theorem frontmatter_invariance (content out : str) :
  fst (split_frontmatter content) <> [] ->
  transform content = Ret out ->
  fst (split_frontmatter out) = fst (split_frontmatter content) /\
  exists body, out = fst (split_frontmatter content) ++ body.
Proof.
  intros Hf Ht.
  destruct (split_frontmatter_found content Hf) as (A & B & H1 & H2 & H3).
  unfold transform in Ht. rewrite H2 in Ht. rewrite H2. cbn [fst].
  destruct (decode_html_entities B) as [b1| |]; cbn [bind] in Ht; try discriminate.
  destruct (fix_fragmented_blocks b1) as [b2| |]; cbn [bind] in Ht; try discriminate.
  destruct (escape_jsx_patterns (remove_empty_code_blocks b2)) as [b3| |];
    cbn [bind] in Ht; try discriminate.
  assert (E : out = (lit "---" ++ A ++ NL :: lit "---") ++ b3) by congruence.
  rewrite E. clear Ht E.
  split.
  - rewrite <- !app_assoc. now rewrite H3.
  - now exists b3.
Qed.

End FrontmatterClaims.

Section EntityClaims.
Import Py PyFacts Re FixMdx.
Local Open Scope py_scope.

(** C2: [decode_html_entities] decodes the named entities of the table and
    in-range numeric entities (first equation), but it is not total: on a
    numeric entity whose number is not a code point, [chr] raises
    [ValueError] and the exception leaves the function (second equation),
    and so leaves the whole pipeline (third equation). *)
Theorem decode_html_entities_raises :
  decode_html_entities (lit "&#91;a&#123;b&#125;c&#93; &amp; &#65;")
  = Ret (lit "[a{b}c] & A") /\
  decode_html_entities entity_out_of_range = Raise ValueError /\
  transform entity_out_of_range = Raise ValueError.
Proof.
  repeat split; vm_compute; reflexivity.
Qed.

Lemma frontmatter_invariance_witness :
  fst (split_frontmatter with_frontmatter) <> [] /\
  transform with_frontmatter = Ret with_frontmatter_fixed /\
  fst (split_frontmatter with_frontmatter_fixed)
  = fst (split_frontmatter with_frontmatter) /\
  exists body, with_frontmatter_fixed = fst (split_frontmatter with_frontmatter) ++ body.
Proof.
  split; [vm_compute; discriminate|].
  split; [vm_compute; reflexivity|].
  apply (frontmatter_invariance with_frontmatter with_frontmatter_fixed).
  - vm_compute. discriminate.
  - vm_compute. reflexivity.
Defined.

End EntityClaims.

(** ** Claims about scripts/fix-doc-links.py *)
Section FixDocLinksClaims.
Import Py PyFacts Re FixDocLinks.
Local Open Scope py_scope.

(** C9: per-file recovery from a read error.  If reading the file raises
    an exception [e], [fix_file] returns 0 after printing one message; it
    writes no file and leaves [changes_made] and [files_modified] as they
    were, and the loop of [main] goes on with the remaining files from that
    state. *)
Theorem read_error_is_skipped
  (ROOT_DIR : path) (w : world) (file_path : path) (e : exn) :
  read_text (files w) file_path = Raise e ->
  exists w',
    fix_file ROOT_DIR w file_path = Ret (0, w') /\
    files w' = files w /\
    changes_made w' = changes_made w /\
    files_modified w' = files_modified w /\
    stdout w' = stdout w ++ [ErrorReading file_path e] /\
    forall md_files,
      fix_all ROOT_DIR (file_path :: md_files) w = fix_all ROOT_DIR md_files w'.
Proof.
  intros Hr. exists (print (ErrorReading file_path e) w).
  assert (H : fix_file ROOT_DIR w file_path
              = Ret (0, print (ErrorReading file_path e) w)).
  { unfold fix_file. now rewrite Hr. }
  repeat split; try reflexivity; try exact H.
  intros md_files. cbn [fix_all]. rewrite H. reflexivity.
Qed.

Lemma read_error_is_skipped_witness :
  read_text (files example_world) broken_file = Raise OSError /\
  exists w',
    fix_file example_root example_world broken_file = Ret (0, w') /\
    files w' = files example_world /\
    changes_made w' = changes_made example_world /\
    files_modified w' = files_modified example_world /\
    stdout w' = stdout example_world ++ [ErrorReading broken_file OSError] /\
    forall md_files,
      fix_all example_root (broken_file :: md_files) example_world
      = fix_all example_root md_files w'.
Proof.
  split; [reflexivity|].
  apply (read_error_is_skipped example_root example_world broken_file OSError).
  reflexivity.
Defined.

End FixDocLinksClaims.

(** ** The matcher on literals and greedy classes *)
Module ReFacts.
Import Py PyFacts Re.

Lemma star_iter_S body k n st :
  star_iter body k (S n) st
  = match body st (fun st1 =>
            if Nat.ltb (length (rest st1)) (length (rest st))
            then star_iter body k n st1 else None) with
    | Some m => Some m
    | None => k st
    end.
Proof. reflexivity. Qed.

Lemma run_Cls p st k :
  run (Cls p) st k
  = match rest st with
    | x :: t => if p x then k (eat x t st) else None
    | [] => None
    end.
Proof. reflexivity. Qed.

Lemma run_Lit_ok (l : str) :
  forall st k t, rest st = l ++ t -> run (Lit l) st k = k (moved st l t).
Proof.
  induction l as [|c l IH]; intros st k t H.
  - destruct st as [sn rs gs]. simpl in *. now subst.
  - cbn [Lit run]. rewrite H. cbn [app]. rewrite N.eqb_refl.
    rewrite (IH _ _ t) by reflexivity.
    unfold moved, eat. cbn [seen rest groups rev]. now rewrite <- app_assoc.
Qed.

Lemma run_Lit_fail (l : str) :
  forall st k, startswith (rest st) l = false -> run (Lit l) st k = None.
Proof.
  induction l as [|c l IH]; intros st k H.
  - now destruct (rest st).
  - cbn [Lit run]. destruct (rest st) as [|x t] eqn:E; [reflexivity|].
    simpl in H. destruct (x =? c)%N; [|reflexivity].
    apply IH. exact H.
Qed.

(** A greedy star over a class takes the whole run of class characters in
    front of a character outside the class, if the continuation accepts
    there. *)
Lemma star_class_greedy (p : char -> bool) (k : cursor -> option cursor) :
  forall q st n d t m,
    rest st = q ++ d :: t ->
    forallb p q = true -> p d = false ->
    length (rest st) <= n ->
    k (moved st q (d :: t)) = Some m ->
    star_iter (run (Cls p)) k n st = Some m.
Proof.
  induction q as [|c q IH]; intros st n d t m Hr Hq Hd Hn Hk.
  - assert (E : moved st [] (d :: t) = st).
    { destruct st as [sn rs gs]. unfold moved. simpl in *. now subst. }
    rewrite E in Hk.
    destruct n as [|n]; [exact Hk|]. rewrite star_iter_S, run_Cls.
    rewrite Hr. cbn [app]. now rewrite Hd.
  - simpl in Hq. apply andb_prop in Hq as [Hc Hq].
    destruct n as [|n]; [rewrite Hr in Hn; simpl in Hn; lia|].
    rewrite star_iter_S, run_Cls. rewrite Hr. cbn [app]. rewrite Hc.
    cbn [eat rest].
    replace (Nat.ltb (length (q ++ d :: t)) (length (c :: q ++ d :: t))) with true
      by (symmetry; apply Nat.ltb_lt; simpl; lia).
    rewrite (IH (eat c (q ++ d :: t) st) n d t m); try reflexivity; try assumption.
    + rewrite Hr in Hn. simpl in *. lia.
    + rewrite <- Hk. f_equal. unfold moved, eat. cbn [seen rest groups rev].
      now rewrite <- app_assoc.
Qed.

End ReFacts.

(** ** The /pkg/ rule *)
Module PkgRuleFacts.
Import Py PyFacts Re FixDocLinks ReFacts.

Lemma search_from_unfold r before s :
  search_from r before s
  = match match_at r before s with
    | Some m => Some m
    | None =>
        match s with
        | [] => None
        | c :: t => search_from r (c :: before) t
        end
    end.
Proof. now destruct s. Qed.

Lemma pkg_no_match (before s : str) :
  startswith s PKG = false -> match_at pkg_pattern before s = None.
Proof.
  intros H. unfold match_at, pkg_pattern, Seq, L. cbn [fold_right run].
  now apply run_Lit_fail.
Qed.

(** An occurrence of the link prefix cannot begin in [c] and end in [r]
    when [r] starts with a closing bracket. *)
Lemma startswith_straddle (pat : str) :
  forall c r,
    no_bracket pat = true -> bracket_first r ->
    startswith c pat = false -> startswith (c ++ r) pat = false.
Proof.
  induction pat as [|x pat IH]; intros c r Hp Hr Hc.
  - now destruct c.
  - simpl in Hp. apply andb_prop in Hp as [Hx Hp].
    destruct c as [|y c].
    + destruct Hr as [->|[t ->]]; [reflexivity|]. cbn [app startswith].
      apply negb_true_iff in Hx. rewrite N.eqb_sym in Hx. now rewrite Hx.
    + cbn [app startswith] in *. destruct (y =? x)%N; [|reflexivity]. now apply IH.
Qed.

Lemma startswith_PKG_app (a : char) (c r : str) :
  bracket_first r ->
  startswith (a :: c) PKG = false -> startswith ((a :: c) ++ r) PKG = false.
Proof.
  intros Hr H. change PKG with (93%N :: lit "(/pkg/") in *.
  cbn [app startswith] in *. destruct (a =? 93)%N; [|reflexivity].
  apply startswith_straddle; [reflexivity|assumption|assumption].
Qed.

Lemma no_pkg_link_app (c r : str) :
  no_pkg_link c = true -> no_pkg_link r = true -> bracket_first r ->
  no_pkg_link (c ++ r) = true.
Proof.
  intros Hc Hr Hb. induction c as [|a c IH]; [exact Hr|].
  cbn [no_pkg_link] in Hc. apply andb_prop in Hc as [H1 H2].
  change ((a :: c) ++ r) with (a :: c ++ r). cbn [no_pkg_link].
  change (a :: c ++ r) with ((a :: c) ++ r).
  rewrite startswith_PKG_app; [|assumption|now apply negb_true_iff].
  now rewrite IH.
Qed.

Lemma no_bracket_no_pkg_link (s r : str) :
  no_bracket s = true -> no_pkg_link (s ++ r) = no_pkg_link r.
Proof.
  induction s as [|a s IH]; intros H; [reflexivity|].
  simpl in H. apply andb_prop in H as [Ha Hs].
  change ((a :: s) ++ r) with (a :: s ++ r). cbn [no_pkg_link].
  rewrite IH by assumption.
  change PKG with (93%N :: lit "(/pkg/"). cbn [startswith].
  apply negb_true_iff in Ha. now rewrite Ha.
Qed.

(** Where [](/pkg/] does not occur, the pattern is not found and the
    substitution copies the text. *)
Lemma pkg_clean (tpl : list piece) (s : str) :
  no_pkg_link s = true ->
  forall before,
    search_from pkg_pattern before s = None /\
    sub_tpl pkg_pattern tpl before s 0 = s.
Proof.
  induction s as [|a s IH]; intros H before.
  - split; reflexivity.
  - cbn [no_pkg_link] in H. apply andb_prop in H as [H1 H2].
    apply negb_true_iff in H1.
    destruct (IH H2 (a :: before)) as [I1 I2].
    split.
    + rewrite search_from_unfold, pkg_no_match by assumption. exact I1.
    + cbn [sub_tpl]. rewrite pkg_no_match by assumption. now rewrite I2.
Qed.

(** A segment without the link prefix is passed over. *)
Lemma pkg_segment (tpl : list piece) (c r : str) :
  no_pkg_link c = true -> bracket_first r ->
  forall before,
    search_from pkg_pattern before (c ++ r)
    = search_from pkg_pattern (rev c ++ before) r /\
    sub_tpl pkg_pattern tpl before (c ++ r) 0
    = c ++ sub_tpl pkg_pattern tpl (rev c ++ before) r 0.
Proof.
  intros Hc Hr. induction c as [|a c IH]; intros before; [split; reflexivity|].
  cbn [no_pkg_link] in Hc. apply andb_prop in Hc as [H1 H2].
  apply negb_true_iff in H1.
  pose proof (startswith_PKG_app a c r Hr H1) as H3.
  destruct (IH H2 (a :: before)) as [I1 I2].
  cbn [rev]. rewrite <- !app_assoc. cbn [app].
  split.
  - rewrite search_from_unfold.
    change ((a :: c) ++ r) with (a :: c ++ r) in *.
    rewrite pkg_no_match by assumption. exact I1.
  - change ((a :: c) ++ r) with (a :: c ++ r) in *. cbn [sub_tpl].
    rewrite pkg_no_match by assumption. now rewrite I2.
Qed.

Lemma sub_tpl_skip (r : regex) (tpl : list piece) (x : str) :
  forall before tail,
    sub_tpl r tpl before (x ++ tail) (length x)
    = sub_tpl r tpl (rev x ++ before) tail 0.
Proof.
  induction x as [|c x IH]; intros before tail; [reflexivity|].
  cbn [app length sub_tpl rev]. rewrite IH, <- app_assoc. reflexivity.
Qed.

(** The pattern at a link [](/pkg/<path>)]: the group captures the path
    and the match ends after the closing parenthesis. *)
Lemma pkg_match (before p t : str) :
  p <> [] -> forallb not_rparen p = true ->
  exists m,
    match_at pkg_pattern before (pkg_link p ++ t) = Some m /\
    group 1 m = p /\
    length (seen m) - length before = length (pkg_link p).
Proof.
  intros Hne Hp. destruct p as [|c p]; [contradiction|].
  simpl in Hp. apply andb_prop in Hp as [Hc Hp].
  set (st0 := start_at before (pkg_link (c :: p) ++ t)).
  set (st1 := moved st0 PKG ((c :: p) ++ lit ")" ++ t)).
  set (st1' := eat c (p ++ lit ")" ++ t) st1).
  set (st2 := moved st1' p (lit ")" ++ t)).
  set (m := moved (set_group 1 (span st1 st2) st2) (lit ")") t).
  exists m. split; [|split].
  - unfold match_at, pkg_pattern, Seq, L, Plus. cbn [fold_right run].
    fold st0. rewrite (run_Lit_ok _ st0 _ ((c :: p) ++ lit ")" ++ t)).
    2:{ unfold st0, start_at, pkg_link. cbn [rest]. now rewrite <- !app_assoc. }
    fold PKG. fold st1.
    change (rest st1) with (c :: p ++ lit ")" ++ t). cbv iota. rewrite Hc.
    fold st1'.
    apply (star_class_greedy not_rparen _ p st1' _ 41%N t m).
    + reflexivity.
    + exact Hp.
    + reflexivity.
    + apply Nat.le_refl.
    + fold st2. rewrite (run_Lit_ok _ _ _ t) by reflexivity. reflexivity.
  - unfold m, moved, set_group, group. cbn [groups List.find fst snd Nat.eqb].
    unfold span, st2, moved, st1', eat. cbn [seen].
    replace (length (rev p ++ c :: seen st1) - length (seen st1))
      with (length (rev p ++ [c]))
      by (rewrite !length_app; simpl; lia).
    replace (rev p ++ c :: seen st1) with ((rev p ++ [c]) ++ seen st1)
      by (now rewrite <- app_assoc).
    rewrite firstn_app, firstn_all, Nat.sub_diag. cbn [firstn].
    rewrite app_nil_r, rev_app_distr, rev_involutive. reflexivity.
  - unfold m, moved, set_group, st2, moved, st1', eat, st1, moved, st0, start_at.
    cbn [seen]. unfold pkg_link.
    rewrite !length_app. cbn [length rev app]. rewrite !length_app, !length_rev.
    cbn [length]. lia.
Qed.

Lemma forallb_not_rparen (p : str) : ~ In 41%N p -> forallb not_rparen p = true.
Proof.
  intros H. apply forallb_forall. intros x Hx. unfold not_rparen, none_of.
  cbn [existsb]. rewrite orb_false_r. apply negb_true_iff. apply N.eqb_neq.
  intros ->. contradiction.
Qed.

Lemma no_bracket_path (p : str) : ~ In 93%N p -> no_bracket p = true.
Proof.
  intros H. apply forallb_forall. intros x Hx. apply negb_true_iff.
  apply N.eqb_neq. intros ->. contradiction.
Qed.

(** At a link the substitution writes the GitHub link and goes on after
    the link. *)
Lemma pkg_link_rewritten (before p t : str) :
  p <> [] -> ~ In 41%N p ->
  sub_tpl pkg_pattern pkg_template before (pkg_link p ++ t) 0
  = github_link p ++ sub_tpl pkg_pattern pkg_template (rev (pkg_link p) ++ before) t 0.
Proof.
  intros Hne Hp.
  destruct (pkg_match before p t Hne (forallb_not_rparen p Hp)) as (m & M1 & M2 & M3).
  assert (E : pkg_link p ++ t = 93%N :: (lit "(/pkg/" ++ p ++ lit ")") ++ t).
  { unfold pkg_link. change PKG with (93%N :: lit "(/pkg/").
    cbn [app]. now rewrite <- !app_assoc. }
  assert (L : length (pkg_link p) = S (length (lit "(/pkg/" ++ p ++ lit ")"))).
  { unfold pkg_link. change PKG with (93%N :: lit "(/pkg/"). reflexivity. }
  rewrite E in M1 |- *. cbn [sub_tpl]. rewrite M1, M3, L.
  rewrite sub_tpl_skip.
  assert (X : expand pkg_template m = github_link p).
  { unfold expand, pkg_template, T, github_link. cbn [flat_map].
    rewrite M2, app_nil_r. reflexivity. }
  rewrite X. f_equal. f_equal.
  unfold pkg_link. change PKG with (93%N :: lit "(/pkg/").
  cbn [app rev]. rewrite <- !app_assoc. reflexivity.
Qed.

End PkgRuleFacts.

Module PkgRuleProps.
Import Py PyFacts Re FixDocLinks ReFacts PkgRuleFacts.

Lemma no_bracket_app (a b : str) :
  no_bracket a = true -> no_bracket b = true -> no_bracket (a ++ b) = true.
Proof.
  intros Ha Hb. unfold no_bracket in *. rewrite forallb_app.
  apply andb_true_intro. now split.
Qed.

Lemma pkg_link_head (p : str) :
  pkg_link p = 93%N :: (lit "(/pkg/" ++ p ++ lit ")").
Proof. reflexivity. Qed.

Lemma github_link_head (p : str) :
  github_link p
  = 93%N :: 40%N :: 104%N ::
    (lit "ttps://github.com/lookatitude/beluga-ai/blob/main/pkg/" ++ p ++ lit ")").
Proof.
  unfold github_link.
  replace (lit GITHUB_BLOB ++ lit "pkg/")
    with (93%N :: 40%N :: 104%N ::
          lit "ttps://github.com/lookatitude/beluga-ai/blob/main/pkg/")
    by (vm_compute; reflexivity).
  reflexivity.
Qed.

Lemma links_text_bracket_first (link : str -> str) (items : list (str * str)) :
  (forall p, exists t, link p = 93%N :: t) ->
  bracket_first (links_text link items).
Proof.
  intros H. destruct items as [|[p s] more]; [now left|].
  right. cbn [links_text]. destruct (H p) as [t ->]. now eexists.
Qed.

Lemma pkg_links_bracket_first (items : list (str * str)) :
  bracket_first (links_text pkg_link items).
Proof.
  apply links_text_bracket_first. intros p. rewrite pkg_link_head. now eexists.
Qed.

Lemma github_links_bracket_first (items : list (str * str)) :
  bracket_first (links_text github_link items).
Proof.
  apply links_text_bracket_first. intros p. rewrite github_link_head. now eexists.
Qed.

(** The substitution rewrites every link of a text of plain links. *)
Lemma pkg_links_rewritten (items : list (str * str)) :
  Forall plain_item items ->
  forall before,
    sub_tpl pkg_pattern pkg_template before (links_text pkg_link items) 0
    = links_text github_link items.
Proof.
  induction 1 as [|[p s] more [(Hne & Hp & _) Hs] _ IH]; intros before.
  - reflexivity.
  - cbn [links_text fst snd] in *.
    rewrite pkg_link_rewritten by assumption.
    destruct (pkg_segment pkg_template s (links_text pkg_link more) Hs
                (pkg_links_bracket_first more) (rev (pkg_link p) ++ before))
      as [_ ->].
    now rewrite IH.
Qed.

(** The rewritten text contains no link for the pattern to find. *)
Lemma github_links_clean (items : list (str * str)) :
  Forall plain_item items ->
  no_pkg_link (links_text github_link items) = true.
Proof.
  induction 1 as [|[p s] more [(Hne & _ & Hb) Hs] _ IH]; [reflexivity|].
  cbn [links_text fst snd] in *. rewrite github_link_head.
  cbn [app no_pkg_link].
  change (startswith (93%N :: 40%N :: 104%N :: ?x) PKG) with false.
  cbn [negb andb].
  change (40%N :: 104%N :: ?x ++ ?y) with ((40%N :: 104%N :: x) ++ y).
  rewrite no_bracket_no_pkg_link.
  - apply no_pkg_link_app; [assumption|assumption|].
    apply github_links_bracket_first.
  - change (40%N :: 104%N :: ?x) with ([40%N; 104%N] ++ x).
    repeat apply no_bracket_app; try reflexivity.
    now apply no_bracket_path.
Qed.

End PkgRuleProps.

Section PkgRuleClaims.
Import Py PyFacts Re FixDocLinks ReFacts PkgRuleFacts PkgRuleProps.

(** C8, as stated, fails: in [nested_links] the captured path runs up to
    the first closing parenthesis and swallows the start of a second link,
    which the rule leaves in its output; a second application rewrites that
    one too, so the rule is not idempotent and did not rewrite every
    occurrence the first time. *)
Lemma pkg_rule_not_idempotent :
  sub_rule pkg_pattern pkg_template (nested_links, 0) = (nested_links_once, 1) /\
  contains nested_links_once (lit "](/pkg/b)") = true /\
  sub_rule pkg_pattern pkg_template (nested_links_once, 1) = (nested_links_twice, 2) /\
  nested_links_once <> nested_links_twice.
Proof.
  repeat split; try (vm_compute; reflexivity). vm_compute. discriminate.
Qed.

(** C8, amended: on every text made of segments in which [](/pkg/] does
    not occur and of links [](/pkg/<path>)] whose path is not empty and
    contains neither a closing parenthesis nor a closing bracket, the rule
    rewrites every link to
    [](https://github.com/lookatitude/beluga-ai/blob/main/pkg/<path>)],
    leaves the segments as they are and counts one change; applied to its
    own output it changes nothing and counts nothing. *)
Theorem pkg_rule_on_plain_links
  (segment : str) (links : list (str * str)) (n : nat) :
  links <> [] ->
  no_pkg_link segment = true ->
  Forall plain_item links ->
  sub_rule pkg_pattern pkg_template (segment ++ links_text pkg_link links, n)
  = (segment ++ links_text github_link links, n + 1) /\
  sub_rule pkg_pattern pkg_template (segment ++ links_text github_link links, n + 1)
  = (segment ++ links_text github_link links, n + 1).
Proof.
  intros Hne Hseg Hall. split.
  - unfold sub_rule, re_search, re_sub.
    destruct (pkg_segment pkg_template segment (links_text pkg_link links) Hseg
                (pkg_links_bracket_first links) []) as [-> ->].
    rewrite (pkg_links_rewritten links Hall).
    destruct links as [|[p s] more]; [contradiction|].
    inversion Hall as [|? ? [(Hp1 & Hp2 & _) _] _]; subst.
    cbn [links_text fst] in *.
    destruct (pkg_match (rev segment ++ []) p (s ++ links_text pkg_link more) Hp1
                (forallb_not_rparen p Hp2)) as (m & M & _).
    rewrite search_from_unfold, M. reflexivity.
  - unfold sub_rule, re_search, re_sub.
    assert (C : no_pkg_link (segment ++ links_text github_link links) = true).
    { apply no_pkg_link_app; [assumption| |apply github_links_bracket_first].
      now apply github_links_clean. }
    destruct (pkg_clean pkg_template _ C []) as [-> _]. reflexivity.
Qed.

Lemma pkg_rule_on_plain_links_witness :
  sub_rule pkg_pattern pkg_template
    (lit "see [x" ++ links_text pkg_link two_links, 0)
  = (lit "see [x" ++ links_text github_link two_links, 0 + 1) /\
  sub_rule pkg_pattern pkg_template
    (lit "see [x" ++ links_text github_link two_links, 0 + 1)
  = (lit "see [x" ++ links_text github_link two_links, 0 + 1).
Proof.
  apply (pkg_rule_on_plain_links (lit "see [x") two_links 0).
  - discriminate.
  - reflexivity.
  - repeat constructor; try discriminate;
      vm_compute; intuition discriminate.
Defined.

End PkgRuleClaims.

(** * Further properties of the two scripts *)

(** ** Patterns that need a character the text does not contain *)
Module ReProps.
Import Py PyFacts Re ReFacts Vocabulary.
Local Open Scope py_scope.

(** A continuation that rejects every position from the cursor on makes
    the match fail. *)
Lemma run_rejected (r : regex) :
  forall st k,
    (forall st1, (exists pre, rest st = pre ++ rest st1) -> k st1 = None) ->
    run r st k = None.
Proof.
  induction r as [|c|p|r1 IH1 r2 IH2|r1 IH1 r2 IH2|r1 IH1|n r1 IH1| | |p|p];
    intros st k Hk.
  - apply Hk. now exists [].
  - cbn [run]. destruct (rest st) as [|x t] eqn:E; [reflexivity|].
    destruct (x =? c)%N; [|reflexivity]. apply Hk. now exists [x].
  - cbn [run]. destruct (rest st) as [|x t] eqn:E; [reflexivity|].
    destruct (p x); [|reflexivity]. apply Hk. now exists [x].
  - cbn [run]. apply IH1. intros st1 [pre1 H1]. apply IH2.
    intros st2 [pre2 H2]. apply Hk. exists (pre1 ++ pre2).
    now rewrite H1, H2, app_assoc.
  - cbn [run]. rewrite IH1 by assumption. now apply IH2.
  - cbn [run]. generalize (length (rest st)). intros n. revert st Hk.
    induction n as [|n IHn]; intros st Hk.
    + apply Hk. now exists [].
    + rewrite star_iter_S. rewrite IH1.
      * apply Hk. now exists [].
      * intros st1 [pre1 H1].
        destruct (Nat.ltb (length (rest st1)) (length (rest st))); [|reflexivity].
        apply IHn. intros st2 [pre2 H2]. apply Hk. exists (pre1 ++ pre2).
        now rewrite H1, H2, app_assoc.
  - cbn [run]. apply IH1. intros st1 H1. apply Hk. exact H1.
  - cbn [run]. destruct (seen st); [|reflexivity]. apply Hk. now exists [].
  - cbn [run]. destruct (rest st) as [|c [|d t]] eqn:E.
    + apply Hk. now exists [].
    + destruct (c =? NL)%N; [|reflexivity]. apply Hk. exists []. now rewrite E.
    + reflexivity.
  - cbn [run]. destruct (seen st) as [|c t].
    + apply Hk. now exists [].
    + destruct (p c); [reflexivity|]. apply Hk. now exists [].
  - cbn [run]. destruct (rest st) as [|c t] eqn:E.
    + apply Hk. exists []. now rewrite E.
    + destruct (p c); [reflexivity|]. apply Hk. exists []. now rewrite E.
Qed.

(** A pattern that needs [c] does not match in a text without [c]. *)
Lemma needs_no_match (c : char) (r : regex) :
  needs c r = true ->
  forall st k, ~ In c (rest st) -> run r st k = None.
Proof.
  induction r as [|x|p|r1 IH1 r2 IH2|r1 IH1 r2 IH2|r1 IH1|n r1 IH1| | |p|p];
    cbn [needs]; intros Hn st k Hc; try discriminate.
  - cbn [run]. destruct (rest st) as [|y t] eqn:E; [reflexivity|].
    destruct (y =? x)%N eqn:Ey; [|reflexivity].
    apply N.eqb_eq in Ey. apply N.eqb_eq in Hn. subst. exfalso. apply Hc. now left.
  - cbn [run]. apply orb_prop in Hn as [Hn|Hn].
    + now apply IH1.
    + apply run_rejected. intros st1 [pre H1]. apply IH2; [assumption|].
      intros Hin. apply Hc. rewrite H1. apply in_or_app. now right.
  - cbn [run]. apply andb_prop in Hn as [H1 H2].
    rewrite IH1 by assumption. now apply IH2.
  - cbn [run]. now apply IH1.
Qed.

Lemma not_in_tail {A} (c a : A) (s : list A) : ~ In c (a :: s) -> ~ In c s.
Proof. intros H G. apply H. now right. Qed.

(** [re.search] finds nothing, and both forms of [re.sub] copy the text. *)
Lemma needs_search (c : char) (r : regex) (s : str) :
  needs c r = true -> ~ In c s ->
  forall before, search_from r before s = None.
Proof.
  intros Hn. induction s as [|a s IH]; intros Hc before.
  - cbn. unfold match_at. now rewrite (needs_no_match c r Hn).
  - cbn [search_from]. unfold match_at at 1.
    rewrite (needs_no_match c r Hn) by exact Hc.
    apply IH. now apply not_in_tail in Hc.
Qed.

Lemma needs_sub (c : char) (r : regex) (tpl : list piece) (s : str) :
  needs c r = true -> ~ In c s ->
  forall before, sub_tpl r tpl before s 0 = s.
Proof.
  intros Hn. induction s as [|a s IH]; intros Hc before.
  - cbn. unfold match_at. now rewrite (needs_no_match c r Hn).
  - cbn [sub_tpl]. unfold match_at at 1.
    rewrite (needs_no_match c r Hn) by exact Hc.
    rewrite IH; [reflexivity|]. now apply not_in_tail in Hc.
Qed.

Lemma needs_sub_call (c : char) (r : regex) (repl : cursor -> outcome str) (s : str) :
  needs c r = true -> ~ In c s ->
  forall before, sub_go r repl before s 0 = Ret s.
Proof.
  intros Hn. induction s as [|a s IH]; intros Hc before.
  - cbn. unfold match_at. now rewrite (needs_no_match c r Hn).
  - cbn [sub_go]. unfold match_at at 1.
    rewrite (needs_no_match c r Hn) by exact Hc.
    rewrite IH; [reflexivity|]. now apply not_in_tail in Hc.
Qed.

(** [str.replace] copies a text that lacks a character of [old]. *)
Lemma startswith_in (s p : str) (c : char) :
  startswith s p = true -> In c p -> In c s.
Proof.
  revert s. induction p as [|x p IH]; intros s H Hc; [contradiction|].
  destruct s as [|a s]; cbn in H; [discriminate|].
  apply andb_prop in H as [H1 H2]. apply N.eqb_eq in H1. subst a.
  destruct Hc as [->|Hc]; [now left|right; now apply IH].
Qed.

Lemma replace_absent (c : char) (s old new : str) :
  In c old -> ~ In c s -> replace s old new = s.
Proof.
  intros Ho Hs. destruct old as [|x old]; [contradiction|].
  unfold replace. induction s as [|a s IH]; [reflexivity|].
  cbn [replace_go].
  destruct (startswith (a :: s) (x :: old)) eqn:E.
  - exfalso. apply Hs. now apply (startswith_in _ _ _ E).
  - rewrite IH; [reflexivity|]. now apply not_in_tail in Hs.
Qed.

End ReProps.

(** ** The passes of fix_mdx.py on text they have nothing to do with *)
Module PassesProps.
Import Py PyFacts Re ReFacts FixMdx ScannerFacts ScannerProps Vocabulary ReProps.
Local Open Scope py_scope.

Lemma in_split (sep c : char) (s l : str) :
  In l (split sep s) -> In c l -> In c s.
Proof.
  revert l. induction s as [|a s IH]; intros l Hl Hc; cbn [split] in Hl.
  - destruct Hl as [<-|[]]. contradiction.
  - destruct (a =? sep)%N.
    + destruct Hl as [<-|Hl]; [contradiction|]. right. now apply (IH l).
    + destruct (split sep s) as [|x xs] eqn:E.
      * destruct Hl as [<-|[]]. destruct Hc as [->|[]]. now left.
      * destruct Hl as [<-|Hl].
        -- destruct Hc as [->|Hc]; [now left|]. right. apply (IH x); [now left|assumption].
        -- right. apply (IH l); [now right|assumption].
Qed.

Lemma in_lstrip (c : char) (s : str) : In c (lstrip s) -> In c s.
Proof.
  induction s as [|a s IH]; cbn [lstrip]; [tauto|].
  destruct (isspace a); [|tauto]. intros H. right. now apply IH.
Qed.

Lemma in_strip (c : char) (s : str) : In c (strip s) -> In c s.
Proof.
  unfold strip, rstrip. intros H. apply in_rev in H. apply in_lstrip in H.
  apply in_rev in H. now apply in_lstrip in H.
Qed.

Ltac in_literal := vm_compute; solve [repeat (first [left; reflexivity | right])].

Lemma decode_plain (content : str) :
  ~ In AMP content -> decode_html_entities content = Ret content.
Proof.
  intros H. unfold decode_html_entities, HTML_ENTITIES.
  cbn [fold_left fst snd].
  repeat rewrite (replace_absent AMP content) by (assumption || in_literal).
  unfold re_sub_call. now apply (needs_sub_call AMP).
Qed.

(** X1: a text without an ampersand holds no entity:
    [decode_html_entities] returns it unchanged and raises nothing. *)
Theorem decode_without_ampersand (content : str) :
  ~ In AMP content -> decode_html_entities content = Ret content.
Proof. exact (decode_plain content). Qed.

Lemma decode_without_ampersand_witness :
  decode_html_entities (lit "a < b") = Ret (lit "a < b").
Proof.
  apply (decode_without_ampersand (lit "a < b")).
  vm_compute. intuition discriminate.
Defined.

Lemma remove_empty_plain (content : str) :
  ~ In BACKTICK content -> remove_empty_code_blocks content = content.
Proof.
  intros H. unfold remove_empty_code_blocks, re_sub.
  rewrite (needs_sub BACKTICK re_blank_block [] content) by (reflexivity || assumption).
  now rewrite (needs_sub BACKTICK re_adjacent_fences [] content)
    by (reflexivity || assumption).
Qed.

(** X2: a text without a backtick holds no fence:
    [remove_empty_code_blocks] returns it unchanged. *)
Theorem remove_empty_without_backtick (content : str) :
  ~ In BACKTICK content -> remove_empty_code_blocks content = content.
Proof. exact (remove_empty_plain content). Qed.

Lemma remove_empty_without_backtick_witness :
  remove_empty_code_blocks (lit "a { b }") = lit "a { b }".
Proof.
  apply (remove_empty_without_backtick (lit "a { b }")).
  vm_compute. intuition discriminate.
Defined.

(** A line without [<], [{] and [}] is not escaped. *)
Lemma escape_line_plain (line : str) :
  ~ In LT line -> ~ In LBRACE line -> ~ In RBRACE line ->
  escape_line line = line.
Proof.
  intros H1 H2 H3. unfold escape_line, re_sub.
  rewrite (replace_absent LBRACE line) by (assumption || in_literal).
  rewrite (replace_absent RBRACE line) by (assumption || in_literal).
  rewrite (replace_absent LT line) by (assumption || in_literal).
  rewrite (needs_sub LT re_lt_digit _ line) by (reflexivity || assumption).
  rewrite (needs_sub LT re_recv_chan _ line) by (reflexivity || assumption).
  rewrite (needs_sub LT re_recv _ line) by (reflexivity || assumption).
  destruct (contains line (lit "`")); cbn [negb];
    repeat first
      [ rewrite (needs_sub LBRACE re_empty_braces _ line) by (reflexivity || assumption)
      | rewrite (needs_sub LBRACE re_brace_word _ line) by (reflexivity || assumption)
      | rewrite (needs_sub LBRACE re_helm_open _ line) by (reflexivity || assumption)
      | rewrite (needs_sub RBRACE re_helm_close _ line) by (reflexivity || assumption)
      | match goal with |- context [if ?b then _ else _] => destruct b end ];
    reflexivity.
Qed.

(** The loop of [escape_jsx_patterns] raises nothing; it emits one line
    per line, and leaves with some fence state that decides how it goes
    on. *)
Lemma escape_loop_total (P : list str) :
  forall in_code_block result,
  exists out in_code_block',
    length out = length P /\
    (forall k l, nth_error P k = Some l -> is_fence_line l = true ->
                 nth_error out k = Some l) /\
    forall Q, escape_loop (P ++ Q) in_code_block result
              = escape_loop Q in_code_block' (result ++ out).
Proof.
  induction P as [|line P IH]; intros icb result.
  - exists [], icb. repeat split.
    + intros [|k] l H; discriminate.
    + intros Q. now rewrite app_nil_r.
  - assert (Hstep : forall icb' x,
      (is_fence_line line = true -> x = line) ->
      (forall Q, escape_loop ((line :: P) ++ Q) icb result
                 = escape_loop (P ++ Q) icb' (result ++ [x])) ->
      exists out in_code_block',
        length out = length (line :: P) /\
        (forall k l, nth_error (line :: P) k = Some l -> is_fence_line l = true ->
                     nth_error out k = Some l) /\
        forall Q, escape_loop ((line :: P) ++ Q) icb result
                  = escape_loop Q in_code_block' (result ++ out)).
    { intros icb' x Hx Hq.
      destruct (IH icb' (result ++ [x])) as (out & icb'' & L & F & G).
      exists (x :: out), icb''. repeat split.
      - cbn. now rewrite L.
      - intros [|k] l Hl Hf; cbn in *.
        + inversion Hl; subst. now rewrite Hx.
        + now apply F.
      - intros Q. rewrite Hq, G, <- app_assoc. reflexivity. }
    destruct (startswith (strip line) FENCE) eqn:E.
    + destruct (has_language_ret (strip (slice_from (strip line) 3))) as (b & Hb & _).
      eapply (Hstep _ line); [reflexivity|].
      intros Q. cbn [app escape_loop]. rewrite E, Hb. cbn [bind]. reflexivity.
    + destruct icb.
      * apply (Hstep true line); [reflexivity|].
        intros Q. cbn [app escape_loop]. now rewrite E.
      * apply (Hstep false (escape_line line)).
        -- unfold is_fence_line. rewrite E. discriminate.
        -- intros Q. cbn [app escape_loop]. now rewrite E.
Qed.

(** X3: [escape_jsx_patterns] never raises: for every text it returns the
    lines it was given, escaped or not, one for one, and every fence-marker
    line among them exactly as it was. *)
Theorem escape_jsx_total (content : str) :
  exists out,
    escape_jsx_patterns content = Ret (join [NL] out) /\
    length out = length (split NL content) /\
    forall k l, nth_error (split NL content) k = Some l ->
                is_fence_line l = true -> nth_error out k = Some l.
Proof.
  destruct (escape_loop_total (split NL content) false [])
    as (out & icb' & L & F & G).
  exists out. repeat split; try assumption.
  unfold escape_jsx_patterns. specialize (G []). rewrite app_nil_r in G.
  rewrite G. reflexivity.
Qed.

Lemma escape_jsx_plain (content : str) :
  ~ In LT content -> ~ In LBRACE content -> ~ In RBRACE content ->
  escape_jsx_patterns content = Ret content.
Proof.
  intros H1 H2 H3. unfold escape_jsx_patterns.
  assert (H : forall lines icb result,
    (forall l, In l lines ->
       ~ In LT l /\ ~ In LBRACE l /\ ~ In RBRACE l) ->
    escape_loop lines icb result = Ret (result ++ lines)).
  { induction lines as [|line lines IH]; intros icb result Hl.
    - cbn. now rewrite app_nil_r.
    - cbn [escape_loop].
      assert (Hrec : forall icb', escape_loop lines icb' (result ++ [line])
                                  = Ret (result ++ line :: lines)).
      { intros icb'. rewrite IH; [now rewrite <- app_assoc|].
        intros l Hin. apply Hl. now right. }
      destruct (startswith (strip line) FENCE).
      + destruct (has_language_ret (strip (slice_from (strip line) 3)))
          as (b & -> & _). cbn [bind]. apply Hrec.
      + destruct icb; [apply Hrec|].
        destruct (Hl line (or_introl eq_refl)) as (A & B & C).
        rewrite escape_line_plain by assumption. apply Hrec. }
  rewrite H.
  - cbn [bind app]. now rewrite join_split.
  - intros l Hl. repeat split; intros Hc; eapply in_split in Hc; eauto.
Qed.

(** X4: a text without [<], [{] and [}] holds nothing to escape:
    [escape_jsx_patterns] returns it unchanged. *)
Theorem escape_jsx_without_markup (content : str) :
  ~ In LT content -> ~ In LBRACE content -> ~ In RBRACE content ->
  escape_jsx_patterns content = Ret content.
Proof. exact (escape_jsx_plain content). Qed.

Lemma escape_jsx_without_markup_witness :
  escape_jsx_patterns (lit "a & b") = Ret (lit "a & b").
Proof.
  apply (escape_jsx_without_markup (lit "a & b"));
    vm_compute; intuition discriminate.
Defined.

(** X5: inside a fenced code block nothing is escaped.  Whatever lines [P]
    come before it, a fence with a language tag opens a block, and the
    lines up to the next fence-marker line are copied as they are. *)
Theorem escape_jsx_skips_code_block (P : list str) (opener : str) (body : list str) :
  Forall (fun l => ~ In NL l) (P ++ opener :: body) ->
  is_fence_line opener = true ->
  has_language (strip (slice_from (strip opener) 3)) = Ret true ->
  no_fence body ->
  exists out,
    escape_loop P false [] = Ret out /\
    escape_jsx_patterns (join [NL] (P ++ opener :: body))
    = Ret (join [NL] (out ++ opener :: body)).
Proof.
  intros Hnl Hf Hl Hb.
  destruct (escape_loop_total P false []) as (out & icb' & _ & _ & G).
  exists out. split.
  - specialize (G []). rewrite app_nil_r in G. now rewrite G.
  - unfold escape_jsx_patterns.
    rewrite split_join; [|now destruct P|assumption].
    rewrite G. cbn [app escape_loop]. unfold is_fence_line in Hf.
    rewrite Hf, Hl. cbn [bind].
    assert (H : forall lines result,
      no_fence lines -> escape_loop lines true result = Ret (result ++ lines)).
    { induction lines as [|l lines IH]; intros result Hn.
      - cbn. now rewrite app_nil_r.
      - unfold no_fence in Hn. cbn [filter] in Hn.
        destruct (is_fence_line l) eqn:E; [discriminate|].
        cbn [escape_loop]. unfold is_fence_line in E. rewrite E.
        rewrite IH by exact Hn. now rewrite <- app_assoc. }
    rewrite H by exact Hb. cbn [bind]. now rewrite <- app_assoc.
Qed.

Lemma escape_jsx_skips_code_block_witness :
  exists out,
    escape_loop [lit "a {} b"] false [] = Ret out /\
    escape_jsx_patterns
      (join [NL] ([lit "a {} b"] ++ lit "```go" :: [lit "x := map[string]int{}"; lit "<-ch"]))
    = Ret (join [NL] (out ++ lit "```go" :: [lit "x := map[string]int{}"; lit "<-ch"])).
Proof.
  apply (escape_jsx_skips_code_block [lit "a {} b"] (lit "```go")
           [lit "x := map[string]int{}"; lit "<-ch"]).
  - repeat constructor; vm_compute; intuition discriminate.
  - reflexivity.
  - reflexivity.
  - reflexivity.
Defined.

End PassesProps.

(** ** The shape of the fence scanner's output *)
Module ScannerShape.
Import Py PyFacts Re FixMdx ScannerFacts ScannerProps Vocabulary.
Local Open Scope py_scope.

Lemma slice_to_end {A} (l : list A) (a b : nat) :
  length l <= a -> slice l a b = [].
Proof.
  intros H. unfold slice. rewrite skipn_all2 by assumption. apply firstn_nil.
Qed.

(** What the blank-line loop has done when it returns. *)
Lemma blank_loop_sound (lines : list str) :
  forall fuel j blank_count j' blank_count',
    blank_loop fuel lines j blank_count = Ret (j', blank_count') ->
    j <= j' /\ blank_count' = blank_count + (j' - j) /\
    Forall blank (slice lines j j') /\
    (forall l, nth_error lines j' = Some l -> strip l <> []).
Proof.
  induction fuel as [|fuel IH]; intros j bc j' bc' H; [discriminate|].
  cbn [blank_loop] in H.
  destruct (Nat.ltb j (length lines)) eqn:E.
  - apply Nat.ltb_lt in E. destruct (nth_error_lt _ _ E) as [l Hl].
    rewrite (getitem_nth _ _ _ Hl) in H. cbn [bind] in H.
    destruct (truthy (strip l)) eqn:Hs; cbn [negb] in H.
    + inversion H; subst. rewrite slice_nil, Nat.sub_diag.
      repeat split; try lia; [constructor|].
      intros l' Hl'. rewrite Hl in Hl'. inversion Hl'; subst.
      now apply truthy_true.
    + apply IH in H as (H1 & H2 & H3 & H4).
      repeat split; try lia; [|exact H4].
      rewrite (slice_cons _ _ _ _ Hl) by lia. constructor; [|exact H3].
      now apply truthy_false.
  - inversion H; subst. rewrite slice_nil, Nat.sub_diag.
    repeat split; try lia; [constructor|].
    intros l Hl. apply Nat.ltb_ge in E.
    assert (nth_error lines j' <> None) by congruence.
    apply nth_error_Some in H0. lia.
Qed.

(** What the orphan loop has done when it returns. *)
Lemma orphan_loop_sound (lines : list str) :
  forall fuel j orphan_code j' orphan_code',
    orphan_loop fuel lines j orphan_code = Ret (j', orphan_code') ->
    j <= j' /\ orphan_code' = orphan_code ++ slice lines j j' /\
    Forall orphan_ok (slice lines j j').
Proof.
  induction fuel as [|fuel IH]; intros j oc j' oc' H; [discriminate|].
  cbn [orphan_loop] in H.
  assert (Hstop : Ret (j, oc) = Ret (j', oc') ->
    j <= j' /\ oc' = oc ++ slice lines j j' /\ Forall orphan_ok (slice lines j j')).
  { intros G. inversion G; subst. rewrite slice_nil, app_nil_r.
    repeat split; [lia|constructor]. }
  destruct (Nat.ltb j (length lines)) eqn:E; [|now apply Hstop].
  apply Nat.ltb_lt in E. destruct (nth_error_lt _ _ E) as [l Hl].
  rewrite (getitem_nth _ _ _ Hl) in H. cbn [bind] in H.
  destruct (startswith (strip l) (lit "#") || startswith (strip l) FENCE) eqn:E1;
    [now apply Hstop|].
  apply orb_false_elim in E1 as [Hh Hf].
  destruct (is_markdown_text l) eqn:E2; [now apply Hstop|].
  assert (Hgo : orphan_loop fuel lines (j + 1) (oc ++ [l]) = Ret (j', oc') ->
    j <= j' /\ oc' = oc ++ slice lines j j' /\ Forall orphan_ok (slice lines j j')).
  { intros G. apply IH in G as (G1 & G2 & G3).
    rewrite (slice_cons _ _ _ _ Hl) by lia. repeat split; [lia| |].
    - now rewrite G2, <- app_assoc.
    - constructor; [|exact G3]. repeat split; assumption. }
  destruct (is_code_continuation l oc); [now apply Hgo|].
  destruct (truthy oc && truthy (strip l)); [now apply Hgo|now apply Hstop].
Qed.

(** What a lookahead that found orphans has seen. *)
Lemma lookahead_sound (lines : list str) (fuel i j : nat) (orphan_code : list str) :
  lookahead fuel lines i = Ret (j, orphan_code) ->
  orphan_code <> [] ->
  exists j0,
    i + 1 <= j0 /\ j0 <= j /\ j0 - (i + 1) <= 1 /\
    Forall blank (slice lines (i + 1) j0) /\
    orphan_code = slice lines j0 j /\
    Forall orphan_ok orphan_code.
Proof.
  unfold lookahead. intros H Hne.
  destruct (blank_loop fuel lines (i + 1) 0) as [[j0 bc]| |] eqn:B;
    cbn [bind] in H; try discriminate.
  apply blank_loop_sound in B as (B1 & B2 & B3 & _).
  destruct (Nat.leb bc 1 && Nat.ltb j0 (length lines)) eqn:E.
  - apply andb_prop in E as [E1 _]. apply Nat.leb_le in E1.
    apply orphan_loop_sound in H as (H1 & H2 & H3). cbn [app] in H2.
    exists j0. subst orphan_code. repeat split; try assumption; lia.
  - inversion H; subst. contradiction.
Qed.

(** On return the main loop has extended [result] by a fixed version of
    the lines from [i] on. *)
Lemma main_loop_sound (lines : list str) :
  forall fuel i in_code_block code_lang result merges result' merges',
    main_loop fuel lines i in_code_block code_lang result merges
    = Ret (result', merges') ->
    exists out, result' = result ++ out /\ fixes (skipn i lines) out.
Proof.
  induction fuel as [|fuel IH]; intros i icb cl result merges r' m' H;
    [discriminate|].
  cbn [main_loop] in H.
  destruct (Nat.ltb i (length lines)) eqn:E.
  2:{ apply Nat.ltb_ge in E. inversion H; subst. exists [].
      rewrite app_nil_r, skipn_all2 by assumption. split; [reflexivity|constructor]. }
  apply Nat.ltb_lt in E. destruct (nth_error_lt _ _ E) as [l Hl].
  rewrite (getitem_nth _ _ _ Hl) in H. cbn [bind] in H.
  pose proof (skipn_nth_error _ _ _ Hl) as Hsk.
  assert (Hemit : forall icb' cl',
    main_loop fuel lines (i + 1) icb' cl' (result ++ [l]) merges = Ret (r', m') ->
    exists out, r' = result ++ out /\ fixes (skipn i lines) out).
  { intros icb' cl' G. apply IH in G as (out & G1 & G2).
    exists (l :: out). rewrite G1, Hsk, <- app_assoc.
    split; [reflexivity|now constructor]. }
  destruct (startswith (strip l) FENCE) eqn:Hf; [|now apply (Hemit icb cl)].
  destruct (has_language_ret (strip (slice_from (strip l) 3))) as (b & Hb & _).
  rewrite Hb in H. cbn [bind] in H. destruct b.
  { destruct (getitem (split_ws (strip (slice_from (strip l) 3))) 0) as [w| |];
      cbn [bind] in H; try discriminate. now apply (Hemit true (Some w)). }
  destruct (str_eqb (strip (slice_from (strip l) 3)) [] && icb) eqn:Hc.
  2:{ destruct icb; [now apply (Hemit false None)|now apply (Hemit true cl)]. }
  apply andb_prop in Hc as [Hc _]. apply str_eqb_eq in Hc.
  destruct (lookahead fuel lines i) as [[j oc]| |] eqn:La;
    cbn [bind] in H; try discriminate.
  destruct (truthy oc) eqn:Hoc; [|now apply (Hemit false None)].
  apply truthy_true in Hoc.
  destruct (lookahead_sound _ _ _ _ _ La Hoc) as (j0 & L1 & L2 & L3 & L4 & L5 & L6).
  apply IH in H as (out & G1 & G2).
  exists (oc ++ FENCE :: out). split.
  - rewrite G1, <- !app_assoc. reflexivity.
  - rewrite Hsk, (skipn_slice lines (i + 1) j0) by lia.
    rewrite (skipn_slice lines j0 j) by lia. rewrite <- L5.
    constructor; try assumption.
    + split; assumption.
    + unfold slice. rewrite length_firstn. lia.
Qed.

(** X6: the shape of the scanner's output.  For every text the scanner
    returns the lines of [out], where [out] is the list of input lines
    fixed as [fixes] says: lines are copied in order, except that at some
    bare closing fences the fence and at most one blank line after it are
    dropped, the orphan run that follows is kept in place, and a fresh
    fence marker is written after it. *)
Theorem scanner_output_shape (content : str) :
  exists out,
    fix_fragmented_blocks content = Ret (join [NL] out) /\
    fixes (split NL content) out.
Proof.
  destruct (scan_spec content) as (r & m & _ & _ & _ & H).
  specialize (H (S (length (split NL content))) (Nat.lt_succ_diag_r _)).
  exists r. split.
  - unfold fix_fragmented_blocks, fix_fragmented_blocks_fuel. now rewrite H.
  - unfold scan in H. apply main_loop_sound in H as (out & -> & Hfix).
    exact Hfix.
Qed.

(** Consequences of the shape. *)
Lemma blank_not_markdown_free (l : str) : is_markdown_text l = false -> strip l <> [].
Proof.
  unfold is_markdown_text. destruct (strip l); [discriminate|]. discriminate.
Qed.

Lemma orphan_is_content (l : str) : orphan_ok l -> content_line l = true.
Proof.
  intros (_ & Hf & Hm). unfold content_line. rewrite Hf.
  apply blank_not_markdown_free in Hm. apply truthy_true in Hm. now rewrite Hm.
Qed.

Lemma filter_all {A} (f : A -> bool) (l : list A) :
  Forall (fun x => f x = true) l -> filter f l = l.
Proof. induction 1 as [|x l Hx _ IH]; cbn; [reflexivity|]. now rewrite Hx, IH. Qed.

Lemma filter_none {A} (f : A -> bool) (l : list A) :
  Forall (fun x => f x = false) l -> filter f l = [].
Proof. induction 1 as [|x l Hx _ IH]; cbn; [reflexivity|]. now rewrite Hx. Qed.

Lemma fixes_content (lines out : list str) :
  fixes lines out -> filter content_line out = filter content_line lines.
Proof.
  induction 1 as [|l ls out _ IH|fence blanks orphans ls out [Hf _] Hb _ _ Ho _ IH].
  - reflexivity.
  - cbn [filter]. now rewrite IH.
  - cbn [filter]. rewrite !filter_app. cbn [filter].
    assert (E1 : content_line fence = false).
    { unfold content_line. rewrite Hf. apply andb_false_r. }
    assert (E2 : content_line FENCE = false) by reflexivity.
    rewrite E1, E2, IH. rewrite (filter_none _ blanks); [reflexivity|].
    eapply Forall_impl; [|exact Hb]. intros a Ha. unfold content_line.
    unfold blank in Ha. now rewrite Ha.
Qed.

Lemma fixes_length (lines out : list str) :
  fixes lines out -> length out <= length lines.
Proof.
  induction 1; repeat (rewrite length_app || cbn [length]); lia.
Qed.

Lemma fixes_no_fence (lines out : list str) :
  fixes lines out -> no_fence lines -> out = lines.
Proof.
  induction 1 as [|l ls out _ IH|fence blanks orphans ls out [Hf _] _ _ _ _ _ _];
    intros Hn.
  - reflexivity.
  - unfold no_fence in *. cbn [filter] in Hn.
    destruct (is_fence_line l); [discriminate|]. now rewrite IH.
  - unfold no_fence in Hn. cbn [filter] in Hn. rewrite Hf in Hn. discriminate.
Qed.

End ScannerShape.

(** ** What the fence scanner keeps *)
Section ScannerKeeps.
Import Py PyFacts Re FixMdx ScannerFacts ScannerProps Vocabulary ScannerShape.
Local Open Scope py_scope.

(** The scanner's result as a list of lines, with what is known of it. *)
Lemma scanner_lines (content : str) :
  exists out,
    fix_fragmented_blocks content = Ret (join [NL] out) /\
    fixes (split NL content) out /\
    Forall (fun l => ~ In NL l) out.
Proof.
  destruct (scan_spec content) as (r & m & _ & _ & Hnl & H).
  specialize (H (S (length (split NL content))) (Nat.lt_succ_diag_r _)).
  exists r. repeat split.
  - unfold fix_fragmented_blocks, fix_fragmented_blocks_fuel. now rewrite H.
  - unfold scan in H. now apply main_loop_sound in H as (out & -> & Hfix).
  - exact Hnl.
Qed.

(** X7: the scanner loses and reorders no content: the lines of its output
    that are neither blank nor fence-marker lines are those of its input,
    in the same order. *)
Theorem scanner_keeps_content_lines (content : str) :
  exists out,
    fix_fragmented_blocks content = Ret out /\
    filter content_line (split NL out) = filter content_line (split NL content).
Proof.
  destruct (scanner_lines content) as (r & H & Hfix & Hnl).
  exists (join [NL] r). split; [exact H|].
  rewrite <- (fixes_content _ _ Hfix).
  destruct r as [|x r]; [reflexivity|].
  rewrite split_join; [reflexivity|discriminate|assumption].
Qed.

(** X8: the scanner adds no line: its output has at most as many lines as
    its input (a merge drops the blank line between a block and its
    orphans). *)
Theorem scanner_adds_no_line (content : str) :
  exists out,
    fix_fragmented_blocks content = Ret out /\
    length (split NL out) <= length (split NL content).
Proof.
  destruct (scanner_lines content) as (r & H & Hfix & Hnl).
  exists (join [NL] r). split; [exact H|].
  apply fixes_length in Hfix.
  destruct r as [|x r].
  - cbn. pose proof (split_not_nil NL content).
    destruct (split NL content); [contradiction|cbn; lia].
  - rewrite split_join; [exact Hfix|discriminate|assumption].
Qed.

Lemma scanner_plain (content : str) :
  no_fence (split NL content) -> fix_fragmented_blocks content = Ret content.
Proof.
  intros Hn. destruct (scanner_lines content) as (r & H & Hfix & _).
  rewrite H. rewrite (fixes_no_fence _ _ Hfix Hn). now rewrite join_split.
Qed.

(** X9: a text without a fence-marker line is returned unchanged. *)
Theorem scanner_without_fence (content : str) :
  no_fence (split NL content) -> fix_fragmented_blocks content = Ret content.
Proof. exact (scanner_plain content). Qed.

Lemma scanner_without_fence_witness :
  fix_fragmented_blocks (doc ["func f() {"%string; ""%string; "}"%string])
  = Ret (doc ["func f() {"%string; ""%string; "}"%string]).
Proof.
  apply (scanner_without_fence (doc ["func f() {"%string; ""%string; "}"%string])).
  reflexivity.
Defined.

Lemma slice_head {A} (l : list A) (a b : nat) (x : A) (t : list A) :
  slice l a b = x :: t -> nth_error l a = Some x.
Proof.
  unfold slice. intros H. rewrite <- hd_error_skipn.
  destruct (skipn a l) as [|y s]; [now rewrite firstn_nil in H|].
  destruct (b - a); [discriminate|]. cbn in H. inversion H. reflexivity.
Qed.

Lemma slice_nth {A} (l : list A) (a b k : nat) (x : A) :
  a <= k -> k < b -> nth_error l k = Some x -> In x (slice l a b).
Proof.
  intros H1 H2 Hx. unfold slice.
  apply (nth_error_In _ (k - a)).
  rewrite nth_error_firstn.
  replace (Nat.ltb (k - a) (b - a)) with true
    by (symmetry; apply Nat.ltb_lt; lia).
  rewrite nth_error_skipn. now replace (a + (k - a)) with k by lia.
Qed.

(** A run that starts empty starts with a line the heuristic accepts. *)
Lemma orphan_loop_first (lines : list str) (fuel j j' : nat) (orphan_code : list str) :
  orphan_loop fuel lines j [] = Ret (j', orphan_code) ->
  orphan_code <> [] ->
  exists l, nth_error lines j = Some l /\ is_code_continuation l [] = true.
Proof.
  destruct fuel as [|fuel]; [discriminate|]. cbn [orphan_loop]. intros H Hne.
  destruct (Nat.ltb j (length lines)) eqn:E; [|inversion H; subst; congruence].
  apply Nat.ltb_lt in E. destruct (nth_error_lt _ _ E) as [l Hl].
  rewrite (getitem_nth _ _ _ Hl) in H. cbn [bind] in H.
  destruct (startswith (strip l) (lit "#") || startswith (strip l) FENCE);
    [inversion H; subst; congruence|].
  destruct (is_markdown_text l); [inversion H; subst; congruence|].
  destruct (is_code_continuation l []) eqn:C; [now exists l|].
  cbn [truthy andb] in H. inversion H; subst; congruence.
Qed.

Lemma orphan_run_parts
  (lines : list str) (fuel i j : nat) (orphan_code : list str) :
  lookahead fuel lines i = Ret (j, orphan_code) ->
  orphan_code <> [] ->
  exists j0 first more,
    (j0 = i + 1 \/ j0 = i + 2) /\
    Forall blank (slice lines (i + 1) j0) /\
    orphan_code = slice lines j0 j /\
    orphan_code = first :: more /\
    is_code_continuation first [] = true /\
    Forall (fun l => strip l <> [] /\ orphan_ok l) orphan_code.
Proof.
  intros H Hne.
  destruct (lookahead_sound _ _ _ _ _ H Hne) as (j0 & L1 & L2 & L3 & L4 & L5 & L6).
  unfold lookahead in H.
  destruct (blank_loop fuel lines (i + 1) 0) as [[j1 bc]| |] eqn:B;
    cbn [bind] in H; try discriminate.
  destruct (Nat.leb bc 1 && Nat.ltb j1 (length lines)) eqn:E;
    [|inversion H; subst; congruence].
  destruct (orphan_loop_first _ _ _ _ _ H Hne) as (l & Hl & Hc).
  destruct (orphan_loop_sound _ _ _ _ _ _ H) as (O1 & O2 & O3). cbn [app] in O2.
  apply blank_loop_sound in B as (B1 & B2 & B3 & _).
  apply andb_prop in E as [E1 _]. apply Nat.leb_le in E1.
  destruct orphan_code as [|first more]; [contradiction|].
  exists j1, first, more.
  pose proof (slice_head _ _ _ _ _ (eq_sym O2)) as Hf.
  rewrite Hl in Hf. inversion Hf; subst l.
  repeat split; try assumption; try lia.
  rewrite O2. eapply Forall_impl; [|exact O3].
  intros a Ha. split; [|exact Ha]. destruct Ha as (_ & _ & Hm).
  now apply blank_not_markdown_free.
Qed.

(** X10: the anatomy of an orphan run.  When the lookahead at a closing
    fence returns a run that is not empty, the run is a block of
    consecutive lines that starts at most one blank line after the fence;
    its first line passes the code-continuation heuristic, and none of its
    lines is blank, a heading, a fence-marker line or markdown text. *)
Theorem orphan_run_anatomy
  (lines : list str) (fuel i j : nat) (orphan_code : list str) :
  lookahead fuel lines i = Ret (j, orphan_code) ->
  orphan_code <> [] ->
  exists j0 first more,
    (j0 = i + 1 \/ j0 = i + 2) /\
    Forall blank (slice lines (i + 1) j0) /\
    orphan_code = slice lines j0 j /\
    orphan_code = first :: more /\
    is_code_continuation first [] = true /\
    Forall (fun l => strip l <> [] /\ orphan_ok l) orphan_code.
Proof. exact (orphan_run_parts lines fuel i j orphan_code). Qed.

Lemma orphan_run_anatomy_witness :
  exists j0 first more,
    (j0 = 2 + 1 \/ j0 = 2 + 2) /\
    Forall blank (slice loose_lines (2 + 1) j0) /\
    [lit "}"; lit "foo bar"] = slice loose_lines j0 5 /\
    [lit "}"; lit "foo bar"] = first :: more /\
    is_code_continuation first [] = true /\
    Forall (fun l => strip l <> [] /\ orphan_ok l) [lit "}"; lit "foo bar"].
Proof.
  apply (orphan_run_anatomy loose_lines 6 2 5 [lit "}"; lit "foo bar"]).
  - vm_compute. reflexivity.
  - discriminate.
Defined.

(** X11: two blank lines end a block for good: when the two lines after a
    closing fence are blank, the lookahead returns no orphan, whatever
    follows them. *)
Theorem two_blank_lines_stop_lookahead
  (lines : list str) (i : nat) (b1 b2 : str) :
  nth_error lines (i + 1) = Some b1 -> strip b1 = [] ->
  nth_error lines (i + 2) = Some b2 -> strip b2 = [] ->
  exists j, forall fuel, length lines - (i + 1) < fuel ->
    lookahead fuel lines i = Ret (j, []).
Proof.
  intros H1 S1 H2 S2.
  assert (Hi : i < length lines).
  { assert (i + 1 < length lines); [|lia].
    apply nth_error_Some. rewrite H1. discriminate. }
  destruct (lookahead_spec lines i Hi) as (j & oc & _ & _ & _ & _ & _ & H).
  exists j. intros fuel Hf. rewrite (H fuel Hf).
  destruct oc as [|first more] eqn:Eoc; [reflexivity|]. exfalso.
  assert (Hne : oc <> []) by (rewrite Eoc; discriminate).
  rewrite <- Eoc in H.
  destruct (orphan_run_parts _ _ _ _ _ (H fuel Hf) Hne)
    as (j0 & f & mo & Hj0 & _ & Hs & Ho & _ & Hall).
  rewrite Ho in Hs, Hall. apply eq_sym, slice_head in Hs.
  inversion Hall as [|? ? [Hnb _] _]; subst.
  destruct Hj0 as [->| ->].
  - rewrite H1 in Hs. inversion Hs; subst. contradiction.
  - rewrite H2 in Hs. inversion Hs; subst. contradiction.
Qed.

Lemma two_blank_lines_stop_lookahead_witness :
  exists j, forall fuel,
    length (map lit ["```"%string; ""%string; ""%string; "}"%string]) - (0 + 1) < fuel ->
    lookahead fuel (map lit ["```"%string; ""%string; ""%string; "}"%string]) 0
    = Ret (j, []).
Proof.
  apply (two_blank_lines_stop_lookahead
           (map lit ["```"%string; ""%string; ""%string; "}"%string]) 0 [] []);
    reflexivity.
Defined.

(** X12: the first line decides.  When the first non-blank line after a
    closing fence (directly after it, or after one blank line) fails the
    code-continuation heuristic or is markdown text, nothing is merged: the
    loosened acceptance of later lines never starts a run. *)
Theorem first_line_decides
  (lines : list str) (i j0 : nat) (l : str) :
  j0 = i + 1 \/
  (j0 = i + 2 /\ exists b, nth_error lines (i + 1) = Some b /\ strip b = []) ->
  nth_error lines j0 = Some l -> strip l <> [] ->
  is_code_continuation l [] = false \/ is_markdown_text l = true ->
  exists j, forall fuel, length lines - (i + 1) < fuel ->
    lookahead fuel lines i = Ret (j, []).
Proof.
  intros Hj0 Hl Hnb Hbad.
  assert (Hi : i < length lines).
  { assert (j0 < length lines); [|lia].
    apply nth_error_Some. rewrite Hl. discriminate. }
  destruct (lookahead_spec lines i Hi) as (j & oc & _ & _ & _ & _ & _ & H).
  exists j. intros fuel Hf. rewrite (H fuel Hf).
  destruct oc as [|first more] eqn:Eoc; [reflexivity|]. exfalso.
  assert (Hne : oc <> []) by (rewrite Eoc; discriminate).
  rewrite <- Eoc in H.
  destruct (orphan_run_parts _ _ _ _ _ (H fuel Hf) Hne)
    as (j1 & f & mo & Hj1 & Hbl & Hs & Ho & Hc & Hall).
  rewrite Ho in Hs, Hall. apply eq_sym, slice_head in Hs.
  inversion Hall as [|? ? [Hfnb (_ & _ & Hfm)] _]; subst.
  assert (E : j1 = j0).
  { destruct Hj1 as [->| ->], Hj0 as [->|[-> (b & Hb & Sb)]]; try reflexivity.
    - exfalso. rewrite Hb in Hs. inversion Hs; subst. contradiction.
    - exfalso. rewrite Forall_forall in Hbl.
      apply Hnb, (Hbl l). apply (slice_nth _ _ _ (i + 1)); [lia|lia|exact Hl]. }
  subst j1. rewrite Hl in Hs. inversion Hs; subst.
  destruct Hbad as [Hbad|Hbad]; congruence.
Qed.

Lemma first_line_decides_witness :
  exists j, forall fuel,
    length (map lit ["```"%string; ""%string; "foo bar"%string; "}"%string]) - (0 + 1) < fuel ->
    lookahead fuel (map lit ["```"%string; ""%string; "foo bar"%string; "}"%string]) 0
    = Ret (j, []).
Proof.
  apply (first_line_decides
           (map lit ["```"%string; ""%string; "foo bar"%string; "}"%string]) 0 2
           (lit "foo bar")).
  - right. split; [reflexivity|]. exists []. split; reflexivity.
  - reflexivity.
  - vm_compute. discriminate.
  - left. vm_compute. reflexivity.
Defined.

End ScannerKeeps.

(** ** The pipeline and fix_markdown_file *)
Section PipelineProps.
Import Py PyFacts Re FixMdx ScannerFacts ScannerProps Vocabulary ReProps
  PassesProps ScannerShape.
Local Open Scope py_scope.

Lemma split_frontmatter_app (content : str) :
  fst (split_frontmatter content) ++ snd (split_frontmatter content) = content.
Proof.
  unfold split_frontmatter.
  destruct (negb (startswith content (lit "---"))); [reflexivity|].
  destruct (find (slice_from content 3) (NL :: lit "---") =? -1)%Z; [reflexivity|].
  unfold slice_to, slice_from. cbn [fst snd]. apply firstn_skipn.
Qed.

Lemma no_backtick_no_fence (content : str) :
  ~ In BACKTICK content -> no_fence (split NL content).
Proof.
  intros H. apply filter_none. apply Forall_forall. intros l Hl.
  destruct (is_fence_line l) eqn:E; [|reflexivity]. exfalso. apply H.
  apply (in_split NL BACKTICK content l Hl). apply in_strip.
  unfold is_fence_line in E. apply (startswith_in _ _ BACKTICK E). now left.
Qed.

Lemma transform_plain (content : str) :
  plain_text content -> transform content = Ret content.
Proof.
  intros (H1 & H2 & H3 & H4 & H5). unfold transform.
  pose proof (split_frontmatter_app content) as E.
  destruct (split_frontmatter content) as [f b]. cbn [fst snd] in E.
  assert (Hb : forall c, ~ In c content -> ~ In c b).
  { intros c Hc G. apply Hc. rewrite <- E. apply in_or_app. now right. }
  rewrite decode_plain by auto. cbn [bind].
  rewrite scanner_plain by (apply no_backtick_no_fence; auto). cbn [bind].
  rewrite remove_empty_plain by auto.
  rewrite escape_jsx_plain by auto. cbn [bind]. now rewrite E.
Qed.

(** X13: a text without [&], [<], [{], [}] and backtick passes through the
    whole pipeline unchanged, frontmatter or not. *)
Theorem transform_leaves_plain_text (content : str) :
  plain_text content -> transform content = Ret content.
Proof. exact (transform_plain content). Qed.

Lemma transform_leaves_plain_text_witness :
  transform (doc ["---"%string; "title: x"%string; "---"%string; "Some prose."%string])
  = Ret (doc ["---"%string; "title: x"%string; "---"%string; "Some prose."%string]).
Proof.
  apply (transform_leaves_plain_text
           (doc ["---"%string; "title: x"%string; "---"%string; "Some prose."%string])).
  repeat split; vm_compute; intuition discriminate.
Defined.

Lemma path_eqb_eq (a b : path) : path_eqb a b = true <-> a = b.
Proof.
  unfold path_eqb.
  destruct (list_eq_dec (list_eq_dec N.eq_dec) a b); split; congruence.
Qed.

(** X14: what a call of [fix_markdown_file] that returns has done.  The
    file could be read and its text transformed; afterwards the file holds
    the transformed text and every other file is as before; the result is
    [True] exactly when the text changed, and then only is the file
    written. *)
Theorem fix_markdown_file_effect
  (fs fs' : filesystem) (filepath : path) (changed : bool) :
  fix_markdown_file fs filepath = Ret (changed, fs') ->
  exists content out,
    read_text fs filepath = Ret content /\
    transform content = Ret out /\
    read_text fs' filepath = Ret out /\
    (forall q, q <> filepath -> fs' q = fs q) /\
    (changed = true <-> out <> content) /\
    (changed = false -> fs' = fs).
Proof.
  unfold fix_markdown_file. intros H.
  destruct (read_text fs filepath) as [content| |] eqn:R; cbn [bind] in H;
    try discriminate.
  destruct (transform content) as [out| |] eqn:T; cbn [bind] in H;
    try discriminate.
  exists content, out.
  destruct (str_eqb out content) eqn:E; cbn [negb] in H; inversion H; subst.
  - apply str_eqb_eq in E. subst out.
    repeat split; try assumption; try reflexivity; try discriminate.
    intros G. now contradiction G.
  - repeat split; try assumption; try reflexivity; try discriminate.
    + unfold read_text, write_text.
      replace (path_eqb filepath filepath) with true
        by (symmetry; now apply path_eqb_eq).
      reflexivity.
    + intros q Hq. unfold write_text.
      destruct (path_eqb q filepath) eqn:P; [|reflexivity].
      apply path_eqb_eq in P. contradiction.
    + intros _ G. subst. now rewrite str_eqb_refl in E.
Qed.

Lemma fix_markdown_file_effect_witness :
  exists content out,
    read_text (fun _ => Some (Text orphan_scenario)) [lit "a.md"] = Ret content /\
    transform content = Ret out /\
    read_text (write_text (fun _ => Some (Text orphan_scenario)) [lit "a.md"]
                 orphan_scenario_fixed) [lit "a.md"] = Ret out /\
    (forall q, q <> [lit "a.md"] ->
       write_text (fun _ => Some (Text orphan_scenario)) [lit "a.md"]
         orphan_scenario_fixed q
       = (fun _ => Some (Text orphan_scenario)) q) /\
    (true = true <-> out <> content) /\
    (true = false ->
       write_text (fun _ => Some (Text orphan_scenario)) [lit "a.md"]
         orphan_scenario_fixed
       = (fun _ => Some (Text orphan_scenario))).
Proof.
  apply (fix_markdown_file_effect (fun _ => Some (Text orphan_scenario))
           (write_text (fun _ => Some (Text orphan_scenario)) [lit "a.md"]
              orphan_scenario_fixed)
           [lit "a.md"] true).
  vm_compute. reflexivity.
Defined.

(** X15: a readable file of plain text is never rewritten:
    [fix_markdown_file] returns [False] and the file system is as
    before. *)
Theorem plain_file_not_rewritten
  (fs : filesystem) (filepath : path) (content : str) :
  read_text fs filepath = Ret content ->
  plain_text content ->
  fix_markdown_file fs filepath = Ret (false, fs).
Proof.
  intros R P. unfold fix_markdown_file. rewrite R. cbn [bind].
  rewrite (transform_plain content P). cbn [bind].
  now rewrite str_eqb_refl.
Qed.

Lemma plain_file_not_rewritten_witness :
  fix_markdown_file (fun _ => Some (Text (lit "Some prose."))) [lit "a.md"]
  = Ret (false, fun _ => Some (Text (lit "Some prose."))).
Proof.
  apply (plain_file_not_rewritten (fun _ => Some (Text (lit "Some prose.")))
           [lit "a.md"] (lit "Some prose.")).
  - reflexivity.
  - repeat split; vm_compute; intuition discriminate.
Defined.

End PipelineProps.

(** ** fix_file and the loop of main *)
Module FixFileProps.
Import Py PyFacts Re ReFacts FixDocLinks Vocabulary ReProps.
Local Open Scope py_scope.

Lemma relative_to_app (base rel : path) : relative_to (base ++ rel) base = Ret rel.
Proof.
  induction base as [|b base IH]; cbn [app relative_to]; [now destruct rel|].
  now rewrite str_eqb_refl.
Qed.

Lemma relative_to_inv (base : path) :
  forall p rel, relative_to p base = Ret rel -> p = base ++ rel.
Proof.
  induction base as [|b base IH]; intros p rel H.
  - destruct p; now inversion H.
  - destruct p as [|x p]; cbn [relative_to] in H; [discriminate|].
    destruct (str_eqb x b) eqn:E; [|discriminate].
    apply str_eqb_eq in E. subst. cbn [app]. f_equal. now apply IH.
Qed.

Lemma relative_to_outside (base p : path) :
  (forall rel, p <> base ++ rel) -> relative_to p base = Raise ValueError.
Proof.
  revert p. induction base as [|b base IH]; intros p H.
  - exfalso. now apply (H p).
  - destruct p as [|x p]; cbn [relative_to]; [reflexivity|].
    destruct (str_eqb x b) eqn:E; [|reflexivity].
    apply str_eqb_eq in E. subst. apply IH. intros rel G. apply (H rel).
    cbn [app]. now f_equal.
Qed.

Lemma set_add_incl (x : str) (s : list str) : incl s (set_add x s).
Proof.
  unfold set_add. destruct (existsb (str_eqb x) s); [apply incl_refl|].
  apply incl_appl, incl_refl.
Qed.

Lemma set_add_in (x : str) (s : list str) : In x (set_add x s).
Proof.
  unfold set_add. destruct (existsb (str_eqb x) s) eqn:E.
  - apply existsb_exists in E as (y & Hy & Hxy). apply str_eqb_eq in Hxy. now subst.
  - apply in_or_app. right. now left.
Qed.

Lemma set_add_nodup (x : str) (s : list str) : NoDup s -> NoDup (set_add x s).
Proof.
  intros H. unfold set_add. destruct (existsb (str_eqb x) s) eqn:E; [exact H|].
  apply NoDup_app; [exact H|repeat constructor; intros []|].
  intros a Ha [Hx|[]]. subst a.
  assert (existsb (str_eqb x) s = true); [|congruence].
  apply existsb_exists. exists x. split; [assumption|apply str_eqb_refl].
Qed.

Lemma bind_Ret {A B : Type} (x : A) (f : A -> outcome B) : bind (Ret x) f = f x.
Proof. reflexivity. Qed.

Lemma bind_Raise {A B : Type} (e : exn) (f : A -> outcome B) :
  bind (Raise e) f = Raise e.
Proof. reflexivity. Qed.

Lemma bind_OutOfFuel {A B : Type} (f : A -> outcome B) :
  bind OutOfFuel f = OutOfFuel.
Proof. reflexivity. Qed.

(** The body of [fix_file] with its local names substituted. *)
Lemma fix_file_unfold (ROOT_DIR : path) (w : world) (file_path : path) :
  fix_file ROOT_DIR w file_path =
  match read_text (files w) file_path with
  | Raise e => Ret (0, print (ErrorReading file_path e) w)
  | OutOfFuel => OutOfFuel
  | Ret content =>
      rel_path <- relative_to file_path (DOCS_DIR ROOT_DIR) ;;
      let '(content', local_changes) :=
        rules_17_31 rel_path
          (integrations_depth_rule rel_path (Z.of_nat (length rel_path) - 1)
             (rules_1_15 (content, 0))) in
      if negb (str_eqb content' content) then
        Ret (local_changes,
             print (Fixed file_path local_changes)
               {| files := write_text (files w) file_path content';
                  changes_made := changes_made w + local_changes;
                  files_modified :=
                    set_add (str_of_path file_path) (files_modified w);
                  stdout := stdout w |})
      else Ret (0, w)
  end.
Proof. reflexivity. Qed.

(** The three ways in which [fix_file] returns: nothing to change, a
    failed read, a rewritten file. *)
Lemma fix_file_cases (ROOT_DIR : path) (w w' : world) (file_path : path) (n : nat) :
  fix_file ROOT_DIR w file_path = Ret (n, w') ->
  (n = 0 /\ w' = w) \/
  (exists e, n = 0 /\ w' = print (ErrorReading file_path e) w) \/
  (exists content',
     w' = print (Fixed file_path n)
            {| files := write_text (files w) file_path content';
               changes_made := changes_made w + n;
               files_modified :=
                 set_add (str_of_path file_path) (files_modified w);
               stdout := stdout w |}).
Proof.
  rewrite fix_file_unfold. intros H.
  destruct (read_text (files w) file_path) as [content|e|].
  - destruct (relative_to file_path (DOCS_DIR ROOT_DIR)) as [rel|e|].
    + rewrite bind_Ret in H.
      destruct (rules_17_31 rel _) as [content' local_changes].
      destruct (str_eqb content' content); cbv beta iota delta [negb] in H.
      * left. split; congruence.
      * right. right. exists content'.
        assert (E : n = local_changes) by congruence. subst n. congruence.
    + rewrite bind_Raise in H. congruence.
    + rewrite bind_OutOfFuel in H. congruence.
  - right. left. exists e. split; congruence.
  - congruence.
Qed.

(** What a call of [fix_file] that returns has done to the state. *)
Lemma fix_file_accounts (ROOT_DIR : path) (w w' : world) (file_path : path) (n : nat) :
  fix_file ROOT_DIR w file_path = Ret (n, w') ->
  (forall q, q <> file_path -> files w' q = files w q) /\
  changes_made w' = changes_made w + n /\
  incl (files_modified w) (files_modified w') /\
  (NoDup (files_modified w) -> NoDup (files_modified w')) /\
  (files w' = files w \/ In (str_of_path file_path) (files_modified w')).
Proof.
  intros H.
  destruct (fix_file_cases _ _ _ _ _ H) as [[-> ->]|[(e & -> & ->)|(content' & ->)]];
    clear H.
  - refine (conj _ (conj _ (conj _ (conj _ _)))).
    + reflexivity.
    + lia.
    + apply incl_refl.
    + exact (fun D => D).
    + now left.
  - unfold print. cbv beta iota delta [files changes_made files_modified].
    refine (conj _ (conj _ (conj _ (conj _ _)))).
    + reflexivity.
    + lia.
    + apply incl_refl.
    + exact (fun D => D).
    + now left.
  - unfold print. cbv beta iota delta [files changes_made files_modified].
    refine (conj _ (conj _ (conj _ (conj _ _)))).
    + intros q Hq. unfold write_text.
      destruct (path_eqb q file_path) eqn:P; [|reflexivity].
      unfold path_eqb in P.
      destruct (list_eq_dec (list_eq_dec N.eq_dec) q file_path);
        [contradiction|discriminate].
    + reflexivity.
    + apply set_add_incl.
    + apply set_add_nodup.
    + right. apply set_add_in.
Qed.

End FixFileProps.

Section FixFileClaims.
Import Py PyFacts Re ReFacts FixDocLinks Vocabulary ReProps FixFileProps.
Local Open Scope py_scope.

(** X16: what [fix_file] does to the state when it returns [n]: no file
    other than [file_path] is touched, [changes_made] grows by exactly [n],
    [files_modified] only grows and stays free of duplicates, and if the
    files changed at all then [file_path] is in [files_modified]. *)
Theorem fix_file_effect
  (ROOT_DIR : path) (w w' : world) (file_path : path) (n : nat) :
  fix_file ROOT_DIR w file_path = Ret (n, w') ->
  (forall q, q <> file_path -> files w' q = files w q) /\
  changes_made w' = changes_made w + n /\
  incl (files_modified w) (files_modified w') /\
  (NoDup (files_modified w) -> NoDup (files_modified w')) /\
  (files w' = files w \/ In (str_of_path file_path) (files_modified w')).
Proof. exact (fix_file_accounts ROOT_DIR w w' file_path n). Qed.

Lemma fix_file_effect_witness :
  let w' :=
    print (Fixed good_file 1)
      {| files := write_text example_files good_file
           (lit "see [x](https://github.com/lookatitude/beluga-ai/blob/main/pkg/foo/bar.go)");
         changes_made := 1;
         files_modified := [str_of_path good_file];
         stdout := [] |} in
  fix_file example_root example_world good_file = Ret (1, w') /\
  (forall q, q <> good_file -> files w' q = files example_world q) /\
  changes_made w' = changes_made example_world + 1 /\
  incl (files_modified example_world) (files_modified w') /\
  (NoDup (files_modified example_world) -> NoDup (files_modified w')) /\
  (files w' = files example_world \/
   In (str_of_path good_file) (files_modified w')).
Proof.
  intros w'.
  assert (E : fix_file example_root example_world good_file = Ret (1, w'))
    by (vm_compute; reflexivity).
  split; [exact E|].
  exact (fix_file_effect example_root example_world w' good_file 1 E).
Defined.

(** X17: what the loop of [main] has done when it returns.  Whatever
    files the list holds, readable or not, a loop that runs to its end has
    not lowered [changes_made], has only added to [files_modified] and kept
    it free of duplicates, and has left every file that is not in the list
    as it was. *)
Theorem fix_all_effect (ROOT_DIR : path) (md_files : list path) :
  forall w w',
  fix_all ROOT_DIR md_files w = Ret w' ->
  changes_made w <= changes_made w' /\
  incl (files_modified w) (files_modified w') /\
  (NoDup (files_modified w) -> NoDup (files_modified w')) /\
  forall q, ~ In q md_files -> files w' q = files w q.
Proof.
  induction md_files as [|md_file md_files IH]; intros w w' H.
  - cbn [fix_all] in H. assert (w' = w) by congruence. subst w'.
    refine (conj (Nat.le_refl _) (conj (incl_refl _) (conj (fun D => D) _))).
    reflexivity.
  - cbn [fix_all] in H.
    destruct (fix_file ROOT_DIR w md_file) as [[n w1]| |] eqn:E.
    + rewrite bind_Ret in H.
      destruct (fix_file_accounts _ _ _ _ _ E) as (F1 & F2 & F3 & F4 & _).
      destruct (IH _ _ H) as (G1 & G2 & G3 & G4).
      refine (conj _ (conj _ (conj _ _))).
      * lia.
      * eapply incl_tran; eassumption.
      * intros D. apply G3, F4, D.
      * intros q Hq. rewrite G4, F1; [reflexivity| |].
        -- intros ->. apply Hq. now left.
        -- intros G. apply Hq. now right.
    + rewrite bind_Raise in H. congruence.
    + rewrite bind_OutOfFuel in H. congruence.
Qed.

Lemma fix_all_effect_witness :
  let w' :=
    {| files := write_text example_files good_file
         (lit "see [x](https://github.com/lookatitude/beluga-ai/blob/main/pkg/foo/bar.go)");
       changes_made := 1;
       files_modified := [str_of_path good_file];
       stdout := [ErrorReading broken_file OSError; Fixed good_file 1] |} in
  fix_all example_root [broken_file; good_file] example_world = Ret w' /\
  changes_made example_world <= changes_made w' /\
  incl (files_modified example_world) (files_modified w') /\
  (NoDup (files_modified example_world) -> NoDup (files_modified w')) /\
  forall q, ~ In q [broken_file; good_file] -> files w' q = files example_world q.
Proof.
  intros w'.
  assert (E : fix_all example_root [broken_file; good_file] example_world = Ret w')
    by (vm_compute; reflexivity).
  split; [exact E|].
  exact (fix_all_effect example_root [broken_file; good_file] example_world w' E).
Defined.

(** X18: a readable file that is not under the documentation directory
    makes [fix_file] raise [ValueError] (from [relative_to]), after the
    first fifteen rules and before anything is written or counted. *)
Theorem fix_file_outside_docs
  (ROOT_DIR : path) (w : world) (file_path : path) (content : str) :
  read_text (files w) file_path = Ret content ->
  (forall rel, file_path <> DOCS_DIR ROOT_DIR ++ rel) ->
  fix_file ROOT_DIR w file_path = Raise ValueError.
Proof.
  intros R H. rewrite fix_file_unfold, R, (relative_to_outside _ _ H).
  apply bind_Raise.
Qed.

Lemma fix_file_outside_docs_witness :
  fix_file example_root
    {| files := fun _ => Some (Text (lit "x")); changes_made := 0;
       files_modified := []; stdout := [] |}
    [lit "repo"; lit "README.md"]
  = Raise ValueError.
Proof.
  apply (fix_file_outside_docs example_root
           {| files := fun _ => Some (Text (lit "x")); changes_made := 0;
              files_modified := []; stdout := [] |}
           [lit "repo"; lit "README.md"] (lit "x")).
  - reflexivity.
  - intros rel H. vm_compute in H. discriminate.
Defined.

End FixFileClaims.

(** ** The rules of fix_file as a whole *)
Module RulesProps.
Import Py PyFacts Re ReFacts FixDocLinks Vocabulary ReProps FixFileProps.
Local Open Scope py_scope.

Lemma find_from_absent (c : char) (sub : str) :
  In c sub -> forall s pos, ~ In c s -> find_from s sub pos = (-1)%Z.
Proof.
  intros Hc. induction s as [|a s IH]; intros pos Hs.
  - rewrite FrontmatterFacts.find_from_unfold.
    destruct (startswith [] sub) eqn:E; [|reflexivity].
    exfalso. apply Hs. now apply (startswith_in _ _ c E).
  - rewrite FrontmatterFacts.find_from_unfold.
    destruct (startswith (a :: s) sub) eqn:E.
    + exfalso. apply Hs. now apply (startswith_in _ _ c E).
    + apply IH. now apply not_in_tail in Hs.
Qed.

Lemma contains_absent (c : char) (s sub : str) :
  In c sub -> ~ In c s -> contains s sub = false.
Proof.
  intros Hc Hs. unfold contains, find. now rewrite (find_from_absent c sub Hc).
Qed.

(** A rule whose pattern or search text needs a character the text lacks
    does nothing and counts nothing. *)
Lemma replace_rule_absent (c : char) (old new content : str) (n : nat) :
  In c old -> ~ In c content ->
  replace_rule old new (content, n) = (content, n).
Proof.
  intros Hc Hs. unfold replace_rule. now rewrite (contains_absent c).
Qed.

Lemma sub_rule_absent (c : char) (p : regex) (tpl : list piece) (content : str) (n : nat) :
  needs c p = true -> ~ In c content ->
  sub_rule p tpl (content, n) = (content, n).
Proof.
  intros Hn Hs. unfold sub_rule, re_search.
  now rewrite (needs_search c p content Hn Hs).
Qed.

Ltac slash_literal := vm_compute; solve [repeat (first [left; reflexivity | right])].

Lemma rules_without_slash (rel : path) (content : str) :
  ~ In SLASH content ->
  rules_17_31 rel
    (integrations_depth_rule rel (Z.of_nat (length rel) - 1)%Z
       (rules_1_15 (content, 0)))
  = (content, 0).
Proof.
  intros H.
  assert (R1 : rules_1_15 (content, 0) = (content, 0)).
  { unfold rules_1_15, missing_api_docs. cbn [fold_left].
    repeat rewrite (replace_rule_absent SLASH _ _ content)
      by (assumption || slash_literal).
    repeat rewrite (sub_rule_absent SLASH _ _ content)
      by (assumption || reflexivity).
    reflexivity. }
  assert (R2 : forall d, integrations_depth_rule rel d (content, 0) = (content, 0)).
  { intros d. unfold integrations_depth_rule.
    rewrite (contains_absent SLASH content (lit "../../api-docs"))
      by (assumption || slash_literal).
    cbn [andb]. now destruct (_ && _), (d =? 3)%Z. }
  assert (R3 : examples_rule rel (content, 0) = (content, 0)).
  { unfold examples_rule.
    destruct (contains (str_of_path rel) (lit "examples")); [|reflexivity].
    destruct (contains content (lit "voice-sessions.md")); [|reflexivity].
    rewrite (replace_absent SLASH content) by (assumption || slash_literal).
    now rewrite (sub_rule_absent SLASH) by (assumption || reflexivity). }
  rewrite R1, R2. unfold rules_17_31, top_level_docs. cbn [fold_left].
  repeat rewrite (sub_rule_absent SLASH _ _ content)
    by (assumption || reflexivity).
  rewrite R3.
  now rewrite (sub_rule_absent SLASH _ _ content) by (assumption || reflexivity).
Qed.

(** Every rule adds at most one to [local_changes]. *)
Lemma replace_rule_bump (old new : str) (e : edit) (k : nat) :
  snd e <= k -> snd (replace_rule old new e) <= S k.
Proof.
  destruct e as [content n]. unfold replace_rule. cbn [snd].
  destruct (contains content old); cbn [snd]; lia.
Qed.

Lemma sub_rule_bump (p : regex) (tpl : list piece) (e : edit) (k : nat) :
  snd e <= k -> snd (sub_rule p tpl e) <= S k.
Proof.
  destruct e as [content n]. unfold sub_rule. cbn [snd].
  destruct (is_some (re_search p content)); cbn [snd]; lia.
Qed.

Lemma integrations_depth_rule_bump (rel : path) (d : Z) (e : edit) (k : nat) :
  snd e <= k -> snd (integrations_depth_rule rel d e) <= S k.
Proof.
  destruct e as [content n]. unfold integrations_depth_rule. cbn [snd].
  destruct (_ && _); [|cbn [snd]; lia].
  destruct (d =? 3)%Z; [|cbn [snd]; lia].
  destruct (_ && _); cbn [snd]; lia.
Qed.

Lemma examples_rule_bump (rel : path) (e : edit) (k : nat) :
  snd e <= k -> snd (examples_rule rel e) <= S k.
Proof.
  destruct e as [content n]. unfold examples_rule. intros H.
  destruct (contains (str_of_path rel) (lit "examples")); [|cbn [snd] in *; lia].
  destruct (contains content (lit "voice-sessions.md")); [|cbn [snd] in *; lia].
  apply sub_rule_bump. exact H.
Qed.

Lemma rules_count (rel : path) (content : str) :
  snd (rules_17_31 rel
         (integrations_depth_rule rel (Z.of_nat (length rel) - 1)%Z
            (rules_1_15 (content, 0)))) <= 40.
Proof.
  unfold rules_17_31, rules_1_15, top_level_docs, missing_api_docs.
  cbn [fold_left].
  repeat first [ apply sub_rule_bump | apply replace_rule_bump
               | apply examples_rule_bump | apply integrations_depth_rule_bump ].
  cbn [snd]. lia.
Qed.

Lemma fix_file_count_limit
  (ROOT_DIR : path) (w w' : world) (file_path : path) (n : nat) :
  fix_file ROOT_DIR w file_path = Ret (n, w') -> n <= 40.
Proof.
  rewrite fix_file_unfold. intros H.
  destruct (read_text (files w) file_path) as [content|e|].
  - destruct (relative_to file_path (DOCS_DIR ROOT_DIR)) as [rel|e|].
    + rewrite bind_Ret in H.
      pose proof (rules_count rel content) as B.
      destruct (rules_17_31 rel _) as [content' local_changes].
      cbv beta iota delta [snd] in B.
      destruct (negb (str_eqb content' content));
        assert (E : n = local_changes \/ n = 0) by (first [left; congruence | right; congruence]);
        destruct E; lia.
    + rewrite bind_Raise in H. congruence.
    + rewrite bind_OutOfFuel in H. congruence.
  - assert (E : n = 0) by congruence. lia.
  - congruence.
Qed.

End RulesProps.

Section RulesClaims.
Import Py PyFacts Re ReFacts FixDocLinks Vocabulary ReProps FixFileProps RulesProps.
Local Open Scope py_scope.

(** X19: a readable file under the documentation directory whose text
    contains no slash holds no link target that any of the rules knows:
    [fix_file] returns 0, writes nothing, counts nothing and prints
    nothing. *)
Theorem fix_file_without_slash
  (ROOT_DIR : path) (w : world) (rel : path) (content : str) :
  read_text (files w) (DOCS_DIR ROOT_DIR ++ rel) = Ret content ->
  ~ In SLASH content ->
  fix_file ROOT_DIR w (DOCS_DIR ROOT_DIR ++ rel) = Ret (0, w).
Proof.
  intros R H.
  rewrite fix_file_unfold, R, relative_to_app, bind_Ret.
  rewrite (rules_without_slash rel content H).
  now rewrite str_eqb_refl.
Qed.

Lemma fix_file_without_slash_witness :
  fix_file example_root
    {| files := fun _ => Some (Text (lit "see [x](y.md)")); changes_made := 0;
       files_modified := []; stdout := [] |}
    (DOCS_DIR example_root ++ [lit "a.md"])
  = Ret (0, {| files := fun _ => Some (Text (lit "see [x](y.md)"));
               changes_made := 0; files_modified := []; stdout := [] |}).
Proof.
  apply (fix_file_without_slash example_root
           {| files := fun _ => Some (Text (lit "see [x](y.md)")); changes_made := 0;
              files_modified := []; stdout := [] |}
           [lit "a.md"] (lit "see [x](y.md)")).
  - reflexivity.
  - vm_compute. intuition discriminate.
Defined.

(** X20: [fix_file] counts rules, not replacements: whatever the text and
    however many links are rewritten, the count it returns for one file is
    at most 40, one for each rule application in its body. *)
Theorem fix_file_count_bound
  (ROOT_DIR : path) (w w' : world) (file_path : path) (n : nat) :
  fix_file ROOT_DIR w file_path = Ret (n, w') -> n <= 40.
Proof. exact (fix_file_count_limit ROOT_DIR w w' file_path n). Qed.

Lemma fix_file_count_bound_witness :
  let w' :=
    print (Fixed good_file 1)
      {| files := write_text example_files good_file
           (lit "see [x](https://github.com/lookatitude/beluga-ai/blob/main/pkg/foo/bar.go)");
         changes_made := 1;
         files_modified := [str_of_path good_file];
         stdout := [] |} in
  fix_file example_root example_world good_file = Ret (1, w') /\ 1 <= 40.
Proof.
  intros w'.
  assert (E : fix_file example_root example_world good_file = Ret (1, w'))
    by (vm_compute; reflexivity).
  split; [exact E|].
  exact (fix_file_count_bound example_root example_world w' good_file 1 E).
Defined.

End RulesClaims.

(** ** What fix_file counts *)
Module CountProps.
Import Py PyFacts Re ReFacts FixDocLinks Vocabulary ReProps FixFileProps RulesProps.
Local Open Scope py_scope.

(** Every rule leaves the edit as it is or raises [local_changes]; the
    same then holds for any sequence of rules, here relative to the edit
    [e0] the sequence started from. *)
Lemma replace_rule_step (old new : str) (e0 e : edit) :
  e = e0 \/ snd e0 < snd e ->
  replace_rule old new e = e0 \/ snd e0 < snd (replace_rule old new e).
Proof.
  destruct e as [content n]. unfold replace_rule. cbn [snd].
  destruct (contains content old); cbn [snd]; [|tauto].
  intros [<-|H]; right; cbn [snd]; lia.
Qed.

Lemma sub_rule_step (p : regex) (tpl : list piece) (e0 e : edit) :
  e = e0 \/ snd e0 < snd e ->
  sub_rule p tpl e = e0 \/ snd e0 < snd (sub_rule p tpl e).
Proof.
  destruct e as [content n]. unfold sub_rule. cbn [snd].
  destruct (is_some (re_search p content)); cbn [snd]; [|tauto].
  intros [<-|H]; right; cbn [snd]; lia.
Qed.

Lemma integrations_depth_rule_step (rel : path) (d : Z) (e0 e : edit) :
  e = e0 \/ snd e0 < snd e ->
  integrations_depth_rule rel d e = e0 \/
  snd e0 < snd (integrations_depth_rule rel d e).
Proof.
  destruct e as [content n]. unfold integrations_depth_rule. cbn [snd].
  destruct (_ && _); [|tauto].
  destruct (d =? 3)%Z; [|tauto].
  destruct (_ && _); cbn [snd]; [|tauto].
  intros [<-|H]; right; cbn [snd]; lia.
Qed.

(** [s.replace(old, old)] is [s] (rule 30, line 235). *)
Lemma replace_go_same (o : char) (old : str) :
  forall s skip, replace_go (o :: old) (o :: old) s skip = skipn skip s.
Proof.
  induction s as [|c t IH]; intros skip; [now destruct skip|].
  cbn [replace_go]. destruct skip as [|k]; [|apply IH].
  destruct (startswith (c :: t) (o :: old)) eqn:E.
  - rewrite IH.
    replace (length (o :: old) - 1) with (length old) by (cbn [length]; lia).
    destruct (FrontmatterFacts.startswith_split _ _ E) as [r Hr].
    cbn [app] in Hr. injection Hr as -> ->.
    cbn [app]. f_equal.
    rewrite skipn_app, skipn_all, Nat.sub_diag. reflexivity.
  - rewrite IH. reflexivity.
Qed.

Lemma replace_same (s old : str) : old <> [] -> replace s old old = s.
Proof.
  destruct old as [|o old]; [congruence|]. intros _.
  unfold replace. apply (replace_go_same o old s 0).
Qed.

Lemma examples_rule_step (rel : path) (e0 e : edit) :
  e = e0 \/ snd e0 < snd e ->
  examples_rule rel e = e0 \/ snd e0 < snd (examples_rule rel e).
Proof.
  destruct e as [content n]. unfold examples_rule.
  destruct (contains (str_of_path rel) (lit "examples")); [|tauto].
  destruct (contains content (lit "voice-sessions.md")); [|tauto].
  rewrite replace_same by discriminate.
  apply sub_rule_step.
Qed.

(** The rules change the text only if one of them fires. *)
Lemma rules_step (rel : path) (content : str) :
  let e := rules_17_31 rel
             (integrations_depth_rule rel (Z.of_nat (length rel) - 1)%Z
                (rules_1_15 (content, 0))) in
  e = (content, 0) \/ 0 < snd e.
Proof.
  cbv zeta.
  unfold rules_17_31, rules_1_15, top_level_docs, missing_api_docs.
  cbn [fold_left].
  change 0 with (snd (content, 0)) at 2.
  repeat first [ apply sub_rule_step | apply replace_rule_step
               | apply examples_rule_step | apply integrations_depth_rule_step ].
  now left.
Qed.

(** The ways in which [fix_file] returns: a failed read, a text that the
    rules leave as it is, a text that they change. *)
Lemma fix_file_outcomes (ROOT_DIR : path) (w w' : world) (file_path : path) (n : nat) :
  fix_file ROOT_DIR w file_path = Ret (n, w') ->
  (exists e, read_text (files w) file_path = Raise e /\ n = 0 /\
             w' = print (ErrorReading file_path e) w) \/
  (exists content, read_text (files w) file_path = Ret content /\ n = 0 /\ w' = w) \/
  (exists content content',
     read_text (files w) file_path = Ret content /\ content' <> content /\
     1 <= n /\
     w' = print (Fixed file_path n)
            {| files := write_text (files w) file_path content';
               changes_made := changes_made w + n;
               files_modified :=
                 set_add (str_of_path file_path) (files_modified w);
               stdout := stdout w |}).
Proof.
  rewrite fix_file_unfold. intros H.
  destruct (read_text (files w) file_path) as [content|e|].
  - destruct (relative_to file_path (DOCS_DIR ROOT_DIR)) as [rel|e|].
    + rewrite bind_Ret in H.
      pose proof (rules_step rel content) as B. cbv zeta in B.
      destruct (rules_17_31 rel _) as [content' local_changes].
      cbv beta iota delta [snd] in B.
      destruct (str_eqb content' content) eqn:E; cbv beta iota delta [negb] in H.
      * right. left. exists content. repeat split; congruence.
      * right. right. exists content, content'.
        assert (N : content' <> content).
        { intros ->. rewrite str_eqb_refl in E. discriminate. }
        assert (L : n = local_changes) by congruence. subst n.
        refine (conj eq_refl (conj N (conj _ _))); [|congruence].
        destruct B as [B|B]; [|lia]. congruence.
    + rewrite bind_Raise in H. congruence.
    + rewrite bind_OutOfFuel in H. congruence.
  - left. exists e. repeat split; congruence.
  - congruence.
Qed.

Lemma read_written (fs : filesystem) (p : path) (content : str) :
  read_text (write_text fs p content) p = Ret content.
Proof.
  unfold read_text, write_text, path_eqb.
  destruct (list_eq_dec (list_eq_dec N.eq_dec) p p); [reflexivity|congruence].
Qed.

Lemma set_add_length (x : str) (s : list str) :
  length (set_add x s) <= S (length s).
Proof.
  unfold set_add. destruct (existsb (str_eqb x) s); [lia|].
  rewrite length_app. cbn [length]. lia.
Qed.

(** One call of [fix_file] keeps the number of modified files below the
    number of pattern fixes, and adds at most 40 fixes. *)
Lemma fix_file_summary (ROOT_DIR : path) (w w' : world) (file_path : path) (n : nat) :
  fix_file ROOT_DIR w file_path = Ret (n, w') ->
  length (files_modified w) <= changes_made w ->
  length (files_modified w') <= changes_made w' /\
  changes_made w' <= changes_made w + 40.
Proof.
  intros H I. pose proof (fix_file_count_limit _ _ _ _ _ H) as B.
  destruct (fix_file_outcomes _ _ _ _ _ H)
    as [(e & _ & -> & ->)|[(c & _ & -> & ->)|(c & c' & _ & _ & N & ->)]].
  - cbn [print files_modified changes_made]. lia.
  - lia.
  - cbn [print files_modified changes_made].
    pose proof (set_add_length (str_of_path file_path) (files_modified w)). lia.
Qed.

End CountProps.

Section CountClaims.
Import Py PyFacts Re ReFacts FixDocLinks Vocabulary ReProps FixFileProps RulesProps
       CountProps.
Local Open Scope py_scope.

(** X21: a file is written only when a rule has fired.  A call of
    [fix_file] that returns either returns 0 and leaves the files and both
    counters as they were, or it returns a count of at least 1, has
    replaced the text of the file by a different one, has added the count
    to [changes_made] and the file to [files_modified], and has printed
    the one line that reports the file with this count. *)
Theorem fix_file_writes_only_counted
  (ROOT_DIR : path) (w w' : world) (file_path : path) (n : nat) :
  fix_file ROOT_DIR w file_path = Ret (n, w') ->
  (n = 0 /\ files w' = files w /\ changes_made w' = changes_made w /\
   files_modified w' = files_modified w) \/
  (1 <= n /\
   exists content content',
     read_text (files w) file_path = Ret content /\
     content' <> content /\
     read_text (files w') file_path = Ret content' /\
     changes_made w' = changes_made w + n /\
     In (str_of_path file_path) (files_modified w') /\
     stdout w' = stdout w ++ [Fixed file_path n]).
Proof.
  intros H.
  destruct (fix_file_outcomes _ _ _ _ _ H)
    as [(e & _ & -> & ->)|[(c & _ & -> & ->)|(c & c' & R & N & L & ->)]].
  - left. cbn [print files changes_made files_modified].
    auto.
  - left. auto.
  - right. split; [exact L|]. exists c, c'.
    cbn [print files changes_made files_modified stdout].
    refine (conj R (conj N (conj _ (conj eq_refl (conj _ eq_refl))))).
    + apply read_written.
    + apply set_add_in.
Qed.

Lemma fix_file_writes_only_counted_witness :
  let w' :=
    print (Fixed good_file 1)
      {| files := write_text example_files good_file
           (lit "see [x](https://github.com/lookatitude/beluga-ai/blob/main/pkg/foo/bar.go)");
         changes_made := 1;
         files_modified := [str_of_path good_file];
         stdout := [] |} in
  fix_file example_root example_world good_file = Ret (1, w') /\
  ((1 = 0 /\ files w' = files example_world /\
    changes_made w' = changes_made example_world /\
    files_modified w' = files_modified example_world) \/
   (1 <= 1 /\
    exists content content',
      read_text (files example_world) good_file = Ret content /\
      content' <> content /\
      read_text (files w') good_file = Ret content' /\
      changes_made w' = changes_made example_world + 1 /\
      In (str_of_path good_file) (files_modified w') /\
      stdout w' = stdout example_world ++ [Fixed good_file 1])).
Proof.
  intros w'.
  assert (E : fix_file example_root example_world good_file = Ret (1, w'))
    by (vm_compute; reflexivity).
  split; [exact E|].
  exact (fix_file_writes_only_counted example_root example_world w' good_file 1 E).
Defined.

(** X22: the summary line of [main].  Along the loop over the files the
    number of modified files never exceeds the number of pattern fixes,
    and every file adds at most 40 fixes: started with both counters
    empty, the loop ends with
    [len(files_modified) <= changes_made <= 40 * len(md_files)]. *)
Theorem summary_bounds (ROOT_DIR : path) (md_files : list path) :
  forall w w',
  fix_all ROOT_DIR md_files w = Ret w' ->
  length (files_modified w) <= changes_made w ->
  length (files_modified w') <= changes_made w' /\
  changes_made w' <= changes_made w + 40 * length md_files.
Proof.
  induction md_files as [|md_file md_files IH]; intros w w' H I.
  - cbn [fix_all] in H. assert (w' = w) by congruence. subst w'.
    cbn [length]. lia.
  - cbn [fix_all] in H.
    destruct (fix_file ROOT_DIR w md_file) as [[n w1]| |] eqn:E.
    + rewrite bind_Ret in H.
      destruct (fix_file_summary _ _ _ _ _ E I) as [I1 B1].
      destruct (IH _ _ H I1) as [I2 B2].
      cbn [length]. lia.
    + rewrite bind_Raise in H. congruence.
    + rewrite bind_OutOfFuel in H. congruence.
Qed.

Lemma summary_bounds_witness :
  let w' :=
    {| files := write_text example_files good_file
         (lit "see [x](https://github.com/lookatitude/beluga-ai/blob/main/pkg/foo/bar.go)");
       changes_made := 1;
       files_modified := [str_of_path good_file];
       stdout := [ErrorReading broken_file OSError; Fixed good_file 1] |} in
  fix_all example_root [broken_file; good_file] example_world = Ret w' /\
  length (files_modified example_world) <= changes_made example_world /\
  length (files_modified w') <= changes_made w' /\
  changes_made w' <= changes_made example_world + 40 * length [broken_file; good_file].
Proof.
  intros w'.
  assert (E : fix_all example_root [broken_file; good_file] example_world = Ret w')
    by (vm_compute; reflexivity).
  assert (I : length (files_modified example_world) <= changes_made example_world)
    by (vm_compute; lia).
  refine (conj E (conj I _)).
  exact (summary_bounds example_root [broken_file; good_file] example_world w' E I).
Defined.

End CountClaims.

(** ** Empty code blocks *)
Module EmptyBlockProps.
Import Py PyFacts Re ReFacts FixMdx Vocabulary ReProps PkgRuleFacts.
Local Open Scope py_scope.

Lemma moved_nil (st : cursor) : moved st [] (rest st) = st.
Proof. now destruct st. Qed.

Lemma moved_moved (st : cursor) (a b t u : str) :
  moved (moved st a t) b u = moved st (a ++ b) u.
Proof.
  unfold moved. cbn [seen groups]. now rewrite rev_app_distr, <- app_assoc.
Qed.

Lemma eat_moved (st : cursor) (c : char) (t : str) :
  eat c t st = moved st [c] t.
Proof. reflexivity. Qed.

(** A greedy star over a class gives back its last character when the
    continuation rejects the end of the run and accepts one character
    earlier. *)
Lemma star_class_gives_back (p : char -> bool) (k : cursor -> option cursor) :
  forall q st n c d t m,
    rest st = q ++ c :: d :: t ->
    forallb p q = true -> p c = true -> p d = false ->
    length (rest st) <= n ->
    k (moved st (q ++ [c]) (d :: t)) = None ->
    k (moved st q (c :: d :: t)) = Some m ->
    star_iter (run (Cls p)) k n st = Some m.
Proof.
  induction q as [|a q IH]; intros st n c d t m Hr Hq Hc Hd Hn Hend Hk.
  - cbn [app] in *. rewrite <- Hr, moved_nil in Hk.
    destruct n as [|n]; [rewrite Hr in Hn; cbn in Hn; lia|].
    rewrite star_iter_S, run_Cls, Hr, Hc. cbn [eat rest].
    replace (Nat.ltb (length (d :: t)) (length (c :: d :: t))) with true
      by (symmetry; apply Nat.ltb_lt; cbn; lia).
    assert (E : star_iter (run (Cls p)) k n (eat c (d :: t) st) = None).
    { rewrite eat_moved. destruct n as [|n]; [exact Hend|].
      rewrite star_iter_S, run_Cls. cbn [moved rest]. rewrite Hd. exact Hend. }
    rewrite E. exact Hk.
  - cbn [forallb] in Hq. apply andb_prop in Hq as [Ha Hq].
    destruct n as [|n]; [rewrite Hr in Hn; cbn in Hn; lia|].
    rewrite star_iter_S, run_Cls, Hr. cbn [app]. rewrite Ha. cbn [eat rest].
    replace (Nat.ltb (length (q ++ c :: d :: t)) (length (a :: q ++ c :: d :: t)))
      with true by (symmetry; apply Nat.ltb_lt; cbn; lia).
    rewrite (IH (eat a (q ++ c :: d :: t) st) n c d t m); try reflexivity;
      try assumption.
    + rewrite Hr in Hn. cbn in *. lia.
    + rewrite eat_moved, moved_moved. exact Hend.
    + rewrite eat_moved, moved_moved. exact Hk.
Qed.

Lemma isspace_NL : isspace NL = true.
Proof. reflexivity. Qed.

Lemma forallb_repeat_NL (n : nat) : forallb isspace (repeat NL n) = true.
Proof. induction n; cbn [repeat forallb]; [reflexivity|]. now rewrite IHn. Qed.

Lemma repeat_snoc {A} (x : A) (n : nat) : repeat x n ++ [x] = x :: repeat x n.
Proof. induction n; cbn; [reflexivity|]. now rewrite IHn. Qed.

Local Abbreviation blank_group := (Grp 1 (Seq [spaces; Chr NL])).
Local Abbreviation closing :=
  (fun s : cursor => run (Lit FENCE) s (fun s1 => run Eps s1 (fun s2 => Some s2))).

(** No further group [(\s*\n)] starts at a fence. *)
Lemma blank_group_stops (st : cursor) (k : cursor -> option cursor) (t : str) :
  rest st = FENCE ++ t -> run blank_group st k = None.
Proof.
  intros Hr. unfold Seq, spaces. cbn [fold_right run].
  rewrite Hr. change (FENCE ++ t) with (96%N :: 96%N :: 96%N :: t).
  cbn [length]. rewrite star_iter_S. cbv beta. rewrite Hr.
  change (FENCE ++ t) with (96%N :: 96%N :: 96%N :: t).
  cbv iota. change (isspace 96%N) with false. cbv iota. reflexivity.
Qed.

(** At a fence the iteration stops and the closing fence is read. *)
Lemma blank_star_nil (st : cursor) (t : str) (n : nat) :
  rest st = FENCE ++ t ->
  star_iter (run blank_group) closing n st = Some (moved st FENCE t).
Proof.
  intros Hr. destruct n as [|n].
  - cbn [star_iter]. rewrite (run_Lit_ok FENCE st _ t Hr). reflexivity.
  - rewrite star_iter_S, (blank_group_stops st _ t Hr).
    rewrite (run_Lit_ok FENCE st _ t Hr). reflexivity.
Qed.

(** The iteration of [(\s*\n)] passes over blank lines up to a fence. *)
Lemma blank_star (st : cursor) (b t : str) (n : nat) :
  blank_lines b -> rest st = b ++ FENCE ++ t -> length (rest st) <= n ->
  exists m,
    star_iter (run blank_group) closing n st = Some m /\
    seen m = rev (b ++ FENCE) ++ seen st.
Proof.
  intros [->|(q & Hq & ->)] Hr Hn.
  - exists (moved st FENCE t). split; [now apply blank_star_nil|reflexivity].
  - rewrite <- app_assoc in Hr. cbn [app] in Hr.
    destruct n as [|n]; [rewrite Hr, length_app in Hn; cbn in Hn; lia|].
    set (st3 := set_group 1 (span st (eat NL (FENCE ++ t) (moved st q (NL :: FENCE ++ t))))
                  (eat NL (FENCE ++ t) (moved st q (NL :: FENCE ++ t)))).
    exists (moved st3 FENCE t). split.
    + rewrite star_iter_S.
      assert (E : run blank_group st
                    (fun st1 => if Nat.ltb (length (rest st1)) (length (rest st))
                                then star_iter (run blank_group) closing n st1
                                else None)
                  = Some (moved st3 FENCE t)).
      { unfold Seq, spaces. cbn [fold_right run].
        apply (star_class_gives_back isspace _ q st _ NL 96%N (lit "``" ++ t)).
        - exact Hr.
        - exact Hq.
        - reflexivity.
        - reflexivity.
        - apply Nat.le_refl.
        - reflexivity.
        - change ((if Nat.ltb (length (rest st3)) (length (rest st))
                   then star_iter (run blank_group) closing n st3 else None)
                  = Some (moved st3 FENCE t)).
          assert (L : Nat.ltb (length (rest st3)) (length (rest st)) = true).
          { apply Nat.ltb_lt. rewrite Hr. unfold st3.
            cbn [set_group eat rest]. rewrite !length_app. cbn [length].
            rewrite !length_app. lia. }
          rewrite L. apply blank_star_nil. reflexivity. }
      rewrite E. reflexivity.
    + unfold st3. cbn [moved set_group eat seen].
      rewrite !rev_app_distr. cbn [rev app]. rewrite <- !app_assoc. reflexivity.
Qed.

(** The pattern of line 262 at an empty block. *)
Lemma blank_block_match (before b t : str) :
  blank_lines b ->
  exists m,
    match_at re_blank_block before (FENCE ++ NL :: b ++ FENCE ++ t) = Some m /\
    length (seen m) - length before = length (FENCE ++ NL :: b ++ FENCE).
Proof.
  intros Hb. unfold match_at, re_blank_block, Seq. cbn [fold_right run].
  set (st0 := start_at before (FENCE ++ NL :: b ++ FENCE ++ t)).
  rewrite (run_Lit_ok FENCE st0 _ (NL :: b ++ FENCE ++ t)) by reflexivity.
  cbn [moved rest]. rewrite N.eqb_refl.
  set (st2 := eat NL (b ++ FENCE ++ t) _).
  destruct (blank_star st2 b t (length (rest st2)) Hb eq_refl (Nat.le_refl _))
    as (m & Hm & Hs).
  exists m. split; [exact Hm|].
  rewrite Hs. unfold st2, st0. cbn [eat moved start_at seen].
  repeat (rewrite ?length_app, ?length_rev; cbn [length]). lia.
Qed.

(** Before the first backtick nothing matches. *)
Lemma blank_block_prefix (x : str) :
  ~ In BACKTICK x ->
  forall before tail,
    sub_tpl re_blank_block [] before (x ++ tail) 0
    = x ++ sub_tpl re_blank_block [] (rev x ++ before) tail 0.
Proof.
  induction x as [|c x IH]; intros Hx before tail; [reflexivity|].
  cbn [app sub_tpl].
  assert (E : match_at re_blank_block before (c :: x ++ tail) = None).
  { unfold match_at, re_blank_block, Seq. cbn [fold_right run].
    apply run_Lit_fail. cbn [start_at rest].
    change FENCE with [96%N; 96%N; 96%N]. cbn [startswith].
    destruct (c =? 96)%N eqn:C; [|reflexivity].
    exfalso. apply Hx. left. now apply N.eqb_eq. }
  rewrite E. rewrite (IH (not_in_tail _ _ _ Hx)).
  cbn [rev]. now rewrite <- app_assoc.
Qed.

End EmptyBlockProps.

Section EmptyBlockClaims.
Import Py PyFacts Re ReFacts FixMdx Vocabulary ReProps PkgRuleFacts EmptyBlockProps.
Local Open Scope py_scope.

(** X23: an empty code block is removed.  A fence, a newline, then nothing
    or white space that ends with a newline, then a fence: in a text that
    holds no other backtick, [remove_empty_code_blocks] deletes exactly
    these characters and keeps what stands before and after them. *)
Theorem empty_block_removed (x b y : str) :
  ~ In BACKTICK x -> ~ In BACKTICK y -> blank_lines b ->
  remove_empty_code_blocks (x ++ FENCE ++ NL :: b ++ FENCE ++ y) = x ++ y.
Proof.
  intros Hx Hy Hb. unfold remove_empty_code_blocks.
  assert (E : re_sub re_blank_block [] (x ++ FENCE ++ NL :: b ++ FENCE ++ y) = x ++ y).
  { unfold re_sub. rewrite (blank_block_prefix x Hx). f_equal.
    destruct (blank_block_match (rev x ++ []) b y Hb) as (m & Hm & Hl).
    change (FENCE ++ NL :: b ++ FENCE ++ y)
      with (96%N :: lit "``" ++ NL :: b ++ FENCE ++ y) in *.
    cbn [sub_tpl]. rewrite Hm, Hl.
    change (length (FENCE ++ NL :: b ++ FENCE))
      with (S (length (lit "``" ++ NL :: b ++ FENCE))).
    cbv iota. cbn [expand flat_map].
    replace (lit "``" ++ NL :: b ++ FENCE ++ y)
      with ((lit "``" ++ NL :: b ++ FENCE) ++ y)
      by (change (lit "``") with [96%N; 96%N]; cbn [app];
          now rewrite <- app_assoc).
    rewrite sub_tpl_skip.
    apply (needs_sub BACKTICK); [reflexivity|exact Hy]. }
  rewrite E.
  apply (needs_sub BACKTICK); [reflexivity|].
  intros H. apply in_app_or in H as [H|H]; auto.
Qed.

Lemma empty_block_removed_witness :
  remove_empty_code_blocks (lit "a" ++ FENCE ++ NL :: [NL] ++ FENCE ++ lit "b")
  = lit "a" ++ lit "b".
Proof.
  apply (empty_block_removed (lit "a") [NL] (lit "b")).
  - vm_compute. intuition discriminate.
  - vm_compute. intuition discriminate.
  - right. exists []. split; reflexivity.
Defined.

End EmptyBlockClaims.

(** ** Runs of the scanner on a fragmented block *)
Module MergeProps.
Import Py PyFacts Re FixMdx ScannerFacts ScannerProps Vocabulary ScannerShape.
Local Open Scope py_scope.

Lemma nth_error_middle {A} (pre : list A) (x : A) (post : list A) :
  nth_error (pre ++ x :: post) (length pre) = Some x.
Proof. rewrite nth_error_app2, Nat.sub_diag by lia. reflexivity. Qed.

Lemma index_in_range {A} (l : list A) (i : nat) (x : A) :
  nth_error l i = Some x -> Nat.ltb i (length l) = true.
Proof. intros H. apply Nat.ltb_lt, nth_error_Some. congruence. Qed.

Lemma length_snoc {A} (pre : list A) (x : A) : length (pre ++ [x]) = length pre + 1.
Proof. now rewrite length_app. Qed.

(** *** Single steps of the main loop *)

Lemma main_loop_plain (lines : list str) (i : nat) (l : str) (fuel : nat)
  (in_code_block : bool) (code_lang : option str) (result : list str) (merges : nat) :
  nth_error lines i = Some l -> is_fence_line l = false ->
  main_loop (S fuel) lines i in_code_block code_lang result merges
  = main_loop fuel lines (i + 1) in_code_block code_lang (result ++ [l]) merges.
Proof.
  intros Hl Hf. cbn [main_loop].
  rewrite (index_in_range _ _ _ Hl), (getitem_nth _ _ _ Hl). cbn [bind].
  unfold is_fence_line in Hf. now rewrite Hf.
Qed.

Lemma main_loop_open (lines : list str) (i : nat) (l : str) :
  nth_error lines i = Some l -> opens_block l ->
  exists word, forall fuel in_code_block code_lang result merges,
    main_loop (S fuel) lines i in_code_block code_lang result merges
    = main_loop fuel lines (i + 1) true (Some word) (result ++ [l]) merges.
Proof.
  intros Hl [Hf Hlang].
  destruct (has_language_ret (strip (slice_from (strip l) 3))) as (b & Hb & Hne).
  assert (b = true) by congruence. subst b.
  destruct (Hne eq_refl) as (c & t & Hr).
  destruct (first_word (slice_from (strip l) 3)) as [w Hw]; [rewrite Hr; discriminate|].
  exists w. intros fuel in_code_block code_lang result merges. cbn [main_loop].
  rewrite (index_in_range _ _ _ Hl), (getitem_nth _ _ _ Hl). cbn [bind].
  unfold is_fence_line in Hf. rewrite Hf, Hlang. cbn [bind]. now rewrite Hw.
Qed.

Lemma main_loop_close (lines : list str) (i : nat) (l : str) (fuel : nat)
  (code_lang : option str) (result : list str) (merges j : nat)
  (orphan_code : list str) :
  nth_error lines i = Some l -> bare_fence l ->
  lookahead fuel lines i = Ret (j, orphan_code) -> orphan_code <> [] ->
  main_loop (S fuel) lines i true code_lang result merges
  = main_loop fuel lines j false None ((result ++ orphan_code) ++ [FENCE]) (merges + 1).
Proof.
  intros Hl [Hf Hr] Hla Hne. cbn [main_loop].
  rewrite (index_in_range _ _ _ Hl), (getitem_nth _ _ _ Hl). cbn [bind].
  unfold is_fence_line in Hf. rewrite Hf, Hr.
  unfold has_language. cbn [truthy bind str_eqb andb].
  rewrite str_eqb_refl. cbn [andb]. rewrite Hla. cbn [bind].
  destruct orphan_code; [contradiction|reflexivity].
Qed.

Lemma main_loop_done (lines : list str) (i fuel : nat)
  (in_code_block : bool) (code_lang : option str) (result : list str) (merges : nat) :
  length lines <= i ->
  main_loop (S fuel) lines i in_code_block code_lang result merges
  = Ret (result, merges).
Proof.
  intros H. cbn [main_loop].
  replace (Nat.ltb i (length lines)) with false; [reflexivity|].
  symmetry. apply Nat.ltb_ge. exact H.
Qed.

Lemma no_fence_inv (l : str) (ls : list str) :
  no_fence (l :: ls) -> is_fence_line l = false /\ no_fence ls.
Proof.
  unfold no_fence. cbn [filter]. destruct (is_fence_line l); [discriminate|auto].
Qed.

(** Lines without a fence marker are copied. *)
Lemma main_loop_copy (lines : list str) :
  forall body pre post fuel in_code_block code_lang result merges,
    lines = pre ++ body ++ post -> no_fence body ->
    main_loop (length body + fuel) lines (length pre) in_code_block code_lang
      result merges
    = main_loop fuel lines (length pre + length body) in_code_block code_lang
        (result ++ body) merges.
Proof.
  induction body as [|l body IH];
    intros pre post fuel in_code_block code_lang result merges Hlines Hn.
  - cbn [length]. now rewrite Nat.add_0_r, app_nil_r.
  - apply no_fence_inv in Hn as [Hl Hn]. cbn [length Nat.add].
    rewrite (main_loop_plain lines (length pre) l).
    + rewrite <- length_snoc with (x := l).
      rewrite (IH (pre ++ [l]) post).
      * rewrite length_snoc, <- app_assoc. cbn [app].
        now replace (length pre + 1 + length body) with (length pre + S (length body))
          by lia.
      * rewrite Hlines, <- app_assoc. reflexivity.
      * exact Hn.
    + rewrite Hlines. cbn [app]. apply nth_error_middle.
    + exact Hl.
Qed.

(** *** The lookahead *)

Lemma blank_loop_stop (lines : list str) (j : nat) (l : str) (fuel blank_count : nat) :
  nth_error lines j = Some l -> strip l <> [] ->
  blank_loop (S fuel) lines j blank_count = Ret (j, blank_count).
Proof.
  intros Hl Hs. cbn [blank_loop].
  rewrite (index_in_range _ _ _ Hl), (getitem_nth _ _ _ Hl). cbn [bind].
  apply truthy_true in Hs. now rewrite Hs.
Qed.

Lemma blank_loop_skip (lines : list str) (j : nat) (b : str) (fuel blank_count : nat) :
  nth_error lines j = Some b -> strip b = [] ->
  blank_loop (S fuel) lines j blank_count
  = blank_loop fuel lines (j + 1) (blank_count + 1).
Proof.
  intros Hl Hs. cbn [blank_loop].
  rewrite (index_in_range _ _ _ Hl), (getitem_nth _ _ _ Hl). cbn [bind].
  now rewrite Hs.
Qed.

(** Once a run has started, the orphan loop appends every line it may
    append and stops where [stops_run] says. *)
Lemma orphan_loop_run (lines : list str) :
  forall more pre tail acc fuel,
    lines = pre ++ more ++ tail -> acc <> [] ->
    Forall orphan_ok more -> stops_run tail -> length more < fuel ->
    orphan_loop fuel lines (length pre) acc
    = Ret (length pre + length more, acc ++ more).
Proof.
  induction more as [|l more IH]; intros pre tail acc fuel Hlines Hacc Hok Hstop Hfuel;
    (destruct fuel as [|fuel]; [lia|]); cbn [orphan_loop].
  - cbn [app length] in *. rewrite Nat.add_0_r, app_nil_r.
    destruct tail as [|t tail].
    + rewrite Hlines, app_nil_r, Nat.ltb_irrefl. reflexivity.
    + assert (Ht : nth_error lines (length pre) = Some t)
        by (rewrite Hlines; apply nth_error_middle).
      rewrite (index_in_range _ _ _ Ht), (getitem_nth _ _ _ Ht). cbn [bind].
      destruct (startswith (strip t) (lit "#")) eqn:A; [reflexivity|].
      destruct (startswith (strip t) FENCE) eqn:B; [reflexivity|].
      cbn [orb]. destruct (is_markdown_text t) eqn:C; [reflexivity|].
      exfalso. apply Hstop. now repeat split.
  - assert (Hl : nth_error lines (length pre) = Some l)
      by (rewrite Hlines; cbn [app]; apply nth_error_middle).
    rewrite (index_in_range _ _ _ Hl), (getitem_nth _ _ _ Hl). cbn [bind].
    inversion Hok as [|? ? (A & B & C) Hok']; subst.
    unfold is_fence_line in B. rewrite A, B, C. cbn [orb].
    assert (T1 : truthy acc = true) by (now apply truthy_true).
    assert (T2 : truthy (strip l) = true)
      by (now apply truthy_true, blank_not_markdown_free).
    rewrite T1, T2. cbn [andb].
    assert (E : orphan_loop fuel (pre ++ (l :: more) ++ tail) (length pre + 1)
                  (acc ++ [l])
                = Ret (length pre + length (l :: more), acc ++ l :: more)).
    { rewrite <- length_snoc with (x := l).
      rewrite (IH (pre ++ [l]) tail (acc ++ [l]) fuel).
      - rewrite length_snoc, <- app_assoc. cbn [app length].
        now replace (length pre + 1 + length more) with (length pre + S (length more))
          by lia.
      - rewrite <- !app_assoc. reflexivity.
      - now destruct acc.
      - exact Hok'.
      - exact Hstop.
      - cbn [length] in Hfuel. lia. }
    rewrite E. now destruct (is_code_continuation l acc).
Qed.

(** A first line that passes the code-continuation heuristic starts the
    run. *)
Lemma orphan_loop_start (lines : list str) (pre : list str) (first : str)
  (more tail : list str) (fuel : nat) :
  lines = pre ++ (first :: more) ++ tail ->
  is_code_continuation first [] = true ->
  Forall orphan_ok (first :: more) -> stops_run tail ->
  length (first :: more) < fuel ->
  orphan_loop fuel lines (length pre) []
  = Ret (length pre + length (first :: more), first :: more).
Proof.
  intros Hlines Hc Hok Hstop Hfuel.
  destruct fuel as [|fuel]; [lia|]. cbn [orphan_loop].
  assert (Hl : nth_error lines (length pre) = Some first)
    by (rewrite Hlines; cbn [app]; apply nth_error_middle).
  rewrite (index_in_range _ _ _ Hl), (getitem_nth _ _ _ Hl). cbn [bind].
  inversion Hok as [|? ? (A & B & C) Hok']; subst.
  unfold is_fence_line in B. rewrite A, B, C, Hc. cbn [orb app].
  rewrite <- length_snoc with (x := first).
  rewrite (orphan_loop_run _ more (pre ++ [first]) tail [first] fuel).
  - rewrite length_snoc. cbn [app length].
    now replace (length pre + 1 + length more) with (length pre + S (length more))
      by lia.
  - rewrite <- !app_assoc. reflexivity.
  - discriminate.
  - exact Hok'.
  - exact Hstop.
  - cbn [length] in Hfuel. lia.
Qed.

(** The lookahead at a fence that is followed, after at most one blank
    line, by a run of orphans. *)
Lemma lookahead_run (pre : list str) (fence : str) (gap : list str) (first : str)
  (more tail : list str) (fuel : nat) :
  Forall blank gap -> length gap <= 1 ->
  is_code_continuation first [] = true ->
  Forall orphan_ok (first :: more) -> stops_run tail ->
  length gap + length (first :: more) < fuel ->
  lookahead fuel (pre ++ fence :: gap ++ (first :: more) ++ tail) (length pre)
  = Ret (length pre + 1 + length gap + length (first :: more), first :: more).
Proof.
  intros Hgap Hlen Hc Hok Hstop Hfuel.
  assert (Hnb : strip first <> []).
  { inversion Hok as [|? ? (_ & _ & C) _]; subst. now apply blank_not_markdown_free. }
  unfold lookahead.
  destruct gap as [|b [|b' gap]]; [| |cbn [length] in Hlen; lia].
  - cbn [app length] in *.
    set (lines := pre ++ fence :: first :: more ++ tail).
    assert (Hlines : lines = (pre ++ [fence]) ++ (first :: more) ++ tail)
      by (unfold lines; rewrite <- app_assoc; reflexivity).
    assert (H1 : nth_error lines (length pre + 1) = Some first).
    { rewrite Hlines, <- length_snoc with (x := fence). cbn [app].
      apply nth_error_middle. }
    destruct fuel as [|fuel]; [lia|].
    rewrite (blank_loop_stop _ _ _ _ _ H1 Hnb). cbn [bind Nat.leb andb].
    rewrite (index_in_range _ _ _ H1).
    rewrite <- length_snoc with (x := fence).
    rewrite (orphan_loop_start lines (pre ++ [fence]) first more tail (S fuel)
               Hlines Hc Hok Hstop).
    + rewrite length_snoc. cbn [length]. do 2 f_equal; lia.
    + cbn [length]. lia.
  - cbn [app length] in *.
    inversion Hgap as [|? ? Hb _]; subst.
    set (lines := pre ++ fence :: b :: first :: more ++ tail).
    assert (Hlines : lines = (pre ++ [fence; b]) ++ (first :: more) ++ tail)
      by (unfold lines; rewrite <- app_assoc; reflexivity).
    assert (L2 : length (pre ++ [fence; b]) = length pre + 1 + 1)
      by (rewrite length_app; cbn [length]; lia).
    assert (H1 : nth_error lines (length pre + 1) = Some b).
    { unfold lines.
      replace (pre ++ fence :: b :: first :: more ++ tail)
        with ((pre ++ [fence]) ++ b :: first :: more ++ tail)
        by (rewrite <- app_assoc; reflexivity).
      rewrite <- length_snoc with (x := fence). apply nth_error_middle. }
    assert (H2 : nth_error lines (length pre + 1 + 1) = Some first).
    { rewrite Hlines, <- L2. cbn [app]. apply nth_error_middle. }
    destruct fuel as [|[|fuel]]; [lia|lia|].
    rewrite (blank_loop_skip _ _ _ _ _ H1 Hb).
    rewrite (blank_loop_stop _ _ _ _ _ H2 Hnb). cbn [bind Nat.add Nat.leb andb].
    rewrite (index_in_range _ _ _ H2).
    rewrite <- L2.
    rewrite (orphan_loop_start lines (pre ++ [fence; b]) first more tail (S (S fuel))
               Hlines Hc Hok Hstop).
    + rewrite L2. cbn [length]. do 2 f_equal; lia.
    + cbn [length]. lia.
Qed.

End MergeProps.

Section MergeClaims.
Import Py PyFacts Re FixMdx ScannerFacts ScannerProps Vocabulary ScannerShape MergeProps.
Local Open Scope py_scope.

(** X24: what the lookahead finds.  At a fence that is followed, after at
    most one blank line, by a line that passes the code-continuation
    heuristic and by further lines that are neither headings, fence-marker
    lines nor markdown text, the lookahead returns exactly these lines, up
    to the end of the text or to the first line that is a heading, a
    fence-marker line or markdown text; whether the further lines look like
    code does not matter. *)
Theorem lookahead_finds_run (pre : list str) (fence : str) (gap : list str)
  (first : str) (more tail : list str) (fuel : nat) :
  Forall blank gap -> length gap <= 1 ->
  is_code_continuation first [] = true ->
  Forall orphan_ok (first :: more) -> stops_run tail ->
  length gap + length (first :: more) < fuel ->
  lookahead fuel (pre ++ fence :: gap ++ (first :: more) ++ tail) (length pre)
  = Ret (length pre + 1 + length gap + length (first :: more), first :: more).
Proof. exact (lookahead_run pre fence gap first more tail fuel). Qed.

Lemma lookahead_finds_run_witness :
  lookahead 4
    (map lit ["```go"; "x"]%string ++
     lit "```" :: [lit ""] ++ (lit "}" :: [lit "foo bar"]) ++ [lit "# Next"])
    (length (map lit ["```go"; "x"]%string))
  = Ret (length (map lit ["```go"; "x"]%string) + 1 + length [lit ""]
         + length (lit "}" :: [lit "foo bar"]),
         lit "}" :: [lit "foo bar"]).
Proof.
  apply (lookahead_finds_run (map lit ["```go"; "x"]%string) (lit "```") [lit ""]
           (lit "}") [lit "foo bar"] [lit "# Next"] 4).
  - repeat constructor.
  - cbn [length]. lia.
  - vm_compute. reflexivity.
  - repeat constructor; vm_compute; reflexivity.
  - cbn [stops_run]. intros (A & _). vm_compute in A. discriminate.
  - cbn [length]. lia.
Defined.

(** X25: the repair.  A block opened by a fence with a language tag, whose
    closing fence is followed, after at most one blank line, by a run of
    orphan lines (the first passes the code-continuation heuristic, none is
    a heading, a fence-marker line or markdown text), and then by lines
    without a fence marker the first of which ends the run: the scanner
    moves the orphans into the block, drops the blank line, writes a fresh
    fence marker in place of the closing fence, and copies everything
    else. *)
Theorem orphans_merged (opener : str) (body : list str) (fence : str)
  (gap : list str) (first : str) (more tail : list str) :
  Forall (fun l => ~ In NL l) (fragmented opener body fence gap (first :: more) tail) ->
  opens_block opener -> no_fence body -> bare_fence fence ->
  Forall blank gap -> length gap <= 1 ->
  is_code_continuation first [] = true ->
  Forall orphan_ok (first :: more) ->
  stops_run tail -> no_fence tail ->
  fix_fragmented_blocks
    (join [NL] (fragmented opener body fence gap (first :: more) tail))
  = Ret (join [NL] (repaired opener body (first :: more) tail)).
Proof.
  intros Hnl Hopen Hbody Hfence Hgap Hlen Hc Hok Hstop Htail.
  set (lines := fragmented opener body fence gap (first :: more) tail) in *.
  unfold fix_fragmented_blocks, fix_fragmented_blocks_fuel, scan.
  rewrite (split_join NL lines) by (discriminate || exact Hnl).
  assert (Hn : length lines
               = length body
                 + S (length tail + S (length gap + length (first :: more)))).
  { unfold lines, fragmented. repeat (rewrite ?length_app; cbn [length]). lia. }
  rewrite Hn.
  (* the opening fence *)
  destruct (main_loop_open lines 0 opener eq_refl Hopen) as [w Hw].
  rewrite Hw. cbn [app Nat.add].
  (* the body *)
  change 1 with (length [opener]).
  rewrite (main_loop_copy lines body [opener] (fence :: gap ++ (first :: more) ++ tail))
    by (reflexivity || exact Hbody).
  (* the closing fence and the lookahead *)
  assert (Hi : length [opener] + length body = length (opener :: body))
    by reflexivity.
  rewrite Hi.
  assert (Hf : nth_error lines (length (opener :: body)) = Some fence).
  { unfold lines, fragmented.
    change (opener :: body ++ fence :: gap ++ (first :: more) ++ tail)
      with ((opener :: body) ++ fence :: gap ++ (first :: more) ++ tail).
    apply nth_error_middle. }
  assert (Hla : lookahead (length tail + S (length gap + length (first :: more)))
                  lines (length (opener :: body))
                = Ret (length (opener :: body) + 1 + length gap
                       + length (first :: more), first :: more)).
  { unfold lines, fragmented.
    change (opener :: body ++ fence :: gap ++ (first :: more) ++ tail)
      with ((opener :: body) ++ fence :: gap ++ (first :: more) ++ tail).
    apply lookahead_run; try assumption. lia. }
  rewrite (main_loop_close lines _ fence _ _ _ _ _ _ Hf Hfence Hla)
    by discriminate.
  (* the rest of the text *)
  assert (Hpre : length (opener :: body) + 1 + length gap + length (first :: more)
                 = length ((opener :: body) ++ fence :: gap ++ (first :: more))).
  { repeat (rewrite ?length_app; cbn [length]). lia. }
  rewrite Hpre.
  rewrite (main_loop_copy lines tail
             ((opener :: body) ++ fence :: gap ++ (first :: more)) []).
  - rewrite main_loop_done.
    + cbn [bind]. do 2 f_equal. unfold repaired.
      repeat (rewrite <- ?app_assoc; cbn [app]). reflexivity.
    + rewrite <- Hpre, Hn. cbn [length]. lia.
  - unfold lines, fragmented. rewrite app_nil_r.
    repeat (rewrite <- ?app_assoc; cbn [app]). reflexivity.
  - exact Htail.
Qed.

Lemma orphans_merged_witness :
  fix_fragmented_blocks
    (join [NL] (fragmented (lit "```go") [lit "func f() {"] (lit "  ```") [lit ""]
                  (lit "}" :: [lit "foo bar"]) [lit "# Next"; lit "text"]))
  = Ret (join [NL] (repaired (lit "```go") [lit "func f() {"]
                      (lit "}" :: [lit "foo bar"]) [lit "# Next"; lit "text"])).
Proof.
  apply (orphans_merged (lit "```go") [lit "func f() {"] (lit "  ```") [lit ""]
           (lit "}") [lit "foo bar"] [lit "# Next"; lit "text"]).
  - repeat constructor; vm_compute; intuition discriminate.
  - split; vm_compute; reflexivity.
  - reflexivity.
  - split; vm_compute; reflexivity.
  - repeat constructor.
  - cbn [length]. lia.
  - vm_compute. reflexivity.
  - repeat constructor; vm_compute; reflexivity.
  - cbn [stops_run]. intros (A & _). vm_compute in A. discriminate.
  - reflexivity.
Defined.

End MergeClaims.

(** ** A second run of the scanner *)
Module SecondRun.
Import Py PyFacts Re FixMdx ScannerFacts ScannerProps Vocabulary ScannerShape MergeProps.
Local Open Scope py_scope.


Lemma starts_run_blank (l : str) : strip l = [] -> starts_run l = false.
Proof.
  intros H. unfold starts_run, may_append, is_markdown_text. rewrite H. cbn.
  now rewrite !andb_false_r.
Qed.



(** *** Where the orphan loop stops *)




(** *** When the lookahead finds a run, and when it finds none *)




(** *** Further steps of the main loop *)



(** *** Lines that a second run copies *)








Lemma fixes_not_nil (ls out : list str) : fixes ls out -> ls <> [] -> out <> [].
Proof.
  intros H Hne. destruct H; [contradiction|discriminate|].
  intros G. apply app_eq_nil in G as [_ G]. discriminate.
Qed.


End SecondRun.

Section SecondRunClaims.
Import Py PyFacts Re FixMdx ScannerFacts ScannerProps Vocabulary SecondRun.
Local Open Scope py_scope.



End SecondRunClaims.

(** ** Empty code blocks in a tidy text *)
Module TidyProps.
Import Py PyFacts Re ReFacts FixMdx ScannerFacts ScannerProps Vocabulary ReProps
       PkgRuleFacts EmptyBlockProps.
Local Open Scope py_scope.

Local Abbreviation ws := (forallb isspace).

(** *** Text without a run of three backticks *)

Lemma isspace_not_backtick (c : char) :
  isspace c = true -> (c =? BACKTICK)%N = false.
Proof.
  intros H. destruct (c =? BACKTICK)%N eqn:C; [|reflexivity].
  apply N.eqb_eq in C. subst c. vm_compute in H. discriminate.
Qed.

Lemma ws_head (w s q : str) :
  w <> [] -> ws w = true -> startswith (w ++ s) (BACKTICK :: q) = false.
Proof.
  destruct w as [|a w]; [contradiction|]. intros _ H.
  cbn [forallb] in H. apply andb_prop in H as [Ha _].
  cbn [app startswith]. now rewrite (isspace_not_backtick a Ha).
Qed.

Lemma no_fence_text_suffix (u v : str) :
  no_fence_text (u ++ v) = true -> no_fence_text v = true.
Proof.
  induction u as [|a u IH]; [trivial|]. cbn [app no_fence_text].
  intros H. apply andb_prop in H as [_ H]. now apply IH.
Qed.

Lemma startswith_more (s p b : str) :
  startswith s p = true -> startswith (s ++ b) p = true.
Proof.
  revert s. induction p as [|c p IH]; intros s H.
  - destruct (s ++ b); reflexivity.
  - destruct s as [|d s]; [discriminate|]. cbn [app startswith] in *.
    apply andb_prop in H as [H1 H2]. now rewrite H1, IH.
Qed.

Lemma startswith_longer (s a b : str) :
  startswith s a = false -> startswith s (a ++ b) = false.
Proof.
  revert s. induction a as [|c a IH]; intros s H.
  - destruct s; discriminate.
  - destruct s as [|d s]; [reflexivity|]. cbn [app startswith] in *.
    destruct (d =? c)%N; [|reflexivity]. cbn [andb] in *. now apply IH.
Qed.


(** A text without such a run, followed by nothing or by a newline, does
    not begin with one. *)
Lemma no_fence_text_here (v tail : str) :
  no_fence_text v = true -> tail = [] \/ (exists z, tail = NL :: z) ->
  startswith (v ++ tail) FENCE = false.
Proof.
  intros Hv Ht. change FENCE with [BACKTICK; BACKTICK; BACKTICK] in *.
  destruct v as [|a [|b [|c v]]]; cbn [app startswith].
  - destruct Ht as [->|(z & ->)]; reflexivity.
  - destruct (a =? BACKTICK)%N; [|reflexivity].
    destruct Ht as [->|(z & ->)]; reflexivity.
  - destruct (a =? BACKTICK)%N; [|reflexivity].
    destruct (b =? BACKTICK)%N; [|reflexivity].
    destruct Ht as [->|(z & ->)]; reflexivity.
  - cbn [no_fence_text] in Hv.
    change FENCE with [BACKTICK; BACKTICK; BACKTICK] in Hv.
    cbn [startswith] in Hv.
    apply andb_prop in Hv as [Hv _]. apply negb_true_iff in Hv. revert Hv.
    destruct (a =? BACKTICK)%N; [|reflexivity].
    destruct (b =? BACKTICK)%N; [|reflexivity].
    destruct (c =? BACKTICK)%N; [|reflexivity].
    destruct v; discriminate.
Qed.

Lemma lstrip_split (s : str) : exists w, s = w ++ lstrip s /\ ws w = true.
Proof.
  induction s as [|a s IH]; [now exists []|]. cbn [lstrip].
  destruct (isspace a) eqn:E; [|now exists []].
  destruct IH as (w & Hw & Hs). exists (a :: w). split.
  - cbn [app]. now rewrite <- Hw.
  - cbn [forallb]. now rewrite E.
Qed.

Lemma rstrip_split (s : str) : exists w, s = rstrip s ++ w.
Proof.
  unfold rstrip. destruct (lstrip_split (rev s)) as (w & Hw & _).
  exists (rev w). apply (f_equal (@rev char)) in Hw.
  now rewrite rev_involutive, rev_app_distr in Hw.
Qed.

Lemma lstrip_ws (w s : str) : ws w = true -> lstrip (w ++ s) = lstrip s.
Proof.
  induction w as [|a w IH]; [trivial|]. cbn [app forallb lstrip].
  intros H. apply andb_prop in H as [Ha H]. rewrite Ha. now apply IH.
Qed.

Lemma no_fence_text_ws (w t : str) :
  ws w = true -> no_fence_text t = true -> no_fence_text (w ++ t) = true.
Proof.
  induction w as [|a w IH]; [trivial|]. cbn [forallb app].
  intros H Ht. apply andb_prop in H as [Ha H].
  cbn [no_fence_text]. rewrite (IH H Ht).
  change FENCE with [BACKTICK; BACKTICK; BACKTICK]. cbn [startswith].
  now rewrite (isspace_not_backtick a Ha).
Qed.

Lemma ws_no_fence_text (b : str) : ws b = true -> no_fence_text b = true.
Proof.
  intros H. rewrite <- (app_nil_r b). now apply no_fence_text_ws.
Qed.

(** *** Tidy lines and fence-marker lines *)

Lemma tidy_line_cases (l : str) :
  tidy_line l = true ->
  no_fence_text l = true \/
  exists w tag,
    l = w ++ FENCE ++ tag /\ ws w = true /\
    no_fence_text (lit "``" ++ tag) = true.
Proof.
  unfold tidy_line. intros H. apply orb_prop in H as [H|H]; [now left|right].
  apply andb_prop in H as [H1 H2].
  destruct (lstrip_split l) as (w & Hw & Hs).
  destruct (FrontmatterFacts.startswith_split _ _ H1) as [tag E].
  rewrite E in H2, Hw. exists w, tag. repeat split; assumption.
Qed.

Lemma no_fence_text_tidy (l : str) : no_fence_text l = true -> tidy_line l = true.
Proof. intros H. unfold tidy_line. now rewrite H. Qed.

Lemma tidy_line_ws (w l : str) :
  ws w = true -> tidy_line l = true -> tidy_line (w ++ l) = true.
Proof.
  intros Hw H. unfold tidy_line in *. rewrite (lstrip_ws _ _ Hw).
  apply orb_prop in H as [H|H].
  - now rewrite (no_fence_text_ws w l Hw H).
  - rewrite H. apply orb_true_r.
Qed.

Lemma tidy_app (a b : list str) : tidy (a ++ b) = tidy a && tidy b.
Proof. apply forallb_app. Qed.

Lemma rstrip_keeps (x : str) (c : char) (t : str) :
  isspace c = false -> exists u, rstrip (x ++ c :: t) = x ++ c :: u.
Proof.
  intros Hc. unfold rstrip. rewrite rev_app_distr. cbn [rev].
  rewrite <- app_assoc. cbn [app].
  destruct (lstrip_app_nonspace (rev t) c (rev x) Hc) as [u Hu].
  rewrite Hu. exists (rev u).
  rewrite rev_app_distr. cbn [rev]. rewrite rev_involutive, <- app_assoc.
  reflexivity.
Qed.

Lemma fence_then_tag (w tag : str) :
  ws w = true -> is_fence_line (w ++ FENCE ++ tag) = true.
Proof.
  intros Hw. unfold is_fence_line, strip. rewrite (lstrip_ws _ _ Hw).
  change (lstrip (FENCE ++ tag)) with (FENCE ++ tag).
  destruct (rstrip_keeps (lit "``") BACKTICK tag) as [u Hu]; [reflexivity|].
  change (lit "``" ++ BACKTICK :: tag) with (FENCE ++ tag) in Hu.
  rewrite Hu. now destruct u.
Qed.

Lemma is_fence_line_ws (w l : str) :
  ws w = true -> is_fence_line (w ++ l) = is_fence_line l.
Proof. intros H. unfold is_fence_line, strip. now rewrite lstrip_ws. Qed.

Lemma no_fence_text_line (l : str) :
  no_fence_text l = true -> is_fence_line l = false.
Proof.
  intros H. destruct (is_fence_line l) eqn:E; [|reflexivity]. exfalso.
  unfold is_fence_line, strip in E.
  destruct (lstrip_split l) as (w & Hw & _).
  destruct (rstrip_split (lstrip l)) as (w' & Hw').
  rewrite Hw in H. apply no_fence_text_suffix in H. rewrite Hw' in H.
  apply (startswith_more _ _ w') in E.
  destruct (rstrip (lstrip l) ++ w') as [|c t]; [discriminate E|].
  cbn [no_fence_text] in H. rewrite E in H. discriminate.
Qed.

Lemma blank_not_fence (B : list str) :
  Forall (fun l => ws l = true) B -> fences B = 0.
Proof.
  induction 1 as [|b B Hb _ IH]; [reflexivity|].
  unfold fences in *. cbn [filter].
  now rewrite (no_fence_text_line b (ws_no_fence_text b Hb)).
Qed.

Lemma fences_cons_parity (l : str) (a b : list str) :
  Nat.even (fences a) = Nat.even (fences b) ->
  Nat.even (fences (l :: a)) = Nat.even (fences (l :: b)).
Proof.
  intros H. unfold fences in *. cbn [filter].
  destruct (is_fence_line l); [|exact H].
  cbn [length]. rewrite !Nat.even_succ, <- !Nat.negb_even. now rewrite H.
Qed.


(** *** Both patterns begin with a fence and a newline *)

Lemma blank_block_head (before s : str) :
  startswith s (FENCE ++ [NL]) = false -> match_at re_blank_block before s = None.
Proof.
  intros H. unfold match_at, re_blank_block, Seq. cbn [fold_right run].
  destruct (startswith s FENCE) eqn:E.
  - destruct (FrontmatterFacts.startswith_split _ _ E) as [t ->].
    rewrite (run_Lit_ok FENCE _ _ t) by reflexivity. cbn [moved rest].
    destruct t as [|c t]; [reflexivity|].
    destruct (c =? NL)%N eqn:C; [|reflexivity].
    apply N.eqb_eq in C. subst c.
    change (FENCE ++ NL :: t) with ((FENCE ++ [NL]) ++ t) in H.
    rewrite FrontmatterFacts.startswith_app in H. discriminate.
  - now apply run_Lit_fail.
Qed.

Lemma adjacent_fences_head (before s : str) :
  startswith s (FENCE ++ [NL]) = false ->
  match_at re_adjacent_fences before s = None.
Proof.
  intros H. unfold match_at, re_adjacent_fences, Seq. cbn [fold_right run].
  destruct (startswith s FENCE) eqn:E.
  - destruct (FrontmatterFacts.startswith_split _ _ E) as [t ->].
    rewrite (run_Lit_ok FENCE _ _ t) by reflexivity. cbn [moved rest].
    destruct t as [|c t]; [reflexivity|].
    destruct (c =? NL)%N eqn:C; [|reflexivity].
    apply N.eqb_eq in C. subst c.
    change (FENCE ++ NL :: t) with ((FENCE ++ [NL]) ++ t) in H.
    rewrite FrontmatterFacts.startswith_app in H. discriminate.
  - now apply run_Lit_fail.
Qed.

(** *** Where the patterns match *)

Lemma adjacent_fences_match (before t : str) :
  exists m,
    match_at re_adjacent_fences before (FENCE ++ NL :: FENCE ++ t) = Some m /\
    length (seen m) - length before = length (FENCE ++ NL :: FENCE).
Proof.
  unfold match_at, re_adjacent_fences, Seq. cbn [fold_right run].
  set (st0 := start_at before (FENCE ++ NL :: FENCE ++ t)).
  rewrite (run_Lit_ok FENCE st0 _ (NL :: FENCE ++ t)) by reflexivity.
  cbn [moved rest]. rewrite N.eqb_refl.
  set (st2 := eat NL (FENCE ++ t) _).
  rewrite (run_Lit_ok FENCE st2 _ t) by reflexivity.
  eexists. split; [reflexivity|].
  unfold st2, st0. cbn [eat moved start_at seen].
  repeat (rewrite ?length_app, ?length_rev; cbn [length]). lia.
Qed.


(** *** Where they do not *)

(** The iteration of [(\s*\n)] reaches only places behind white space. *)
Lemma spaces_reach (k : cursor -> option cursor) :
  forall n st,
    (forall pre st1, ws pre = true -> rest st = pre ++ rest st1 -> k st1 = None) ->
    star_iter (run (Cls isspace)) k n st = None.
Proof.
  induction n as [|n IH]; intros st Hk.
  - cbn [star_iter]. apply (Hk [] st); reflexivity.
  - rewrite star_iter_S, run_Cls.
    assert (K0 : k st = None) by (apply (Hk [] st); reflexivity).
    destruct (rest st) as [|x t] eqn:Er; [exact K0|].
    destruct (isspace x) eqn:Ex; [|exact K0].
    cbn [eat rest].
    destruct (Nat.ltb (length t) (length (x :: t))); [|exact K0].
    rewrite IH; [exact K0|].
    intros pre st1 Hp Hr. cbn [eat rest] in Hr.
    apply (Hk (x :: pre) st1).
    + cbn [forallb]. now rewrite Ex, Hp.
    + rewrite Hr. reflexivity.
Qed.


(** The iteration of [(\s*\n)] stops only at the start of a line. *)
Lemma blank_star_miss (s : str) :
  (forall u v, s = u ++ v -> ws u = true ->
     u = [] \/ (exists u', u = u' ++ [NL]) -> startswith v FENCE = false) ->
  forall n st u,
    s = u ++ rest st -> ws u = true ->
    u = [] \/ (exists u', u = u' ++ [NL]) ->
    star_iter (run (Grp 1 (Seq [spaces; Chr NL])))
      (fun s0 => run (Lit FENCE) s0 (fun s1 => run Eps s1 (fun s2 => Some s2)))
      n st = None.
Proof.
  intros Hs. induction n as [|n IH]; intros st u Hu Hw Hl.
  - cbn [star_iter]. apply run_Lit_fail. now apply (Hs u).
  - rewrite star_iter_S.
    assert (K0 : run (Lit FENCE) st (fun s1 => run Eps s1 (fun s2 => Some s2)) = None).
    { apply run_Lit_fail. now apply (Hs u). }
    assert (E : run (Grp 1 (Seq [spaces; Chr NL])) st
                  (fun st1 =>
                     if Nat.ltb (length (rest st1)) (length (rest st))
                     then star_iter (run (Grp 1 (Seq [spaces; Chr NL])))
                            (fun s0 => run (Lit FENCE) s0
                                         (fun s1 => run Eps s1 (fun s2 => Some s2)))
                            n st1
                     else None) = None).
    { unfold Seq, spaces. cbn [fold_right run].
      apply spaces_reach. intros pre st1 Hp Hr.
      destruct (rest st1) as [|x t] eqn:E1; [reflexivity|].
      destruct (x =? NL)%N eqn:Ex; [|reflexivity].
      apply N.eqb_eq in Ex. subst x.
      destruct (Nat.ltb _ _); [|reflexivity].
      apply (IH _ (u ++ pre ++ [NL])).
      - cbn [set_group eat rest]. rewrite Hu, Hr, <- !app_assoc. reflexivity.
      - rewrite !forallb_app, Hw, Hp. reflexivity.
      - right. exists (u ++ pre). now rewrite <- app_assoc. }
    rewrite E. exact K0.
Qed.

Lemma blank_block_miss (before s : str) :
  (forall u v, s = u ++ v -> ws u = true ->
     u = [] \/ (exists u', u = u' ++ [NL]) -> startswith v FENCE = false) ->
  match_at re_blank_block before (FENCE ++ NL :: s) = None.
Proof.
  intros Hs. unfold match_at, re_blank_block, Seq. cbn [fold_right run].
  set (st0 := start_at before (FENCE ++ NL :: s)).
  rewrite (run_Lit_ok FENCE st0 _ (NL :: s)) by reflexivity.
  cbn [moved rest]. rewrite N.eqb_refl.
  apply (blank_star_miss s Hs _ _ []); [reflexivity|reflexivity|now left].
Qed.

Lemma adjacent_fences_miss (before s : str) :
  startswith s FENCE = false ->
  match_at re_adjacent_fences before (FENCE ++ NL :: s) = None.
Proof.
  intros Hs. unfold match_at, re_adjacent_fences, Seq. cbn [fold_right run].
  set (st0 := start_at before (FENCE ++ NL :: s)).
  rewrite (run_Lit_ok FENCE st0 _ (NL :: s)) by reflexivity.
  cbn [moved rest]. rewrite N.eqb_refl.
  now apply run_Lit_fail.
Qed.


(** *** Lines and their text *)

Lemma join_cons (l : str) (rest : list str) :
  join [NL] (l :: rest) = l ++ rest_text rest.
Proof. destruct rest; [now rewrite app_nil_r|reflexivity]. Qed.

Lemma join_lines_text (B : list str) (f : str) (rest : list str) :
  join [NL] (B ++ f :: rest) = lines_text B ++ join [NL] (f :: rest).
Proof.
  induction B as [|b B IH]; [reflexivity|].
  cbn [app lines_text flat_map]. rewrite join_cons.
  assert (R : rest_text (B ++ f :: rest) = NL :: join [NL] (B ++ f :: rest))
    by (destruct B; reflexivity).
  rewrite R, IH, <- !app_assoc. reflexivity.
Qed.

Lemma blank_lines_text (B : list str) :
  Forall (fun l => ws l = true) B -> blank_lines (lines_text B).
Proof.
  induction 1 as [|b B Hb _ IH]; [now left|].
  right. cbn [lines_text flat_map]. destruct IH as [E|(q & Hq & E)].
  - exists b. split; [exact Hb|]. unfold lines_text in E. now rewrite E, app_nil_r.
  - exists (b ++ NL :: q). split.
    + rewrite forallb_app, Hb. cbn [forallb]. now rewrite Hq.
    + unfold lines_text in E. rewrite E, <- !app_assoc. reflexivity.
Qed.

(** White space in front cannot reach past a line that holds more than
    white space. *)
Lemma ws_prefix_within :
  forall u w v z,
    u ++ v = w ++ z -> ws u = true -> ws w = false ->
    exists v', v' <> [] /\ w = u ++ v' /\ v = v' ++ z.
Proof.
  induction u as [|a u IH]; intros w v z E Hu Hw.
  - exists w. cbn [app] in *. repeat split; [|exact E].
    intros ->. discriminate.
  - destruct w as [|b w]; [discriminate|].
    cbn [app] in E. inversion E; subst.
    cbn [forallb] in Hu, Hw. apply andb_prop in Hu as [Hb Hu].
    rewrite Hb in Hw. cbn [andb] in Hw.
    destruct (IH w v z H1 Hu Hw) as (v' & N & -> & ->).
    exists v'. repeat split; assumption.
Qed.


(** A white prefix that holds a newline ends behind the first line. *)
Lemma first_newline (b : str) :
  ~ In NL b ->
  forall r u v, b ++ NL :: r = u ++ v -> In NL u ->
    exists u2, u = b ++ NL :: u2 /\ r = u2 ++ v.
Proof.
  induction b as [|c b IH]; intros Hb r u v E Hu.
  - destruct u as [|a u]; [contradiction|]. cbn [app] in E.
    inversion E; subst. now exists u.
  - destruct u as [|a u]; [contradiction|]. cbn [app] in E.
    inversion E; subst. destruct Hu as [Hu|Hu].
    + exfalso. apply Hb. now left.
    + destruct (IH (not_in_tail _ _ _ Hb) r u v H1 Hu) as (u2 & -> & ->).
      now exists u2.
Qed.

Lemma ends_with_newline (x u2 u' : str) :
  x ++ NL :: u2 = u' ++ [NL] -> u2 = [] \/ exists u'', u2 = u'' ++ [NL].
Proof.
  intros E. destruct u2 as [|c u2]; [now left|]. right.
  assert (N : c :: u2 <> []) by discriminate.
  destruct (exists_last N) as (q & a & Hq). rewrite Hq in E.
  change (x ++ NL :: q ++ [a]) with (x ++ (NL :: q) ++ [a]) in E.
  rewrite app_assoc in E. apply app_inj_tail in E as [_ ->].
  exists q. exact Hq.
Qed.

(** Behind a fence and its newline, the pattern of line 262 can only
    arrive at the start of a blank line or of the first line that is not
    blank. *)
Lemma line_start_only (B : list str) (f z : str) :
  Forall (fun l => ws l = true) B -> Forall (fun l => ~ In NL l) B ->
  ~ In NL f -> startswith (f ++ z) FENCE = false ->
  ws f = false \/ z = [] ->
  forall u v, lines_text B ++ f ++ z = u ++ v -> ws u = true ->
    u = [] \/ (exists u', u = u' ++ [NL]) -> startswith v FENCE = false.
Proof.
  intros HB HN Hf Hs Hz. induction HB as [|b B Hb HB IH]; intros u v E Hu Hl.
  - cbn [lines_text flat_map app] in E. destruct Hl as [->|(u' & ->)].
    + cbn [app] in E. now rewrite <- E.
    + exfalso. apply Hf. destruct Hz as [Hz| ->].
      * destruct (ws_prefix_within _ _ _ _ (eq_sym E) Hu Hz) as (v' & _ & -> & _).
        apply in_or_app. left. apply in_or_app. right. now left.
      * rewrite app_nil_r in E. rewrite E.
        apply in_or_app. left. apply in_or_app. right. now left.
  - inversion HN as [|? ? Hbn HN']; subst.
    change (lines_text (b :: B)) with ((b ++ [NL]) ++ lines_text B) in E.
    destruct Hl as [->|(u' & Eu)].
    + cbn [app] in E. rewrite <- E, <- (app_assoc (b ++ [NL])).
      change FENCE with [BACKTICK; BACKTICK; BACKTICK].
      apply (ws_head (b ++ [NL])).
      * intros G. apply app_eq_nil in G as [_ G]. discriminate.
      * rewrite forallb_app, Hb. reflexivity.
    + rewrite <- !app_assoc in E. cbn [app] in E.
      destruct (first_newline b Hbn _ u v E) as (u2 & -> & E2).
      { rewrite Eu. apply in_or_app. right. now left. }
      apply (IH HN' u2 v E2).
      * rewrite forallb_app in Hu. apply andb_prop in Hu as [_ Hu].
        cbn [forallb] in Hu. now apply andb_prop in Hu as [_ Hu].
      * exact (ends_with_newline _ _ _ Eu).
Qed.

(** *** A substitution that copies a line *)

Lemma sub_copy (p : regex) (l : str) :
  forall tail before,
    (forall u v, l = u ++ v -> v <> [] ->
       match_at p (rev u ++ before) (v ++ tail) = None) ->
    sub_tpl p [] before (l ++ tail) 0
    = l ++ sub_tpl p [] (rev l ++ before) tail 0.
Proof.
  induction l as [|c l IH]; intros tail before H; [reflexivity|].
  cbn [app sub_tpl].
  pose proof (H [] (c :: l) eq_refl ltac:(discriminate)) as H0.
  cbn [rev app] in H0. rewrite H0.
  rewrite IH.
  - cbn [rev]. now rewrite <- app_assoc.
  - intros u v E Hv. specialize (H (c :: u) v).
    cbn [rev] in H. rewrite <- app_assoc in H. apply H; [|exact Hv].
    now rewrite E.
Qed.

Lemma sub_hit (p : regex) (before x tail : str) (m : cursor) :
  x <> [] -> match_at p before (x ++ tail) = Some m ->
  length (seen m) - length before = length x ->
  sub_tpl p [] before (x ++ tail) 0 = sub_tpl p [] (rev x ++ before) tail 0.
Proof.
  destruct x as [|c x]; [contradiction|]. intros _ Hm Hl.
  cbn [app sub_tpl]. cbn [app] in Hm. rewrite Hm, Hl.
  cbn [length expand flat_map app]. rewrite sub_tpl_skip.
  cbn [rev]. rewrite <- app_assoc. reflexivity.
Qed.


(** *** One substitution over the lines of a tidy text *)

Section OnePattern.
Variable p : regex.
Variable skip_blank : bool.

Hypothesis Hhead : forall before s,
  startswith s (FENCE ++ [NL]) = false -> match_at p before s = None.

Hypothesis Hhit : forall before B t,
  Forall (fun l => ws l = true) B -> (skip_blank = false -> B = []) ->
  exists m,
    match_at p before (FENCE ++ NL :: lines_text B ++ FENCE ++ t) = Some m /\
    length (seen m) - length before
    = length (FENCE ++ NL :: lines_text B ++ FENCE).

Hypothesis Hmiss : forall before B f z,
  Forall (fun l => ws l = true) B -> Forall (fun l => ~ In NL l) B ->
  ~ In NL f -> (skip_blank = false -> B = []) ->
  startswith (f ++ z) FENCE = false ->
  z = [] \/ (skip_blank = true -> ws f = false) ->
  match_at p before (FENCE ++ NL :: lines_text B ++ f ++ z) = None.

Lemma no_match_here (before s : str) :
  startswith s FENCE = false -> match_at p before s = None.
Proof. intros H. now apply Hhead, startswith_longer. Qed.

(** The lines after a bare fence: the blank lines the pattern may pass,
    then the line that decides. *)
Lemma next_line (rest : list str) :
  rest <> [] ->
  exists B f rest',
    rest = B ++ f :: rest' /\ Forall (fun l => ws l = true) B /\
    (skip_blank = false -> B = []) /\
    (rest' = [] \/ (skip_blank = true -> ws f = false)).
Proof.
  destruct skip_blank.
  - induction rest as [|r rest IH]; intros Hne; [contradiction|].
    destruct rest as [|r2 rest0].
    + exists [], r, []. refine (conj eq_refl (conj _ (conj _ _))).
      * constructor.
      * discriminate.
      * now left.
    + destruct (ws r) eqn:W.
      * destruct IH as (B & f & rest' & E & HB & _ & Hf); [discriminate|].
        exists (r :: B), f, rest'. rewrite E.
        refine (conj eq_refl (conj _ (conj _ Hf))).
        -- now constructor.
        -- discriminate.
      * exists [], r, (r2 :: rest0). refine (conj eq_refl (conj _ (conj _ _))).
        -- constructor.
        -- discriminate.
        -- right. intros _. exact W.
  - intros Hne. destruct rest as [|r rest]; [contradiction|].
    exists [], r, rest. refine (conj eq_refl (conj _ (conj _ _))).
    + constructor.
    + reflexivity.
    + right. discriminate.
Qed.

Lemma copy_line (l : str) (rest : list str) (before : str) :
  tidy_line l = true -> ~ In NL l ->
  (forall u v, l = u ++ v -> v <> [] ->
     match_at p (rev u ++ before) (v ++ rest_text rest) = None) ->
  (rest <> [] -> exists lines', sub_lines p (NL :: rev l ++ before) rest lines') ->
  exists lines', sub_lines p before (l :: rest) lines'.
Proof.
  intros Ht Hn Hc IH. destruct rest as [|r rest].
  - exists [l]. refine (conj _ (conj _ (conj _ (conj _ eq_refl)))).
    + discriminate.
    + unfold tidy. cbn [forallb]. now rewrite Ht.
    + now repeat constructor.
    + rewrite join_cons, (sub_copy p l _ before Hc).
      cbn [rest_text sub_tpl]. rewrite Hhead by reflexivity.
      reflexivity.
  - destruct (IH ltac:(discriminate)) as (lines' & N & T & F & Hsub & P).
    exists (l :: lines'). refine (conj _ (conj _ (conj _ (conj _ _)))).
    + discriminate.
    + unfold tidy in *. cbn [forallb]. now rewrite Ht, T.
    + now constructor.
    + rewrite join_cons, (sub_copy p l _ before Hc).
      cbn [rest_text sub_tpl]. rewrite Hhead by reflexivity.
      rewrite Hsub, join_cons. destruct lines'; [contradiction|]. reflexivity.
    + now apply fences_cons_parity.
Qed.

Lemma sub_tidy :
  forall n lines before,
    length lines <= n -> lines <> [] -> tidy lines = true ->
    Forall (fun l => ~ In NL l) lines ->
    exists lines', sub_lines p before lines lines'.
Proof.
  induction n as [|n IH]; intros lines before Hn Hne Ht Hnl.
  - destruct lines; [contradiction|cbn in Hn; lia].
  - destruct lines as [|l rest]; [contradiction|].
    unfold tidy in Ht. cbn [forallb] in Ht. apply andb_prop in Ht as [Hl Hrest].
    inversion Hnl as [|? ? Hl_nl Hrest_nl]; subst.
    cbn [length] in Hn.
    assert (IHrest : forall before', rest <> [] ->
              exists lines', sub_lines p before' rest lines').
    { intros before' Hr. apply IH; try assumption. lia. }
    assert (Tail : rest_text rest = [] \/ exists z, rest_text rest = NL :: z).
    { destruct rest; [left|right; eexists]; reflexivity. }
    destruct (tidy_line_cases l Hl) as [Hb|(w & tag & El & Hw & Htag)].
    + apply copy_line; try assumption; [|apply IHrest].
      intros u v E Hv. apply no_match_here, no_fence_text_here; [|exact Tail].
      rewrite E in Hb. now apply no_fence_text_suffix in Hb.
    + assert (White : forall u v tail, w = u ++ v -> v <> [] ->
                match_at p (rev u ++ before) (v ++ tail) = None).
      { intros u v tail E Hv. apply no_match_here.
        change FENCE with [BACKTICK; BACKTICK; BACKTICK].
        apply ws_head; [exact Hv|].
        rewrite E, forallb_app in Hw. now apply andb_prop in Hw. }
      assert (Copy : match_at p (rev w ++ before) ((FENCE ++ tag) ++ rest_text rest) = None ->
                exists lines', sub_lines p before (l :: rest) lines').
      { intros M. apply copy_line; try assumption; [|apply IHrest].
        intros u v E Hv. rewrite El in E.
        apply app_eq_app in E as [l0 [[-> ->]|[-> E]]].
        - destruct l0 as [|a l0].
          + rewrite app_nil_r in M. exact M.
          + rewrite <- app_assoc. apply no_match_here.
            change FENCE with [BACKTICK; BACKTICK; BACKTICK].
            apply ws_head; [discriminate|].
            rewrite forallb_app in Hw. now apply andb_prop in Hw.
        - destruct l0 as [|a l0].
          + rewrite app_nil_r. cbn [app] in E. rewrite <- E. exact M.
          + apply no_match_here, no_fence_text_here; [|exact Tail].
            change (FENCE ++ tag) with (BACKTICK :: (lit "``" ++ tag)) in E.
            cbn [app] in E. inversion E as [[Ea E']].
            apply (no_fence_text_suffix l0). rewrite <- E'. exact Htag. }
      destruct tag as [|c tag].
      2: { apply Copy, Hhead.
           change ((FENCE ++ c :: tag) ++ rest_text rest)
             with (BACKTICK :: BACKTICK :: BACKTICK :: c :: tag ++ rest_text rest).
           change (FENCE ++ [NL]) with [BACKTICK; BACKTICK; BACKTICK; NL].
           cbn [startswith]. rewrite !N.eqb_refl. cbn [andb].
           destruct (c =? NL)%N eqn:C; [|reflexivity].
           apply N.eqb_eq in C. subst c. exfalso. apply Hl_nl. rewrite El.
           apply in_or_app. right. apply in_or_app. right. now left. }
      destruct rest as [|r rest0]; [apply Copy, Hhead; reflexivity|].
      destruct (next_line (r :: rest0)) as (B & f & rest' & E & HB & HB0 & Hf);
        [discriminate|].
      assert (T2 : tidy_line f = true /\ tidy rest' = true).
      { change (tidy (r :: rest0) = true) in Hrest. rewrite E, tidy_app in Hrest.
        apply andb_prop in Hrest as [_ Hrest]. unfold tidy in *.
        cbn [forallb] in Hrest. now apply andb_prop in Hrest. }
      destruct T2 as [Hf_t Hrest'_t].
      assert (N2 : Forall (fun l => ~ In NL l) B /\ ~ In NL f /\
                   Forall (fun l => ~ In NL l) rest').
      { rewrite E in Hrest_nl. apply Forall_app in Hrest_nl as [HBn Hrest_nl].
        inversion Hrest_nl; subst. now repeat split. }
      destruct N2 as (HB_nl & Hf_nl & Hrest'_nl).
      assert (Text : (FENCE ++ []) ++ rest_text (r :: rest0)
                     = FENCE ++ NL :: lines_text B ++ f ++ rest_text rest').
      { rewrite app_nil_r. cbn [rest_text]. now rewrite E, join_lines_text, join_cons. }
      assert (Tail' : rest_text rest' = [] \/ exists z, rest_text rest' = NL :: z).
      { destruct rest'; [left|right; eexists]; reflexivity. }
      assert (Hz : rest_text rest' = [] \/ (skip_blank = true -> ws f = false)).
      { destruct Hf as [->|Hf]; [now left|now right]. }
      assert (Miss : startswith (f ++ rest_text rest') FENCE = false ->
                exists lines', sub_lines p before (l :: r :: rest0) lines').
      { intros Hs. apply Copy. rewrite Text. now apply Hmiss. }
      destruct (tidy_line_cases f Hf_t) as [Hfb|(w' & tag' & Ef & Hw' & Htag')].
      * apply Miss. now apply no_fence_text_here.
      * destruct w' as [|a w'].
        2: { apply Miss. rewrite Ef, <- app_assoc.
             change FENCE with [BACKTICK; BACKTICK; BACKTICK].
             apply ws_head; [discriminate|exact Hw']. }
        cbn [app] in Ef. subst f.
        destruct (Hhit (rev w ++ before) B (tag' ++ rest_text rest') HB HB0)
          as (m & Hm & Hlen).
        assert (Len : length (tag' :: rest') <= n).
        { assert (L : length (r :: rest0) = length B + S (length rest')).
          { rewrite E, length_app. reflexivity. }
          cbn [length] in *. unfold str in *. lia. }
        assert (Tag_nl : ~ In NL tag').
        { intros G. apply Hf_nl. apply in_or_app. now right. }
        assert (Tag_free : no_fence_text tag' = true).
        { now apply (no_fence_text_suffix (lit "``")). }
        destruct (IH (tag' :: rest')
                    (rev (FENCE ++ NL :: lines_text B ++ FENCE) ++ rev w ++ before) Len)
          as (lines' & N & T & F & Hsub & P).
        -- discriminate.
        -- unfold tidy in *. cbn [forallb].
           now rewrite (no_fence_text_tidy tag' Tag_free), Hrest'_t.
        -- now constructor.
        -- destruct lines' as [|l0 ls0]; [contradiction|].
           unfold tidy in T. cbn [forallb] in T. apply andb_prop in T as [T0 T1].
           inversion F as [|? ? F0 F1]; subst.
           exists ((w ++ l0) :: ls0). refine (conj _ (conj _ (conj _ (conj _ _)))).
           ++ discriminate.
           ++ unfold tidy. cbn [forallb]. now rewrite (tidy_line_ws w l0 Hw T0), T1.
           ++ constructor; [|exact F1]. intros G. apply in_app_or in G as [G|G].
              ** apply Hl_nl. apply in_or_app. now left.
              ** now apply F0.
           ++ rewrite join_cons, <- (app_assoc w (FENCE ++ []) _), Text.
              rewrite (sub_copy p w _ before) by (intros u v; apply White).
              rewrite (join_cons (w ++ l0)), <- (app_assoc w l0). f_equal.
              rewrite <- (join_cons l0 ls0), <- Hsub.
              replace (join [NL] (tag' :: rest')) with (tag' ++ rest_text rest')
                by (symmetry; apply join_cons).
              rewrite <- (sub_hit p (rev w ++ before)
                            (FENCE ++ NL :: lines_text B ++ FENCE)
                            (tag' ++ rest_text rest') m).
              ** f_equal. repeat (rewrite <- ?app_assoc; cbn [app]). reflexivity.
              ** discriminate.
              ** rewrite <- Hm. f_equal.
                 repeat (rewrite <- ?app_assoc; cbn [app]). reflexivity.
              ** exact Hlen.
           ++ assert (A : fences ((w ++ l0) :: ls0) = fences (l0 :: ls0)).
              { unfold fences. cbn [filter]. rewrite (is_fence_line_ws w l0 Hw).
                now destruct (is_fence_line l0). }
              assert (A2 : fences (tag' :: rest') = fences rest').
              { unfold fences. cbn [filter].
                now rewrite (no_fence_text_line tag' Tag_free). }
              assert (A3 : fences ((w ++ FENCE ++ []) :: r :: rest0)
                           = S (S (fences rest'))).
              { rewrite E.
                rewrite fences_cons_fence by (apply fence_then_tag; exact Hw).
                rewrite fences_app, (blank_not_fence B HB).
                rewrite fences_cons_fence
                  by (apply (fence_then_tag [] tag'); reflexivity).
                reflexivity. }
              rewrite A, P, A2.
              transitivity (Nat.even (S (S (fences rest')))); [reflexivity|].
              f_equal. symmetry. exact A3.
Qed.

End OnePattern.

(** *** The two patterns of [remove_empty_code_blocks] *)

Lemma blank_block_lines (lines : list str) (before : str) :
  lines <> [] -> tidy lines = true -> Forall (fun l => ~ In NL l) lines ->
  exists lines', sub_lines re_blank_block before lines lines'.
Proof.
  intros N T F.
  apply (sub_tidy re_blank_block true) with (n := length lines); auto.
  - exact blank_block_head.
  - intros b B t HB _.
    destruct (blank_block_match b (lines_text B) t (blank_lines_text B HB))
      as (m & Hm & Hl).
    now exists m.
  - intros b B f z HB HBn Hf _ Hs Hz. apply blank_block_miss.
    apply line_start_only; try assumption.
    destruct Hz as [->|Hz]; [now right|left; now apply Hz].
Qed.

Lemma adjacent_fences_lines (lines : list str) (before : str) :
  lines <> [] -> tidy lines = true -> Forall (fun l => ~ In NL l) lines ->
  exists lines', sub_lines re_adjacent_fences before lines lines'.
Proof.
  intros N T F.
  apply (sub_tidy re_adjacent_fences false) with (n := length lines); auto.
  - exact adjacent_fences_head.
  - intros b B t _ HB0. rewrite (HB0 eq_refl). exact (adjacent_fences_match b t).
  - intros b B f z _ _ _ HB0 Hs _. rewrite (HB0 eq_refl).
    apply adjacent_fences_miss. exact Hs.
Qed.

(** On the text of tidy lines [remove_empty_code_blocks] returns the text
    of tidy lines, with the same number of fence-marker lines up to an even
    number. *)
Lemma remove_empty_lines (lines : list str) :
  lines <> [] -> tidy lines = true -> Forall (fun l => ~ In NL l) lines ->
  exists lines',
    lines' <> [] /\ tidy lines' = true /\ Forall (fun l => ~ In NL l) lines' /\
    remove_empty_code_blocks (join [NL] lines) = join [NL] lines' /\
    Nat.even (fences lines') = Nat.even (fences lines).
Proof.
  intros N T F.
  destruct (blank_block_lines lines [] N T F) as (l1 & N1 & T1 & F1 & S1 & P1).
  destruct (adjacent_fences_lines l1 [] N1 T1 F1) as (l2 & N2 & T2 & F2 & S2 & P2).
  exists l2. unfold remove_empty_code_blocks, re_sub.
  rewrite S1, S2, P2, P1. auto.
Qed.

(** The scanner keeps a tidy text tidy. *)
Lemma fixes_tidy (ls out : list str) :
  fixes ls out -> tidy ls = true -> tidy out = true.
Proof.
  induction 1 as [|l ls out _ IH|fence blanks orphans ls out _ _ _ _ _ _ IH];
    intros T.
  - reflexivity.
  - unfold tidy in *. cbn [forallb] in *. apply andb_prop in T as [T1 T2].
    now rewrite T1, IH.
  - change (tidy ([fence] ++ blanks ++ orphans ++ ls) = true) in T.
    rewrite !tidy_app in T.
    apply andb_prop in T as [_ T]. apply andb_prop in T as [_ T].
    apply andb_prop in T as [To Tl].
    change (tidy (orphans ++ [FENCE] ++ out) = true).
    rewrite !tidy_app, To, (IH Tl). reflexivity.
Qed.

End TidyProps.

(** ** Fence parity *)
Section FenceParity.
Import Py PyFacts Re FixMdx ScannerFacts ScannerProps Vocabulary ScannerShape
       SecondRun TidyProps.
Local Open Scope py_scope.

(** C3, amended: on a tidy document, one in which every line either holds
    no run of three backticks or is white space, a fence marker and a tag
    in which no further run of three backticks begins, the fence scanner
    returns a text with as many fence-marker lines as the document, and
    [remove_empty_code_blocks] takes fence-marker lines out of that text in
    pairs only: the number of fence-marker lines is even in the output
    exactly when it is even in the input.  So a document whose fences all
    match gives a text whose fences all match in number, and an unmatched
    fence stays unmatched. *)
Theorem fence_parity_kept (x : str) :
  tidy (split NL x) = true ->
  exists y,
    fix_fragmented_blocks x = Ret y /\
    fence_lines y = fence_lines x /\
    Nat.even (fence_lines (remove_empty_code_blocks y))
    = Nat.even (fence_lines x).
Proof.
  intros T.
  destruct (scanner_lines x) as (out & Hy & Hfix & Hnl).
  destruct (scan_spec x) as (r & m & P1 & _ & P3 & H).
  assert (Hr : fix_fragmented_blocks x = Ret (join [NL] r)).
  { unfold fix_fragmented_blocks, fix_fragmented_blocks_fuel.
    rewrite H by lia. reflexivity. }
  rewrite Hy in Hr. injection Hr as Hr.
  assert (C : fence_lines (join [NL] out) = fence_lines x).
  { rewrite Hr, <- P1. apply (fences_split_join r P3). }
  exists (join [NL] out). refine (conj Hy (conj C _)).
  destruct (remove_empty_lines out) as (lines' & N' & T' & F' & S' & P').
  - apply (fixes_not_nil (split NL x)); [exact Hfix|apply split_not_nil].
  - exact (fixes_tidy _ _ Hfix T).
  - exact Hnl.
  - rewrite S', <- C. unfold fence_lines.
    now rewrite (fences_split_join lines' F'), (fences_split_join out Hnl).
Qed.

Lemma fence_parity_kept_witness :
  tidy (split NL inline_code_and_empty_block) = true /\
  exists y,
    fix_fragmented_blocks inline_code_and_empty_block = Ret y /\
    fence_lines y = fence_lines inline_code_and_empty_block /\
    Nat.even (fence_lines (remove_empty_code_blocks y))
    = Nat.even (fence_lines inline_code_and_empty_block).
Proof.
  split; [vm_compute; reflexivity|].
  apply (fence_parity_kept inline_code_and_empty_block).
  vm_compute. reflexivity.
Defined.

(** X27: the pattern of line 262 is not anchored at the start of a line.
    In [fence_after_text] the first line is text that ends with three
    backticks and is no fence-marker line; the scanner returns the document
    as it is, and [remove_empty_code_blocks] takes those three backticks
    for an empty block together with the opening fence below, joins the two
    lines and leaves one fence-marker line of the two: an even number in,
    an odd number out, in the function and in the whole pipeline. *)
Theorem fence_after_text_merged :
  has_fence_pair (split NL fence_after_text) = true /\
  tidy (split NL fence_after_text) = false /\
  fix_fragmented_blocks fence_after_text = Ret fence_after_text /\
  remove_empty_code_blocks fence_after_text = fence_after_text_out /\
  transform fence_after_text = Ret fence_after_text_out /\
  fence_lines fence_after_text = 2 /\
  fence_lines fence_after_text_out = 1.
Proof. repeat split; vm_compute; reflexivity. Qed.

End FenceParity.
